(** * Frame pipe sink (scrcpy, app/src/frame_pipe_sink.c)

    A shallow embedding of the frame pipe sink: the writer of the
    "YUV4" dimension packets and of the PTS + YUV420P frame packets on a
    named pipe, and the open/push/close state machine around it.

    C integers are modelled as [Z] with the conversions of the source written
    out ([int] is 32 bits, [size_t]/[ssize_t]/[int64_t] are 64 bits); bytes
    are [Z] values in [0, 256); memory blocks (plane buffers, the scratch
    buffer) are [list Z].  The operating system is a [world]: the trace of
    system calls made so far, and the scripted results of the [write]s and
    [malloc]s still to come.  Behaviour the C standard leaves undefined
    (reading or writing outside a block, signed overflow) is the result
    [None]. *)

From Stdlib Require Import String Ascii ZArith List Bool Lia.
Import ListNotations.
Local Open Scope Z_scope.

(** ** C integer types *)

Module CInt.

Definition INT_MIN : Z := - 2 ^ 31.
Definition INT_MAX : Z := 2 ^ 31 - 1.
Definition INT64_MIN : Z := - 2 ^ 63.
Definition INT64_MAX : Z := 2 ^ 63 - 1.

Definition is_int (x : Z) : bool := (INT_MIN <=? x) && (x <=? INT_MAX).
Definition is_int64 (x : Z) : bool := (INT64_MIN <=? x) && (x <=? INT64_MAX).

(** Conversion to [size_t]: reduction modulo 2^64. *)
Definition to_size_t (x : Z) : Z := x mod 2 ^ 64.

(** Conversion to [ssize_t] / [int64_t]: two's complement on 64 bits. *)
Definition to_ssize_t (x : Z) : Z := (x + 2 ^ 63) mod 2 ^ 64 - 2 ^ 63.
Definition to_int64 (x : Z) : Z := (x + 2 ^ 63) mod 2 ^ 64 - 2 ^ 63.

(** [int * int]: signed overflow is undefined. *)
Definition int_mul (a b : Z) : option Z :=
  if is_int (a * b) then Some (a * b) else None.

(** A character constant as the value stored in a [uint8_t]. *)
Definition char (c : ascii) : Z := Z.of_N (N_of_ascii c).

End CInt.
Import CInt.

(** ** Memory blocks *)

Module Mem.

Definition block := list Z.

Definition len (b : block) : Z := Z.of_nat (length b).

(** [n] bytes read at offset [off] of a block; outside the block the read
    is undefined. *)
Definition read (b : block) (off n : Z) : option (list Z) :=
  if (0 <=? off) && (0 <=? n) && (off + n <=? len b)
  then Some (firstn (Z.to_nat n) (skipn (Z.to_nat off) b))
  else None.

(** [memcpy(b + off, bs, length bs)]. *)
Definition write (b : block) (off : Z) (bs : list Z) : option block :=
  if (0 <=? off) && (off + len bs <=? len b)
  then Some (firstn (Z.to_nat off) b ++ bs
             ++ skipn (Z.to_nat (off + len bs)) b)
  else None.

End Mem.

(** ** The operating system *)

(** Scripted result of one [write]/[writev]: everything is written, only the
    first [k] bytes are, or the call fails with -1. *)
Inductive wres : Type :=
| WAll
| WShort (k : nat)
| WFail.

Inductive event : Type :=
| EWrite (fd : Z) (buf : list Z) (ret : Z)
| EWritev (fd : Z) (iov : list (list Z)) (ret : Z)
| EUnlink (path : string)
| EMkfifo (path : string) (ret : Z)
| EOpen (path : string) (ret : Z)
| EClose (fd : Z).

Record world : Type := mkWorld {
  trace : list event;      (* system calls made, oldest first *)
  wscript : list wres;     (* results of the next writes; [] = all succeed *)
  mscript : list bool      (* results of the next mallocs; [] = all succeed *)
}.

Definition log (e : event) (w : world) : world :=
  mkWorld (trace w ++ [e]) (wscript w) (mscript w).

Definition write_ret (r : wres) (n : Z) : Z :=
  match r with
  | WAll => n
  | WShort k => Z.min (Z.of_nat k) n
  | WFail => -1
  end.

Definition next_wres (w : world) : wres * world :=
  match wscript w with
  | [] => (WAll, w)
  | r :: rs => (r, mkWorld (trace w) rs (mscript w))
  end.

(** [write(fd, buf, n)] where [buf] holds the [n] bytes handed over. *)
Definition sys_write (w : world) (fd : Z) (buf : list Z) : Z * world :=
  let '(r, w1) := next_wres w in
  let ret := write_ret r (Mem.len buf) in
  (ret, log (EWrite fd buf ret) w1).

(** [writev(fd, iov, iovcnt)]. *)
Definition sys_writev (w : world) (fd : Z) (iov : list (list Z)) : Z * world :=
  let '(r, w1) := next_wres w in
  let ret := write_ret r (Mem.len (concat iov)) in
  (ret, log (EWritev fd iov ret) w1).

(** [malloc(n)]: a fresh block of [n] bytes, or NULL. *)
Definition sys_malloc (w : world) (n : Z) : option Mem.block * world :=
  match mscript w with
  | [] => (Some (repeat 0 (Z.to_nat n)), w)
  | ok :: ms =>
      (if ok then Some (repeat 0 (Z.to_nat n)) else None,
       mkWorld (trace w) (wscript w) ms)
  end.

(** The bytes a system call put on the pipe. *)
Definition delivered (e : event) : list Z :=
  match e with
  | EWrite _ buf ret => firstn (Z.to_nat ret) buf
  | EWritev _ iov ret => firstn (Z.to_nat ret) (concat iov)
  | _ => []
  end.

Definition pipe_bytes (t : list event) : list Z := flat_map delivered t.

(** ** libavutil types *)

Module AV.

Record AVRational : Type := mkRational { num : Z; den : Z }.

(** The fields of [AVFrame] the sink reads.  [data] holds the blocks the
    plane pointers point to, [linesize] their strides. *)
Record AVFrame : Type := mkFrame {
  width : Z;
  height : Z;
  linesize : list Z;
  data : list Mem.block;
  pts : Z
}.

Definition linesize_at (f : AVFrame) (i : nat) : Z := nth i (linesize f) 0.
Definition data_at (f : AVFrame) (i : nat) : Mem.block := nth i (data f) [].

End AV.

(** ** The sink *)

Record sc_frame_pipe_sink : Type := mkSink {
  pipe_path : string;
  fd : Z;
  stopped : bool;
  width : Z;
  height : Z;
  time_base : AV.AVRational;
  frame_buf : option Mem.block;   (* None = NULL *)
  frame_buf_size : Z
}.

Definition set_fd (fps : sc_frame_pipe_sink) (v : Z) :=
  mkSink (pipe_path fps) v (stopped fps) (width fps) (height fps)
         (time_base fps) (frame_buf fps) (frame_buf_size fps).

Definition set_stopped (fps : sc_frame_pipe_sink) (v : bool) :=
  mkSink (pipe_path fps) (fd fps) v (width fps) (height fps)
         (time_base fps) (frame_buf fps) (frame_buf_size fps).

Definition set_size (fps : sc_frame_pipe_sink) (wd ht : Z) :=
  mkSink (pipe_path fps) (fd fps) (stopped fps) wd ht
         (time_base fps) (frame_buf fps) (frame_buf_size fps).

Definition set_time_base (fps : sc_frame_pipe_sink) (tb : AV.AVRational) :=
  mkSink (pipe_path fps) (fd fps) (stopped fps) (width fps) (height fps)
         tb (frame_buf fps) (frame_buf_size fps).

Definition set_frame_buf (fps : sc_frame_pipe_sink) (b : option Mem.block) :=
  mkSink (pipe_path fps) (fd fps) (stopped fps) (width fps) (height fps)
         (time_base fps) b (frame_buf_size fps).

Definition set_frame_buf_size (fps : sc_frame_pipe_sink) (n : Z) :=
  mkSink (pipe_path fps) (fd fps) (stopped fps) (width fps) (height fps)
         (time_base fps) (frame_buf fps) n.

(** *** write_header *)

Definition magic : list Z := [char "Y"; char "U"; char "V"; char "4"].

Definition header_bytes (width height : Z) : list Z :=
  magic ++
  [ Z.land width 255;
    Z.land (Z.shiftr width 8) 255;
    Z.land (Z.shiftr width 16) 255;
    Z.land (Z.shiftr width 24) 255;
    Z.land height 255;
    Z.land (Z.shiftr height 8) 255;
    Z.land (Z.shiftr height 16) 255;
    Z.land (Z.shiftr height 24) 255 ].

Definition write_header (fps : sc_frame_pipe_sink) (w : world)
    (width height : Z) : bool * sc_frame_pipe_sink * world :=
  let header := header_bytes width height in
  let '(wr, w1) := sys_write w (fd fps) header in
  if negb (to_size_t wr =? 12) then (false, fps, w1)
  else (true, set_size fps width height, w1).

(** *** write_pts *)

Definition pts_bytes (pts_us : Z) : list Z :=
  [ Z.land pts_us 255;
    Z.land (Z.shiftr pts_us 8) 255;
    Z.land (Z.shiftr pts_us 16) 255;
    Z.land (Z.shiftr pts_us 24) 255;
    Z.land (Z.shiftr pts_us 32) 255;
    Z.land (Z.shiftr pts_us 40) 255;
    Z.land (Z.shiftr pts_us 48) 255;
    Z.land (Z.shiftr pts_us 56) 255 ].

Definition write_pts (fps : sc_frame_pipe_sink) (w : world) (pts_us : Z)
    : bool * world :=
  let buf := pts_bytes pts_us in
  let '(wr, w1) := sys_write w (fd fps) buf in
  if negb (to_size_t wr =? 8) then (false, w1) else (true, w1).

(** *** write_frame_data *)

Notation "x <- e ;; k" := (match e with Some x => k | None => None end)
  (at level 61, e at next level, right associativity, only parsing).
Notation "' p <- e ;; k" := (match e with Some p => k | None => None end)
  (at level 61, p pattern, e at next level, right associativity, only parsing).

(** One of the three copy loops
    [for (int y = 0; y < rows; y++) { memcpy(dst, src + y * linesize, width);
    dst += width; }], with [n] the iterations still to run; the result is the
    scratch buffer and [dst] after the loop. *)
Fixpoint copy_rows (n : nat) (y : Z) (src : Mem.block) (linesize width : Z)
    (buf : Mem.block) (dst : Z) : option (Mem.block * Z) :=
  match n with
  | O => Some (buf, dst)
  | S n' =>
      off <- int_mul y linesize ;;
      row <- Mem.read src off (to_size_t width) ;;
      buf' <- Mem.write buf dst row ;;
      copy_rows n' (y + 1) src linesize width buf' (dst + width)
  end.

Definition uv_width_of (frame : AV.AVFrame) : Z := Z.quot (AV.width frame) 2.
Definition uv_height_of (frame : AV.AVFrame) : Z := Z.quot (AV.height frame) 2.

Definition y_size_of (frame : AV.AVFrame) : Z :=
  to_size_t (to_size_t (AV.width frame) * to_size_t (AV.height frame)).

Definition uv_size_of (frame : AV.AVFrame) : Z :=
  to_size_t (to_size_t (uv_width_of frame) * to_size_t (uv_height_of frame)).

Definition frame_size_of (frame : AV.AVFrame) : Z :=
  to_size_t (y_size_of frame + to_size_t (uv_size_of frame * 2)).

Definition can_write_direct (frame : AV.AVFrame) : bool :=
  (AV.linesize_at frame 0 =? AV.width frame) &&
  (AV.linesize_at frame 1 =? uv_width_of frame) &&
  (AV.linesize_at frame 2 =? uv_width_of frame).

(** Fast path: the three planes handed to one [writev]. *)
Definition write_direct (fps : sc_frame_pipe_sink) (w : world)
    (frame : AV.AVFrame) : option (bool * sc_frame_pipe_sink * world) :=
  iov0 <- Mem.read (AV.data_at frame 0) 0 (y_size_of frame) ;;
  iov1 <- Mem.read (AV.data_at frame 1) 0 (uv_size_of frame) ;;
  iov2 <- Mem.read (AV.data_at frame 2) 0 (uv_size_of frame) ;;
  let '(written, w1) := sys_writev w (fd fps) [iov0; iov1; iov2] in
  if negb (written =? to_ssize_t (frame_size_of frame))
  then Some (false, fps, w1)
  else Some (true, fps, w1).

(** Slow path, after the buffer has been allocated: the three copy loops and
    the single [write]. *)
Definition copy_and_write (fps : sc_frame_pipe_sink) (w : world)
    (frame : AV.AVFrame) : option (bool * sc_frame_pipe_sink * world) :=
  let width := AV.width frame in
  let height := AV.height frame in
  let uv_width := uv_width_of frame in
  let uv_height := uv_height_of frame in
  let frame_size := frame_size_of frame in
  buf0 <- frame_buf fps ;;
  '(buf1, dst1) <- copy_rows (Z.to_nat height) 0 (AV.data_at frame 0)
                     (AV.linesize_at frame 0) width buf0 0 ;;
  '(buf2, dst2) <- copy_rows (Z.to_nat uv_height) 0 (AV.data_at frame 1)
                     (AV.linesize_at frame 1) uv_width buf1 dst1 ;;
  '(buf3, _) <- copy_rows (Z.to_nat uv_height) 0 (AV.data_at frame 2)
                     (AV.linesize_at frame 2) uv_width buf2 dst2 ;;
  let fps1 := set_frame_buf fps (Some buf3) in
  out <- Mem.read buf3 0 frame_size ;;
  let '(written, w1) := sys_write w (fd fps1) out in
  if negb (written =? to_ssize_t frame_size)
  then Some (false, fps1, w1)
  else Some (true, fps1, w1).

(** Slow path: allocate or reuse the scratch buffer, then copy and write. *)
Definition write_copy (fps : sc_frame_pipe_sink) (w : world)
    (frame : AV.AVFrame) : option (bool * sc_frame_pipe_sink * world) :=
  let frame_size := frame_size_of frame in
  let realloc :=
    match frame_buf fps with
    | None => true
    | Some _ => frame_buf_size fps <? frame_size
    end in
  if realloc then
    let '(p, w1) := sys_malloc w frame_size in
    let fps1 := set_frame_buf fps p in
    match p with
    | None => Some (false, fps1, w1)
    | Some _ => copy_and_write (set_frame_buf_size fps1 frame_size) w1 frame
    end
  else copy_and_write fps w frame.

Definition write_frame_data (fps : sc_frame_pipe_sink) (w : world)
    (frame : AV.AVFrame) : option (bool * sc_frame_pipe_sink * world) :=
  if can_write_direct frame then write_direct fps w frame
  else write_copy fps w frame.

(** *** open, close, init *)

(** [mkfifo_ret] and [open_ret] are what the operating system answers to
    [mkfifo] and to [open]. *)
Definition sc_frame_pipe_sink_open (fps : sc_frame_pipe_sink) (w : world)
    (ctx_time_base : AV.AVRational) (mkfifo_ret open_ret : Z)
    : bool * sc_frame_pipe_sink * world :=
  let fps := set_time_base fps ctx_time_base in
  let w := log (EUnlink (pipe_path fps)) w in
  let w := log (EMkfifo (pipe_path fps) mkfifo_ret) w in
  if mkfifo_ret <? 0 then (false, fps, w)
  else
    let w := log (EOpen (pipe_path fps) open_ret) w in
    let fps := set_fd fps open_ret in
    if fd fps <? 0 then (false, fps, log (EUnlink (pipe_path fps)) w)
    else
      let fps := set_size fps 0 0 in
      let fps := set_stopped fps false in
      (true, fps, w).

Definition sc_frame_pipe_sink_close (fps : sc_frame_pipe_sink) (w : world)
    : sc_frame_pipe_sink * world :=
  let '(fps, w) :=
    if 0 <=? fd fps then (set_fd fps (-1), log (EClose (fd fps)) w)
    else (fps, w) in
  (fps, log (EUnlink (pipe_path fps)) w).

(** [fps] is the storage handed to init; [strdup_ok] tells whether [strdup]
    returned a copy.  The field [time_base] is left as it was. *)
Definition sc_frame_pipe_sink_init (fps : sc_frame_pipe_sink)
    (path : string) (strdup_ok : bool) : bool * sc_frame_pipe_sink :=
  if negb strdup_ok then (false, fps)
  else
    (true, mkSink path (-1) false 0 0 (time_base fps) None 0).

(** *** push *)

Section Push.

(** From libavutil, outside this repository: the "no timestamp" value and
    the rescaling of a timestamp from one time base to another. *)
Variable AV_NOPTS_VALUE : Z.
Variable av_rescale_q : Z -> AV.AVRational -> AV.AVRational -> Z.

Definition pts_us_of (fps : sc_frame_pipe_sink) (frame : AV.AVFrame) : Z :=
  if negb (AV.pts frame =? AV_NOPTS_VALUE)
  then to_int64 (av_rescale_q (AV.pts frame) (time_base fps)
                              (AV.mkRational 1 1000000))
  else 0.

Definition sc_frame_pipe_sink_push (fps : sc_frame_pipe_sink) (w : world)
    (frame : AV.AVFrame) : option (bool * sc_frame_pipe_sink * world) :=
  if (fd fps <? 0) || stopped fps then Some (false, fps, w)
  else
    let '(ok, fps, w) :=
      if negb (AV.width frame =? width fps)
         || negb (AV.height frame =? height fps)
      then write_header fps w (AV.width frame) (AV.height frame)
      else (true, fps, w) in
    if negb ok then Some (false, set_stopped fps true, w)
    else
      let pts_us := pts_us_of fps frame in
      let '(ok, w) := write_pts fps w pts_us in
      if negb ok then Some (false, set_stopped fps true, w)
      else
        '(ok, fps, w) <- write_frame_data fps w frame ;;
        if negb ok then Some (false, set_stopped fps true, w)
        else Some (true, fps, w).

(** A sequence of pushes, one frame after the other; the results of the
    calls are returned oldest first. *)
Fixpoint push_all (fps : sc_frame_pipe_sink) (w : world)
    (frames : list AV.AVFrame)
    : option (list bool * sc_frame_pipe_sink * world) :=
  match frames with
  | [] => Some ([], fps, w)
  | frame :: rest =>
      '(ok, fps1, w1) <- sc_frame_pipe_sink_push fps w frame ;;
      '(oks, fps2, w2) <- push_all fps1 w1 rest ;;
      Some (ok :: oks, fps2, w2)
  end.

End Push.

(** ** The reader's side of the protocol

    The protocol documentation of frame_pipe_sink.h, read as functions: the
    reader takes 4 bytes, compares them with the magic, and reads the two
    little-endian sizes of a dimension packet or the 8 bytes of a PTS. *)

Definition is_byte (x : Z) : Prop := 0 <= x < 256.

(** Unsigned little-endian value of a byte sequence. *)
Fixpoint decode_le (bs : list Z) : Z :=
  match bs with
  | [] => 0
  | b :: rest => b + 256 * decode_le rest
  end.

(** A little-endian two's complement 64-bit value. *)
Definition decode_i64_le (bs : list Z) : Z := to_int64 (decode_le bs).

Definition decode_header (bs : list Z) : option (Z * Z) :=
  if list_eq_dec Z.eq_dec (firstn 4 bs) magic then
    if Nat.eqb (length bs) 12
    then Some (decode_le (firstn 4 (skipn 4 bs)), decode_le (skipn 8 bs))
    else None
  else None.

(** One thousand years of 365 days, in microseconds. *)
Definition millennium_us : Z := 1000 * 365 * 86400 * 1000000.

(** ** Frames as pixel content *)

(** Row [y] of a plane: [width] bytes at offset [y * linesize]. *)
Definition plane_row (b : Mem.block) (linesize width : Z) (y : nat) : list Z :=
  firstn (Z.to_nat width) (skipn (Z.to_nat (Z.of_nat y * linesize)) b).

Definition plane_rows (b : Mem.block) (linesize width : Z) (rows : nat)
    : list (list Z) :=
  map (plane_row b linesize width) (seq 0 rows).

Definition y_rows (f : AV.AVFrame) : list (list Z) :=
  plane_rows (AV.data_at f 0) (AV.linesize_at f 0) (AV.width f)
             (Z.to_nat (AV.height f)).

Definition u_rows (f : AV.AVFrame) : list (list Z) :=
  plane_rows (AV.data_at f 1) (AV.linesize_at f 1) (AV.width f / 2)
             (Z.to_nat (AV.height f / 2)).

Definition v_rows (f : AV.AVFrame) : list (list Z) :=
  plane_rows (AV.data_at f 2) (AV.linesize_at f 2) (AV.width f / 2)
             (Z.to_nat (AV.height f / 2)).

(** The payload the protocol asks for: the Y rows, then the U rows, then the
    V rows, nothing in between. *)
Definition packed_yuv420p (f : AV.AVFrame) : list Z :=
  concat (y_rows f) ++ concat (u_rows f) ++ concat (v_rows f).

(** Two frames show the same picture. *)
Definition same_pixels (f g : AV.AVFrame) : Prop :=
  AV.width f = AV.width g /\ AV.height f = AV.height g /\
  y_rows f = y_rows g /\ u_rows f = u_rows g /\ v_rows f = v_rows g.

(** The sizes the producer guarantees: even, at least 2, and [int]s. *)
Record dims_ok (f : AV.AVFrame) : Prop := mk_dims_ok {
  dims_width : 2 <= AV.width f <= INT_MAX;
  dims_height : 2 <= AV.height f <= INT_MAX;
  dims_width_even : AV.width f mod 2 = 0;
  dims_height_even : AV.height f mod 2 = 0
}.

(** An input frame: such sizes, and every stride at least the row width. *)
Record frame_ok (f : AV.AVFrame) : Prop := mk_frame_ok {
  fo_dims : dims_ok f;
  fo_stride_y : AV.width f <= AV.linesize_at f 0;
  fo_stride_u : AV.width f / 2 <= AV.linesize_at f 1;
  fo_stride_v : AV.width f / 2 <= AV.linesize_at f 2
}.

(** No stride padding: the frame takes the fast path. *)
Definition unpadded (f : AV.AVFrame) : Prop :=
  AV.linesize_at f 0 = AV.width f /\
  AV.linesize_at f 1 = AV.width f / 2 /\
  AV.linesize_at f 2 = AV.width f / 2.

(** A plane of [rows] rows of [width] bytes, [linesize] apart, lies inside
    its block. *)
Definition plane_ok (b : Mem.block) (linesize width rows : Z) : Prop :=
  width <= linesize /\
  (rows - 1) * linesize + width <= Mem.len b.

(** The row offsets [y * linesize] of the copy loops are [int]s. *)
Definition row_offsets_ok (f : AV.AVFrame) : Prop :=
  (AV.height f - 1) * AV.linesize_at f 0 <= INT_MAX /\
  (AV.height f / 2 - 1) * AV.linesize_at f 1 <= INT_MAX /\
  (AV.height f / 2 - 1) * AV.linesize_at f 2 <= INT_MAX.

(** A frame write_frame_data can read: an input frame whose planes lie
    inside their blocks and, when it is padded, whose row offsets are
    [int]s. *)
Record wf_frame (f : AV.AVFrame) : Prop := mk_wf_frame {
  wf_dims : dims_ok f;
  wf_plane_y :
    plane_ok (AV.data_at f 0) (AV.linesize_at f 0) (AV.width f) (AV.height f);
  wf_plane_u :
    plane_ok (AV.data_at f 1) (AV.linesize_at f 1)
             (AV.width f / 2) (AV.height f / 2);
  wf_plane_v :
    plane_ok (AV.data_at f 2) (AV.linesize_at f 2)
             (AV.width f / 2) (AV.height f / 2);
  wf_offsets : unpadded f \/ row_offsets_ok f
}.

(** ** States of the sink *)

(** The scratch buffer and its recorded size agree. *)
Definition buf_ok (fps : sc_frame_pipe_sink) : Prop :=
  match frame_buf fps with
  | None => frame_buf_size fps = 0
  | Some b => frame_buf_size fps = Mem.len b
  end.

(** What init establishes and push and close keep: unless the sink has
    stopped, the buffer and its recorded size agree. *)
Definition sink_inv (fps : sc_frame_pipe_sink) : Prop :=
  stopped fps = false -> buf_ok fps.

(** Streaming: opened and not stopped. *)
Definition streaming (fps : sc_frame_pipe_sink) : Prop :=
  0 <= fd fps /\ stopped fps = false.

(** The events a call appended to the trace. *)
Definition appended (w w' : world) (es : list event) : Prop :=
  trace w' = trace w ++ es.

(** The payload writer leaves everything but the scratch buffer alone. *)
Definition same_control (fps fps' : sc_frame_pipe_sink) : Prop :=
  pipe_path fps' = pipe_path fps /\ fd fps' = fd fps /\
  stopped fps' = stopped fps /\ width fps' = width fps /\
  height fps' = height fps /\ time_base fps' = time_base fps.

(** ** Reading the trace *)

(** The world after a [write]/[writev] logged as [e]. *)
Definition after_write (w : world) (e : event) : world :=
  mkWorld (trace w ++ [e]) (tl (wscript w)) (mscript w).

(** The bytes handed to a write call, and what the call returned. *)
Definition requested (e : event) : list Z :=
  match e with
  | EWrite _ buf _ => buf
  | EWritev _ iov _ => concat iov
  | _ => []
  end.

Definition returned (e : event) : Z :=
  match e with
  | EWrite _ _ ret | EWritev _ _ ret => ret
  | _ => 0
  end.

Definition is_write (e : event) : bool :=
  match e with
  | EWrite _ _ _ | EWritev _ _ _ => true
  | _ => false
  end.

(** A short write or an I/O error. *)
Definition failed_write (e : event) : Prop :=
  is_write e = true /\ returned e <> Mem.len (requested e).

(** ** push, step by step *)

Section PushSteps.

Variable AV_NOPTS_VALUE : Z.
Variable av_rescale_q : Z -> AV.AVRational -> AV.AVRational -> Z.

Let pts_us := pts_us_of AV_NOPTS_VALUE av_rescale_q.

(** The dimension check of push: no header when the sizes are the stored
    ones, a header written in full otherwise. *)
Inductive header_stage (fps : sc_frame_pipe_sink) (w : world)
    (frame : AV.AVFrame) : sc_frame_pipe_sink -> world -> Prop :=
| hs_same :
    AV.width frame = width fps -> AV.height frame = height fps ->
    header_stage fps w frame fps w
| hs_written :
    AV.width frame <> width fps \/ AV.height frame <> height fps ->
    write_ret (hd WAll (wscript w)) 12 = 12 ->
    header_stage fps w frame
      (set_size fps (AV.width frame) (AV.height frame))
      (after_write w
         (EWrite (fd fps)
                 (header_bytes (AV.width frame) (AV.height frame)) 12)).

(** The four ways through a push on a streaming sink. *)
Inductive push_step (fps : sc_frame_pipe_sink) (w : world)
    (frame : AV.AVFrame) : bool -> sc_frame_pipe_sink -> world -> Prop :=
| ps_header_failed ret :
    AV.width frame <> width fps \/ AV.height frame <> height fps ->
    ret = write_ret (hd WAll (wscript w)) 12 ->
    ret <> 12 ->
    push_step fps w frame false (set_stopped fps true)
      (after_write w
         (EWrite (fd fps)
                 (header_bytes (AV.width frame) (AV.height frame)) ret))
| ps_pts_failed fps1 w1 ret :
    header_stage fps w frame fps1 w1 ->
    ret = write_ret (hd WAll (wscript w1)) 8 ->
    ret <> 8 ->
    push_step fps w frame false (set_stopped fps1 true)
      (after_write w1
         (EWrite (fd fps) (pts_bytes (pts_us fps frame)) ret))
| ps_data_failed fps1 w1 fps2 w2 :
    header_stage fps w frame fps1 w1 ->
    write_ret (hd WAll (wscript w1)) 8 = 8 ->
    write_frame_data fps1
      (after_write w1 (EWrite (fd fps) (pts_bytes (pts_us fps frame)) 8))
      frame = Some (false, fps2, w2) ->
    push_step fps w frame false (set_stopped fps2 true) w2
| ps_pushed fps1 w1 fps2 w2 :
    header_stage fps w frame fps1 w1 ->
    write_ret (hd WAll (wscript w1)) 8 = 8 ->
    write_frame_data fps1
      (after_write w1 (EWrite (fd fps) (pts_bytes (pts_us fps frame)) 8))
      frame = Some (true, fps2, w2) ->
    push_step fps w frame true fps2 w2.

(** The calls of the push/close lifetime of an instance. *)
Inductive op : Type :=
| OpPush (frame : AV.AVFrame)
| OpClose.

(** A sequence of such calls; the results of the pushes are returned oldest
    first. *)
Fixpoint run_ops (fps : sc_frame_pipe_sink) (w : world) (ops : list op)
    : option (list bool * sc_frame_pipe_sink * world) :=
  match ops with
  | [] => Some ([], fps, w)
  | OpPush frame :: rest =>
      '(ok, fps1, w1) <-
        sc_frame_pipe_sink_push AV_NOPTS_VALUE av_rescale_q fps w frame ;;
      '(oks, fps2, w2) <- run_ops fps1 w1 rest ;;
      Some (ok :: oks, fps2, w2)
  | OpClose :: rest =>
      let '(fps1, w1) := sc_frame_pipe_sink_close fps w in
      run_ops fps1 w1 rest
  end.

(** The stream a reader receives for a sequence of frames when every call
    succeeds: a dimension packet before a frame packet whenever the sizes
    are not the last ones sent. *)
Fixpoint expected_stream (fps : sc_frame_pipe_sink) (last_w last_h : Z)
    (frames : list AV.AVFrame) : list Z :=
  match frames with
  | [] => []
  | f :: rest =>
      (if (AV.width f =? last_w) && (AV.height f =? last_h) then []
       else header_bytes (AV.width f) (AV.height f))
      ++ pts_bytes (pts_us fps f)
      ++ packed_yuv420p f
      ++ expected_stream fps (AV.width f) (AV.height f) rest
  end.

End PushSteps.

(** ** Whole lifetimes *)

(** The recorded size is the size of the scratch buffer whenever there is
    one; a NULL buffer may come with a stale size (after a failed malloc). *)
Definition buf_fits (fps : sc_frame_pipe_sink) : Prop :=
  forall b, frame_buf fps = Some b -> frame_buf_size fps = Mem.len b.

(** The descriptor a write call was made on. *)
Definition event_fd (e : event) : option Z :=
  match e with
  | EWrite d _ _ | EWritev d _ _ => Some d
  | _ => None
  end.

Definition prefix_of (a b : list Z) : Prop := exists rest, b = a ++ rest.

(** The calls of the frame sink interface, with what the operating system
    answers to the [mkfifo] and [open] of an open. *)
Inductive call : Type :=
| CallOpen (ctx_time_base : AV.AVRational) (mkfifo_ret open_ret : Z)
| CallPush (frame : AV.AVFrame)
| CallClose.

(** Push is handed frames it can read. *)
Definition readable (c : call) : Prop :=
  match c with
  | CallPush frame => wf_frame frame
  | _ => True
  end.

Section Calls.

Variable AV_NOPTS_VALUE : Z.
Variable av_rescale_q : Z -> AV.AVRational -> AV.AVRational -> Z.

(** The bytes of a push that succeeds: the dimension packet when the sizes
    are not the stored ones, then the frame packet. *)
Definition push_packet (fps : sc_frame_pipe_sink) (frame : AV.AVFrame)
    : list Z :=
  (if (AV.width frame =? width fps) && (AV.height frame =? height fps)
   then [] else header_bytes (AV.width frame) (AV.height frame))
  ++ pts_bytes (pts_us_of AV_NOPTS_VALUE av_rescale_q fps frame)
  ++ packed_yuv420p frame.

(** A sequence of calls; the results of the opens and pushes are returned
    oldest first. *)
Fixpoint run_calls (fps : sc_frame_pipe_sink) (w : world) (calls : list call)
    : option (list bool * sc_frame_pipe_sink * world) :=
  match calls with
  | [] => Some ([], fps, w)
  | CallOpen tb mk op :: rest =>
      let '(ok, fps1, w1) := sc_frame_pipe_sink_open fps w tb mk op in
      '(oks, fps2, w2) <- run_calls fps1 w1 rest ;;
      Some (ok :: oks, fps2, w2)
  | CallPush frame :: rest =>
      '(ok, fps1, w1) <-
        sc_frame_pipe_sink_push AV_NOPTS_VALUE av_rescale_q fps w frame ;;
      '(oks, fps2, w2) <- run_calls fps1 w1 rest ;;
      Some (ok :: oks, fps2, w2)
  | CallClose :: rest =>
      let '(fps1, w1) := sc_frame_pipe_sink_close fps w in
      run_calls fps1 w1 rest
  end.

End Calls.

(** ** Sample data *)

Module Sample.

(** [AV_NOPTS_VALUE] as libavutil defines it, and a rescaling that is
    exact for the time bases used below. *)
Definition NOPTS : Z := INT64_MIN.
Definition rescale (a : Z) (bq cq : AV.AVRational) : Z :=
  (a * AV.num bq * AV.den cq) / (AV.den bq * AV.num cq).

Definition tb : AV.AVRational := AV.mkRational 1 1.

Definition world0 : world := mkWorld [] [] [].

Definition fresh : sc_frame_pipe_sink :=
  snd (sc_frame_pipe_sink_init (mkSink "" 0 false 0 0 tb None 0)
                               "/tmp/frames" true).

Definition opened : sc_frame_pipe_sink * world :=
  let '(_, fps, w) := sc_frame_pipe_sink_open fresh world0 tb 0 5 in
  (fps, w).

(** A 2x2 frame without padding, and the same picture with strides 4/2/2. *)
Definition tight : AV.AVFrame :=
  AV.mkFrame 2 2 [2; 1; 1] [[1; 2; 3; 4]; [5]; [6]] 0.

Definition padded : AV.AVFrame :=
  AV.mkFrame 2 2 [4; 2; 2]
    [[1; 2; 99; 99; 3; 4; 99; 99]; [5; 99]; [6; 99]] 0.

(** A 4x2 frame, padded. *)
Definition wide : AV.AVFrame :=
  AV.mkFrame 4 2 [6; 3; 3]
    [[1; 2; 3; 4; 0; 0; 5; 6; 7; 8; 0; 0]; [9; 10; 0]; [11; 12; 0]] 40.

Definition no_pts : AV.AVFrame :=
  AV.mkFrame 2 2 [2; 1; 1] [[1; 2; 3; 4]; [5]; [6]] NOPTS.

Definition stopped_sink : sc_frame_pipe_sink :=
  set_stopped (fst opened) true.

(** The world after open, with a reader that has gone away: the next write
    fails. *)
Definition broken_pipe : world :=
  mkWorld (trace (snd opened)) [WFail] [].

End Sample.

(** ** The timestamp and the dimension packet *)

Section Encoding.

Lemma land_255_mod x : Z.land x 255 = x mod 256.
Proof. change 255 with (Z.ones 8). now rewrite Z.land_ones by lia. Qed.

Lemma land_255_byte x : is_byte (Z.land x 255).
Proof. rewrite land_255_mod. unfold is_byte. apply Z.mod_pos_bound. lia. Qed.

Lemma pts_bytes_range v : Forall is_byte (pts_bytes v).
Proof. unfold pts_bytes. repeat constructor; apply land_255_byte. Qed.

Lemma header_bytes_range wd ht : Forall is_byte (header_bytes wd ht).
Proof.
  unfold header_bytes, magic.
  repeat constructor; try apply land_255_byte; vm_compute; intuition congruence.
Qed.

Lemma decode_pts_bytes v : decode_le (pts_bytes v) = v mod 2 ^ 64.
Proof.
  unfold pts_bytes, decode_le.
  rewrite !land_255_mod, !Z.shiftr_div_pow2 by lia.
  Z.div_mod_to_equations; lia.
Qed.

Lemma decode_u32_bytes x :
  decode_le [ Z.land x 255; Z.land (Z.shiftr x 8) 255;
              Z.land (Z.shiftr x 16) 255; Z.land (Z.shiftr x 24) 255 ]
  = x mod 2 ^ 32.
Proof.
  unfold decode_le.
  rewrite !land_255_mod, !Z.shiftr_div_pow2 by lia.
  Z.div_mod_to_equations; lia.
Qed.

Lemma to_int64_id v : INT64_MIN <= v <= INT64_MAX -> to_int64 v = v.
Proof.
  unfold INT64_MIN, INT64_MAX, to_int64. intros Hv.
  rewrite Z.mod_small by lia. lia.
Qed.

Lemma to_int64_mod v : to_int64 (v mod 2 ^ 64) = to_int64 v.
Proof.
  unfold to_int64. rewrite Z.add_mod_idemp_l by lia. reflexivity.
Qed.

Lemma write_pts_trace fps w v :
  exists ret,
    appended w (snd (write_pts fps w v)) [EWrite (fd fps) (pts_bytes v) ret].
Proof.
  unfold write_pts, sys_write, next_wres, appended.
  destruct (wscript w) as [|r rs]; cbn [fst snd];
    match goal with
    | |- context [if ?c then _ else _] => destruct c
    end; cbn; eauto.
Qed.

Lemma write_header_trace fps w wd ht :
  exists ret,
    appended w (snd (write_header fps w wd ht))
             [EWrite (fd fps) (header_bytes wd ht) ret].
Proof.
  unfold write_header, sys_write, next_wres, appended.
  destruct (wscript w) as [|r rs]; cbn [fst snd];
    match goal with
    | |- context [if ?c then _ else _] => destruct c
    end; cbn; eauto.
Qed.

End Encoding.

(** C6: for even width and height of at least 2, the dimension packet is the
    magic "YUV4", the width and the height as little-endian 32-bit values,
    12 bytes in all, and decoding it gives back the pair (width, height). *)
Theorem header_roundtrip (wd ht : Z) :
  2 <= wd <= INT_MAX -> 2 <= ht <= INT_MAX ->
  wd mod 2 = 0 -> ht mod 2 = 0 ->
  length (header_bytes wd ht) = 12%nat /\
  Forall is_byte (header_bytes wd ht) /\
  firstn 4 (header_bytes wd ht) = magic /\
  decode_le (firstn 4 (skipn 4 (header_bytes wd ht))) = wd /\
  decode_le (firstn 4 (skipn 8 (header_bytes wd ht))) = ht /\
  decode_header (header_bytes wd ht) = Some (wd, ht).
Proof.
  unfold INT_MAX. intros Hw Hh _ _.
  assert (Ew : decode_le (firstn 4 (skipn 4 (header_bytes wd ht))) = wd).
  { cbn [header_bytes magic app skipn firstn].
    rewrite decode_u32_bytes. apply Z.mod_small. lia. }
  assert (Eh : decode_le (skipn 8 (header_bytes wd ht)) = ht).
  { cbn [header_bytes magic app skipn firstn].
    rewrite decode_u32_bytes. apply Z.mod_small. lia. }
  split; [reflexivity|]. split; [apply header_bytes_range|].
  repeat split; try reflexivity; try assumption.
  unfold decode_header.
  destruct (list_eq_dec Z.eq_dec (firstn 4 (header_bytes wd ht)) magic)
    as [_|Hne]; [|now elim Hne].
  change (length (header_bytes wd ht)) with 12%nat. cbn [Nat.eqb].
  now rewrite Ew, Eh.
Qed.

Lemma header_roundtrip_witness :
  (2 <= 640 <= INT_MAX /\ 2 <= 480 <= INT_MAX) /\
  decode_header (header_bytes 640 480) = Some (640, 480).
Proof.
  split; [unfold INT_MAX; lia|].
  apply (header_roundtrip 640 480); unfold INT_MAX; solve [lia | reflexivity].
Defined.

(** C4 (fails on the code): the timestamp 878073177 microseconds, less than
    fifteen minutes and far below a millennium, is encoded by [pts_bytes]
    with the four magic bytes "YUV4" first; the reader's magic test takes
    the frame packet for a dimension packet. *)
Theorem pts_low_bytes_collide_with_magic :
  0 <= 878073177 < 15 * 60 * 1000000 /\
  878073177 < millennium_us /\
  pts_bytes 878073177 = magic ++ [0; 0; 0; 0] /\
  firstn 4 (pts_bytes 878073177) = magic /\
  decode_i64_le (pts_bytes 878073177) = 878073177.
Proof. repeat split; vm_compute; congruence. Qed.

(** ** Memory blocks and the copy loops *)

Section Memory.

Lemma len_app (a b : list Z) : Mem.len (a ++ b) = Mem.len a + Mem.len b.
Proof. unfold Mem.len. rewrite length_app. lia. Qed.

Lemma len_nonneg (b : list Z) : 0 <= Mem.len b.
Proof. unfold Mem.len. lia. Qed.

Lemma mem_read_ok b off n :
  0 <= off -> 0 <= n -> off + n <= Mem.len b ->
  Mem.read b off n = Some (firstn (Z.to_nat n) (skipn (Z.to_nat off) b)).
Proof.
  intros Ho Hn Hb. unfold Mem.read.
  destruct (0 <=? off) eqn:E1; [|lia].
  destruct (0 <=? n) eqn:E2; [|lia].
  destruct (off + n <=? Mem.len b) eqn:E3; [|lia].
  reflexivity.
Qed.

Lemma mem_read_prefix (a b : list Z) :
  Mem.read (a ++ b) 0 (Mem.len a) = Some a.
Proof.
  rewrite mem_read_ok; try lia.
  - unfold Mem.len. rewrite Nat2Z.id. cbn [Z.to_nat skipn].
    rewrite firstn_app, firstn_all, Nat.sub_diag. cbn [firstn].
    now rewrite app_nil_r.
  - apply len_nonneg.
  - rewrite len_app. pose proof (len_nonneg b). lia.
Qed.

Lemma mem_write_app pre old post row :
  length old = length row ->
  Mem.write (pre ++ old ++ post) (Mem.len pre) row
  = Some (pre ++ row ++ post).
Proof.
  intros Hl. unfold Mem.write.
  pose proof (len_nonneg pre) as Hp.
  destruct (0 <=? Mem.len pre) eqn:E1; [|lia].
  rewrite !len_app.
  assert (El : Mem.len old = Mem.len row) by (unfold Mem.len; lia).
  pose proof (len_nonneg post).
  destruct (Mem.len pre + Mem.len row <=? Mem.len pre + (Mem.len old + Mem.len post))
    eqn:E2; [|lia].
  cbn [andb]. f_equal.
  unfold Mem.len. rewrite Nat2Z.id, <- Nat2Z.inj_add, Nat2Z.id.
  rewrite firstn_app, firstn_all, Nat.sub_diag. cbn [firstn].
  rewrite app_nil_r. f_equal. f_equal.
  rewrite skipn_app, skipn_all2 by lia. cbn [app].
  replace (length pre + length row - length pre)%nat with (length old) by lia.
  rewrite skipn_app, skipn_all, Nat.sub_diag. reflexivity.
Qed.

Lemma firstn_plus (a c : nat) (l : list Z) :
  firstn (a + c) l = firstn a l ++ firstn c (skipn a l).
Proof.
  revert l. induction a as [|a IH]; intros [|x l]; cbn; try reflexivity.
  - now rewrite firstn_nil.
  - now rewrite IH.
Qed.

Lemma skipn_plus (a c : nat) (l : list Z) :
  skipn (a + c) l = skipn c (skipn a l).
Proof.
  revert l. induction a as [|a IH]; intros [|x l]; cbn; try reflexivity.
  - now rewrite skipn_nil.
  - now rewrite IH.
Qed.

Lemma plane_row_length b ls wd y :
  0 <= wd -> 0 <= Z.of_nat y * ls ->
  Z.of_nat y * ls + wd <= Mem.len b ->
  length (plane_row b ls wd y) = Z.to_nat wd.
Proof.
  unfold plane_row, Mem.len. intros Hw Hy Hb.
  rewrite length_firstn, length_skipn. lia.
Qed.

Lemma plane_rows_length b ls wd n :
  0 <= wd -> 0 <= ls ->
  ((0 < n)%nat -> (Z.of_nat n - 1) * ls + wd <= Mem.len b) ->
  length (concat (plane_rows b ls wd n)) = (n * Z.to_nat wd)%nat.
Proof.
  intros Hw Hl. unfold plane_rows.
  induction n as [|n IH]; intros Hb; [reflexivity|].
  rewrite seq_S, map_app, concat_app, length_app, IH.
  - cbn [map concat plus]. rewrite app_nil_r, plane_row_length; nia.
  - intros Hn. specialize (Hb ltac:(lia)). nia.
Qed.

(** Without padding the rows of a plane are its first bytes. *)
Lemma plane_rows_unpadded b wd n :
  0 <= wd -> Z.of_nat n * wd <= Mem.len b ->
  concat (plane_rows b wd wd n) = firstn (Z.to_nat (Z.of_nat n * wd)) b.
Proof.
  intros Hw. unfold plane_rows.
  induction n as [|n IH]; intros Hb; [reflexivity|].
  rewrite seq_S, map_app, concat_app, IH by nia.
  cbn [map concat plus]. rewrite app_nil_r. unfold plane_row.
  replace (Z.to_nat (Z.of_nat (S n) * wd))
    with (Z.to_nat (Z.of_nat n * wd) + Z.to_nat wd)%nat by nia.
  now rewrite firstn_plus.
Qed.

Lemma copy_rows_spec n :
  forall y src ls wd pre mid post,
    0 <= wd < 2 ^ 64 -> 0 <= ls ->
    ((0 < n)%nat ->
     (Z.of_nat (y + n) - 1) * ls <= INT_MAX /\
     (Z.of_nat (y + n) - 1) * ls + wd <= Mem.len src) ->
    length mid = (n * Z.to_nat wd)%nat ->
    copy_rows n (Z.of_nat y) src ls wd (pre ++ mid ++ post) (Mem.len pre)
    = Some (pre ++ concat (map (plane_row src ls wd) (seq y n)) ++ post,
            Mem.len pre + Z.of_nat n * wd).
Proof.
  induction n as [|n IH]; intros y src ls wd pre mid post Hw Hl Hb Hm.
  - destruct mid; [|discriminate]. cbn. do 2 f_equal. lia.
  - destruct (Hb ltac:(lia)) as [Hi Hs].
    cbn [copy_rows]. unfold int_mul, is_int, INT_MIN.
    destruct (- 2 ^ 31 <=? Z.of_nat y * ls) eqn:E1; [|nia].
    destruct (Z.of_nat y * ls <=? INT_MAX) eqn:E2; [|nia].
    cbn [andb]. unfold to_size_t. rewrite (Z.mod_small wd) by lia.
    rewrite mem_read_ok by nia.
    fold (plane_row src ls wd y).
    assert (Hr : length (plane_row src ls wd y) = Z.to_nat wd)
      by (apply plane_row_length; nia).
    rewrite <- (firstn_skipn (Z.to_nat wd) mid), <- app_assoc.
    rewrite mem_write_app
      by (rewrite length_firstn, Hr; lia).
    replace (Mem.len pre + wd)
      with (Mem.len (pre ++ plane_row src ls wd y))
      by (rewrite len_app; unfold Mem.len at 2; rewrite Hr; lia).
    replace (Z.of_nat y + 1) with (Z.of_nat (S y)) by lia.
    rewrite (app_assoc pre (plane_row src ls wd y)).
    rewrite IH; try assumption.
    + cbn [seq map concat]. rewrite <- !app_assoc. do 2 f_equal.
      rewrite len_app. unfold Mem.len at 2. rewrite Hr. lia.
    + intros Hn. replace (S y + n)%nat with (y + S n)%nat by lia. now split.
    + rewrite length_skipn. lia.
Qed.

End Memory.

(** ** System calls *)

Section Syscalls.

Lemma sys_write_eq w fd buf :
  sys_write w fd buf =
  (write_ret (hd WAll (wscript w)) (Mem.len buf),
   after_write w
     (EWrite fd buf (write_ret (hd WAll (wscript w)) (Mem.len buf)))).
Proof. destruct w as [t [|r rs] m]; reflexivity. Qed.

Lemma sys_writev_eq w fd iov :
  sys_writev w fd iov =
  (write_ret (hd WAll (wscript w)) (Mem.len (concat iov)),
   after_write w
     (EWritev fd iov
        (write_ret (hd WAll (wscript w)) (Mem.len (concat iov))))).
Proof. destruct w as [t [|r rs] m]; reflexivity. Qed.

Lemma sys_malloc_eq w n :
  sys_malloc w n =
  (if hd true (mscript w) then Some (repeat 0 (Z.to_nat n)) else None,
   mkWorld (trace w) (wscript w) (tl (mscript w))).
Proof. destruct w as [t s [|r rs]]; reflexivity. Qed.

Lemma write_ret_range r n : 0 <= n -> -1 <= write_ret r n <= n.
Proof. destruct r; cbn; lia. Qed.

(** The test [w != sizeof(buf)] of write_header and write_pts. *)
Lemma size_t_test r n :
  0 <= n < 2 ^ 63 ->
  (to_size_t (write_ret r n) =? n) = (write_ret r n =? n).
Proof.
  intros Hn. pose proof (write_ret_range r n ltac:(lia)) as Hr.
  unfold to_size_t.
  destruct (Z.eq_dec (write_ret r n) (-1)) as [E|E].
  - rewrite E. change (-1 mod 2 ^ 64) with (2 ^ 64 - 1).
    destruct (Z.eqb_spec (2 ^ 64 - 1) n), (Z.eqb_spec (-1) n); lia.
  - now rewrite Z.mod_small by lia.
Qed.

Lemma pipe_bytes_app t1 t2 :
  pipe_bytes (t1 ++ t2) = pipe_bytes t1 ++ pipe_bytes t2.
Proof. apply flat_map_app. Qed.

Lemma delivered_full e :
  returned e = Mem.len (requested e) -> delivered e = requested e.
Proof.
  destruct e; cbn [returned requested delivered]; intros E;
    try reflexivity;
    rewrite E; unfold Mem.len; rewrite Nat2Z.id; apply firstn_all.
Qed.

End Syscalls.

(** ** Sizes of a frame *)

Section Sizes.

Variable f : AV.AVFrame.
Hypothesis Hwf : dims_ok f.

Let W := AV.width f.
Let H := AV.height f.

Lemma uv_width_wf : uv_width_of f = W / 2.
Proof.
  destruct Hwf. unfold uv_width_of. apply Z.quot_div_nonneg; lia.
Qed.

Lemma uv_height_wf : uv_height_of f = H / 2.
Proof.
  destruct Hwf. unfold uv_height_of. apply Z.quot_div_nonneg; lia.
Qed.

Lemma halves_wf : 2 * (W / 2) = W /\ 2 * (H / 2) = H.
Proof.
  destruct Hwf. subst W H. split; Z.div_mod_to_equations; lia.
Qed.

Lemma y_size_wf : y_size_of f = W * H.
Proof.
  destruct Hwf. unfold y_size_of, to_size_t, INT_MAX in *. subst W H.
  rewrite (Z.mod_small (AV.width f)), (Z.mod_small (AV.height f)) by lia.
  apply Z.mod_small. nia.
Qed.

Lemma uv_size_wf : uv_size_of f = (W / 2) * (H / 2).
Proof.
  pose proof halves_wf as [Ew Eh].
  unfold uv_size_of. rewrite uv_width_wf, uv_height_wf.
  destruct Hwf. unfold to_size_t, INT_MAX in *. subst W H.
  rewrite (Z.mod_small (AV.width f / 2)), (Z.mod_small (AV.height f / 2))
    by lia.
  apply Z.mod_small. nia.
Qed.

Lemma frame_size_wf : frame_size_of f = W * H + (W / 2) * (H / 2) * 2.
Proof.
  pose proof halves_wf as [Ew Eh].
  unfold frame_size_of. rewrite y_size_wf, uv_size_wf.
  destruct Hwf. unfold to_size_t, INT_MAX in *. subst W H.
  rewrite (Z.mod_small (_ * 2)) by nia.
  apply Z.mod_small. nia.
Qed.

(** [width * height * 1.5], without fractions. *)
Lemma frame_size_three_halves : 2 * frame_size_of f = 3 * (W * H).
Proof.
  pose proof halves_wf as [Ew Eh]. rewrite frame_size_wf. nia.
Qed.

Lemma frame_size_ssize : to_ssize_t (frame_size_of f) = frame_size_of f.
Proof.
  pose proof frame_size_three_halves as E.
  destruct Hwf. unfold to_ssize_t, INT_MAX in *. subst W H.
  rewrite Z.mod_small by nia. lia.
Qed.

Lemma can_write_direct_unpadded : can_write_direct f = true <-> unpadded f.
Proof.
  unfold can_write_direct, unpadded. rewrite uv_width_wf. subst W.
  rewrite !andb_true_iff, !Z.eqb_eq. tauto.
Qed.

End Sizes.

Section RowSizes.

Variable f : AV.AVFrame.
Hypothesis Hwf : wf_frame f.

Let W := AV.width f.
Let H := AV.height f.

Lemma y_rows_length : Mem.len (concat (y_rows f)) = W * H.
Proof.
  destruct Hwf as [[? ? ? ?] (Hs & Hb) _ _ _]. unfold Mem.len, y_rows.
  subst W H.
  rewrite plane_rows_length; [nia | lia | lia |].
  intros _. rewrite Z2Nat.id by lia. exact Hb.
Qed.

Lemma u_rows_length : Mem.len (concat (u_rows f)) = (W / 2) * (H / 2).
Proof.
  pose proof (halves_wf f (wf_dims f Hwf)) as [Ew Eh].
  destruct Hwf as [[? ? ? ?] _ (Hs & Hb) _ _]. unfold Mem.len, u_rows.
  subst W H.
  rewrite plane_rows_length; [nia | lia | lia |].
  intros _. rewrite Z2Nat.id by lia. exact Hb.
Qed.

Lemma v_rows_length : Mem.len (concat (v_rows f)) = (W / 2) * (H / 2).
Proof.
  pose proof (halves_wf f (wf_dims f Hwf)) as [Ew Eh].
  destruct Hwf as [[? ? ? ?] _ _ (Hs & Hb) _]. unfold Mem.len, v_rows.
  subst W H.
  rewrite plane_rows_length; [nia | lia | lia |].
  intros _. rewrite Z2Nat.id by lia. exact Hb.
Qed.

Lemma packed_length : Mem.len (packed_yuv420p f) = frame_size_of f.
Proof.
  unfold packed_yuv420p.
  rewrite !len_app, y_rows_length, u_rows_length, v_rows_length,
    (frame_size_wf f (wf_dims f Hwf)).
  subst W H. lia.
Qed.

End RowSizes.

(** ** The two payload paths *)

Section Payload.

Variable f : AV.AVFrame.
Hypothesis Hwf : wf_frame f.

Let fs := frame_size_of f.

Lemma write_direct_spec fps w :
  unpadded f ->
  write_direct fps w f =
  Some (write_ret (hd WAll (wscript w)) fs =? fs, fps,
        after_write w
          (EWritev (fd fps)
             [concat (y_rows f); concat (u_rows f); concat (v_rows f)]
             (write_ret (hd WAll (wscript w)) fs))).
Proof.
  intros (L0 & L1 & L2).
  pose proof (halves_wf f (wf_dims f Hwf)) as [Ew Eh].
  pose proof (packed_length f Hwf) as Hlen.
  pose proof (frame_size_ssize f (wf_dims f Hwf)) as Hss.
  pose proof (y_rows_length f Hwf) as Hy.
  pose proof (u_rows_length f Hwf) as Hu.
  pose proof (v_rows_length f Hwf) as Hv.
  assert (Ey : Mem.read (AV.data_at f 0) 0 (y_size_of f)
               = Some (concat (y_rows f))).
  { rewrite (y_size_wf f (wf_dims f Hwf)).
    destruct Hwf as [[? ? ? ?] (_ & Hb) _ _ _]. rewrite L0 in Hb.
    rewrite mem_read_ok by nia. cbn [Z.to_nat skipn]. f_equal.
    unfold y_rows. rewrite L0, plane_rows_unpadded by nia.
    f_equal. nia. }
  assert (Eu : Mem.read (AV.data_at f 1) 0 (uv_size_of f)
               = Some (concat (u_rows f))).
  { rewrite (uv_size_wf f (wf_dims f Hwf)).
    destruct Hwf as [[? ? ? ?] _ (_ & Hb) _ _]. rewrite L1 in Hb.
    rewrite mem_read_ok by nia. cbn [Z.to_nat skipn]. f_equal.
    unfold u_rows. rewrite L1, plane_rows_unpadded by nia.
    f_equal. nia. }
  assert (Ev : Mem.read (AV.data_at f 2) 0 (uv_size_of f)
               = Some (concat (v_rows f))).
  { rewrite (uv_size_wf f (wf_dims f Hwf)).
    destruct Hwf as [[? ? ? ?] _ _ (_ & Hb) _]. rewrite L2 in Hb.
    rewrite mem_read_ok by nia. cbn [Z.to_nat skipn]. f_equal.
    unfold v_rows. rewrite L2, plane_rows_unpadded by nia.
    f_equal. nia. }
  unfold write_direct. rewrite Ey, Eu, Ev, sys_writev_eq, Hss.
  replace (Mem.len (concat [concat (y_rows f); concat (u_rows f);
                            concat (v_rows f)])) with fs.
  - subst fs.
    now destruct (write_ret (hd WAll (wscript w)) (frame_size_of f)
                  =? frame_size_of f).
  - subst fs. rewrite <- Hlen. unfold packed_yuv420p.
    cbn [concat]. now rewrite app_nil_r.
Qed.

Lemma copy_plane_spec src ls wd rows pre mid post dst :
  0 <= wd < 2 ^ 64 -> 1 <= rows -> plane_ok src ls wd rows ->
  (rows - 1) * ls <= INT_MAX ->
  length mid = Z.to_nat (rows * wd) ->
  dst = Mem.len pre ->
  copy_rows (Z.to_nat rows) 0 src ls wd (pre ++ mid ++ post) dst
  = Some ((pre ++ concat (plane_rows src ls wd (Z.to_nat rows))) ++ post,
          Mem.len (pre ++ concat (plane_rows src ls wd (Z.to_nat rows)))).
Proof.
  intros Hw Hr (Hs & Hb) Hi Hm ->.
  pose proof (copy_rows_spec (Z.to_nat rows) 0 src ls wd pre mid post)
    as E.
  cbn [Z.of_nat plus] in E. rewrite Z2Nat.id in E by lia.
  rewrite E; [| lia | lia | intros _; now split | lia].
  rewrite <- app_assoc. do 2 f_equal.
  rewrite len_app. f_equal. unfold Mem.len, plane_rows.
  fold (plane_rows src ls wd (Z.to_nat rows)).
  rewrite plane_rows_length;
    [nia | lia | lia | intros _; rewrite Z2Nat.id by lia; exact Hb].
Qed.

Lemma copy_and_write_spec fps w b :
  row_offsets_ok f ->
  frame_buf fps = Some b -> fs <= Mem.len b ->
  copy_and_write fps w f =
  Some (write_ret (hd WAll (wscript w)) fs =? fs,
        set_frame_buf fps
          (Some (packed_yuv420p f ++ skipn (Z.to_nat fs) b)),
        after_write w
          (EWrite (fd fps) (packed_yuv420p f)
                  (write_ret (hd WAll (wscript w)) fs))).
Proof.
  intros (Oy & Ou & Ov) Hb Hl.
  pose proof (halves_wf f (wf_dims f Hwf)) as [Ew Eh].
  pose proof (packed_length f Hwf) as Hlen.
  pose proof (frame_size_ssize f (wf_dims f Hwf)) as Hss.
  pose proof (frame_size_wf f (wf_dims f Hwf)) as Hfs.
  pose proof (uv_width_wf f (wf_dims f Hwf)) as Huw.
  pose proof (uv_height_wf f (wf_dims f Hwf)) as Huh.
  destruct Hwf as [[Hw Hh Hwe Hhe] Py Pu Pv _].
  set (n1 := Z.to_nat (AV.height f * AV.width f)).
  set (n2 := Z.to_nat (AV.height f / 2 * (AV.width f / 2))).
  assert (Hn : Z.to_nat fs = (n1 + (n2 + n2))%nat) by (subst fs n1 n2; nia).
  assert (Hb3 : b = [] ++ firstn n1 b
                    ++ firstn n2 (skipn n1 b)
                    ++ firstn n2 (skipn n2 (skipn n1 b))
                    ++ skipn (Z.to_nat fs) b).
  { cbn [app]. rewrite Hn, !skipn_plus. now rewrite !firstn_skipn. }
  unfold Mem.len in Hl.
  unfold copy_and_write. rewrite Hb, Huw, Huh.
  rewrite Hb3 at 1.
  rewrite (copy_plane_spec _ _ _ _ [] (firstn n1 b));
    [| unfold INT_MAX in *; lia | lia | assumption | assumption
     | rewrite length_firstn; lia | reflexivity].
  cbn [app]. fold (y_rows f).
  rewrite (copy_plane_spec _ _ _ _ (concat (y_rows f)) (firstn n2 _));
    [| unfold INT_MAX in *; lia | lia | assumption | assumption
     | rewrite length_firstn, length_skipn; lia | reflexivity].
  fold (u_rows f).
  rewrite (copy_plane_spec _ _ _ _ (concat (y_rows f) ++ concat (u_rows f))
             (firstn n2 _));
    [| unfold INT_MAX in *; lia | lia | assumption | assumption
     | rewrite length_firstn, !length_skipn; lia | reflexivity].
  fold (v_rows f).
  rewrite <- !app_assoc, !app_assoc, <- (app_assoc (concat (y_rows f))).
  fold (packed_yuv420p f). subst fs. rewrite <- Hlen.
  rewrite mem_read_prefix, sys_write_eq, !Hlen, Hss.
  cbn [fd set_frame_buf].
  now destruct (write_ret (hd WAll (wscript w)) (frame_size_of f)
                =? frame_size_of f).
Qed.

End Payload.

(** ** write_frame_data as a whole *)

Section WriteFrameData.

Lemma mem_write_len b off bs b' :
  Mem.write b off bs = Some b' -> Mem.len b' = Mem.len b.
Proof.
  unfold Mem.write.
  destruct (0 <=? off) eqn:E1; [|discriminate].
  destruct (off + Mem.len bs <=? Mem.len b) eqn:E2; [|discriminate].
  cbn [andb]. intros [= <-].
  pose proof (len_nonneg bs).
  rewrite !len_app. unfold Mem.len in *.
  rewrite length_firstn, length_skipn. lia.
Qed.

Lemma copy_rows_len n :
  forall y src ls wd buf dst buf' dst',
    copy_rows n y src ls wd buf dst = Some (buf', dst') ->
    Mem.len buf' = Mem.len buf.
Proof.
  induction n as [|n IH]; intros y src ls wd buf dst buf' dst'; cbn.
  - now intros [= <- _].
  - destruct (int_mul y ls) as [off|]; [|discriminate].
    destruct (Mem.read src off (to_size_t wd)) as [row|]; [|discriminate].
    destruct (Mem.write buf dst row) as [b1|] eqn:Ew; [|discriminate].
    intros E. apply IH in E. apply mem_write_len in Ew. lia.
Qed.

Lemma after_write_trace w e : trace (after_write w e) = trace w ++ [e].
Proof. reflexivity. Qed.

(** What one copy-loop-and-write does to the sink, whatever the frame. *)
Lemma copy_and_write_inv fps w f ok fps' w' :
  copy_and_write fps w f = Some (ok, fps', w') ->
  same_control fps fps' /\ frame_buf_size fps' = frame_buf_size fps /\
  (exists b b', frame_buf fps = Some b /\ frame_buf fps' = Some b' /\
                Mem.len b' = Mem.len b) /\
  (exists e, w' = after_write w e /\ is_write e = true /\
             fd fps = match e with EWrite d _ _ => d | _ => -1 end).
Proof.
  unfold copy_and_write.
  destruct (frame_buf fps) as [b0|] eqn:Eb; [|discriminate].
  destruct (copy_rows _ _ _ _ _ b0 0) as [[b1 d1]|] eqn:E1; [|discriminate].
  destruct (copy_rows _ _ _ _ _ b1 d1) as [[b2 d2]|] eqn:E2; [|discriminate].
  destruct (copy_rows _ _ _ _ _ b2 d2) as [[b3 d3]|] eqn:E3; [|discriminate].
  destruct (Mem.read b3 0 _) as [out|]; [|discriminate].
  rewrite sys_write_eq.
  apply copy_rows_len in E1, E2, E3.
  match goal with
  | |- context [if ?c then _ else _] => destruct c
  end; intros [= <- <- <-];
    (split; [repeat split|]); (split; [reflexivity|]);
    (split; [exists b0, b3; repeat split; try assumption; lia|]);
    eexists; repeat split.
Qed.

(** The three ways through write_frame_data. *)
Lemma write_frame_data_inv fps w f ok fps' w' :
  buf_ok fps ->
  write_frame_data fps w f = Some (ok, fps', w') ->
  same_control fps fps' /\
  frame_buf_size fps <= frame_buf_size fps' /\
  ((can_write_direct f = true /\ fps' = fps /\
    exists e, w' = after_write w e /\ is_write e = true)
   \/
   (can_write_direct f = false /\ ok = false /\
    trace w' = trace w /\ wscript w' = wscript w /\
    frame_buf fps' = None /\ frame_buf_size fps' = frame_buf_size fps)
   \/
   (can_write_direct f = false /\
    (exists b', frame_buf fps' = Some b' /\
                frame_buf_size fps' = Mem.len b' /\
                frame_size_of f <= Mem.len b') /\
    exists w0 e, w' = after_write w0 e /\ is_write e = true /\
                 trace w0 = trace w /\ wscript w0 = wscript w)).
Proof.
  intros Hok. unfold write_frame_data.
  destruct (can_write_direct f) eqn:Ed.
  - unfold write_direct.
    destruct (Mem.read _ 0 (y_size_of f)) as [i0|]; [|discriminate].
    destruct (Mem.read _ 0 (uv_size_of f)) as [i1|]; [|discriminate].
    destruct (Mem.read _ 0 (uv_size_of f)) as [i2|]; [|discriminate].
    rewrite sys_writev_eq.
    match goal with
    | |- context [if ?c then _ else _] => destruct c
    end; intros [= <- <- <-];
      (split; [repeat split|]); (split; [lia|]); left;
      repeat split; eexists; repeat split.
  - unfold write_copy.
    assert (Hfs : 0 <= frame_size_of f)
      by (unfold frame_size_of, to_size_t; apply Z.mod_pos_bound; lia).
    unfold buf_ok in Hok.
    destruct (match frame_buf fps with
              | Some _ => frame_buf_size fps <? frame_size_of f
              | None => true
              end) eqn:Er.
    + rewrite sys_malloc_eq.
      assert (Hgrow : frame_buf_size fps <= frame_size_of f)
        by (destruct (frame_buf fps); lia).
      destruct (hd true (mscript w)).
      * intros E. apply copy_and_write_inv in E.
        destruct E as (Hc & Hsz & (b & b' & Hb & Hb' & Hl) & e & -> & He & _).
        cbn in Hsz, Hb. injection Hb as <-.
        assert (Hrep : Mem.len (repeat 0 (Z.to_nat (frame_size_of f)))
                       = frame_size_of f)
          by (unfold Mem.len; rewrite repeat_length; lia).
        split; [exact Hc|]. split; [lia|]. right. right.
        split; [reflexivity|]. split.
        -- exists b'. repeat split; [assumption | lia | lia].
        -- eexists _, e. repeat split. assumption.
      * intros [= <- <- <-]. split; [repeat split|]. split; [cbn; lia|].
        right. left. repeat split.
    + destruct (frame_buf fps) as [b|] eqn:Eb; [|discriminate].
      intros E. apply copy_and_write_inv in E.
      destruct E as (Hc & Hsz & (b0 & b' & Hb & Hb' & Hl) & e & -> & He & _).
      rewrite Eb in Hb. injection Hb as <-.
      split; [exact Hc|]. split; [lia|]. right. right.
      split; [reflexivity|]. split.
      * exists b'. repeat split; [assumption | lia | lia].
      * exists w, e. repeat split. assumption.
Qed.

(** On a well-formed frame write_frame_data returns, and what it hands to
    the pipe is the packed payload. *)
Lemma write_frame_data_wf fps w f :
  wf_frame f -> buf_ok fps ->
  exists ok fps' w',
    write_frame_data fps w f = Some (ok, fps', w') /\
    ((ok = false /\ trace w' = trace w /\ can_write_direct f = false /\
      hd true (mscript w) = false)
     \/
     (exists e,
        trace w' = trace w ++ [e] /\ is_write e = true /\
        requested e = packed_yuv420p f /\
        returned e = write_ret (hd WAll (wscript w)) (frame_size_of f) /\
        ok = (returned e =? frame_size_of f) /\
        wscript w' = tl (wscript w))).
Proof.
  intros Hwf Hok. unfold write_frame_data.
  destruct (can_write_direct f) eqn:Ed.
  - assert (Hun : unpadded f)
      by now apply (can_write_direct_unpadded f (wf_dims f Hwf)).
    rewrite (write_direct_spec f Hwf fps w Hun).
    eexists _, _, _. split; [reflexivity|]. right.
    eexists. repeat split.
    cbn [requested concat]. unfold packed_yuv420p. now rewrite app_nil_r.
  - unfold write_copy.
    assert (Hoff : row_offsets_ok f).
    { destruct (wf_offsets f Hwf) as [Hun|Hoff]; [|exact Hoff].
      apply (can_write_direct_unpadded f (wf_dims f Hwf)) in Hun.
      congruence. }
    assert (Hfs : 0 <= frame_size_of f)
      by (unfold frame_size_of, to_size_t; apply Z.mod_pos_bound; lia).
    unfold buf_ok in Hok.
    destruct (match frame_buf fps with
              | Some _ => frame_buf_size fps <? frame_size_of f
              | None => true
              end) eqn:Er.
    + rewrite sys_malloc_eq.
      destruct (hd true (mscript w)) eqn:Em.
      * erewrite (copy_and_write_spec f Hwf);
          [| exact Hoff | reflexivity
           | unfold Mem.len; rewrite repeat_length; lia].
        eexists _, _, _. split; [reflexivity|]. right.
        eexists. repeat split.
      * eexists _, _, _. split; [reflexivity|]. left. repeat split.
    + destruct (frame_buf fps) as [b|] eqn:Eb; [|discriminate].
      erewrite (copy_and_write_spec f Hwf);
        [| exact Hoff | eassumption | lia].
      eexists _, _, _. split; [reflexivity|]. right.
      eexists. repeat split.
Qed.

End WriteFrameData.

(** ** What a successful write_frame_data tells about the frame *)

Section Success.

Lemma mem_read_inv b off n r :
  Mem.read b off n = Some r ->
  0 <= off /\ 0 <= n /\ off + n <= Mem.len b /\ Mem.len r = n.
Proof.
  unfold Mem.read.
  destruct (Z.leb_spec 0 off); [|discriminate].
  destruct (Z.leb_spec 0 n); [|discriminate].
  destruct (Z.leb_spec (off + n) (Mem.len b)); [|discriminate].
  cbn [andb]. intros [= <-]. repeat split; try assumption.
  unfold Mem.len in *. rewrite length_firstn, length_skipn. lia.
Qed.

Lemma mem_write_inv b off bs b' :
  Mem.write b off bs = Some b' ->
  0 <= off /\ off + Mem.len bs <= Mem.len b /\ Mem.len b' = Mem.len b.
Proof.
  intros E. pose proof (mem_write_len _ _ _ _ E) as Hl.
  unfold Mem.write in E.
  destruct (Z.leb_spec 0 off); [|discriminate].
  destruct (Z.leb_spec (off + Mem.len bs) (Mem.len b)); [|discriminate].
  repeat split; assumption.
Qed.

(** A copy loop that ran to its end stayed inside the plane and inside the
    scratch buffer, and its row offsets were [int]s. *)
Lemma copy_rows_success n :
  forall y src ls wd buf dst buf' dst',
    0 <= wd < 2 ^ 64 -> 0 <= ls ->
    copy_rows n (Z.of_nat y) src ls wd buf dst = Some (buf', dst') ->
    dst' = dst + Z.of_nat n * wd /\ Mem.len buf' = Mem.len buf /\
    ((0 < n)%nat ->
     (Z.of_nat (y + n) - 1) * ls <= INT_MAX /\
     (Z.of_nat (y + n) - 1) * ls + wd <= Mem.len src /\
     0 <= dst /\ dst + Z.of_nat n * wd <= Mem.len buf).
Proof.
  induction n as [|n IH]; intros y src ls wd buf dst buf' dst' Hw Hl.
  - cbn. intros [= <- <-]. repeat split; lia.
  - cbn [copy_rows]. unfold int_mul, is_int.
    destruct (Z.leb_spec INT_MIN (Z.of_nat y * ls)); [|discriminate].
    destruct (Z.leb_spec (Z.of_nat y * ls) INT_MAX); [|discriminate].
    cbn [andb]. unfold to_size_t. rewrite (Z.mod_small wd) by lia.
    destruct (Mem.read src (Z.of_nat y * ls) wd) as [row|] eqn:Er;
      [|discriminate].
    destruct (Mem.write buf dst row) as [b1|] eqn:Ew; [|discriminate].
    apply mem_read_inv in Er as (_ & _ & Hsrc & Hrow).
    apply mem_write_inv in Ew as (Hdst & Hbuf & Hlen). rewrite Hrow in Hbuf.
    replace (Z.of_nat y + 1) with (Z.of_nat (S y)) by lia.
    intros E. apply IH in E; [|assumption..].
    destruct E as (-> & Hlen' & Hrest).
    split; [lia|]. split; [lia|]. intros _.
    destruct n as [|n].
    + replace (y + 1)%nat with (S y) by lia. repeat split; lia.
    + destruct (Hrest ltac:(lia)) as (H1 & H2 & H3 & H4).
      replace (y + S (S n))%nat with (S y + S n)%nat by lia.
      repeat split; lia.
Qed.

Lemma copy_and_write_success fps w f ok fps' w' :
  frame_ok f ->
  copy_and_write fps w f = Some (ok, fps', w') ->
  wf_frame f /\ row_offsets_ok f /\
  exists b, frame_buf fps = Some b /\ frame_size_of f <= Mem.len b.
Proof.
  intros [Hd Sy Su Sv].
  pose proof (halves_wf f Hd) as [Ew Eh].
  pose proof (frame_size_wf f Hd) as Hfs.
  pose proof Hd as [Hw Hh Hwe Hhe]. unfold INT_MAX in Hw, Hh.
  unfold copy_and_write.
  rewrite (uv_width_wf f Hd), (uv_height_wf f Hd).
  destruct (frame_buf fps) as [b0|] eqn:Eb; [|discriminate].
  destruct (copy_rows _ _ _ _ _ b0 0) as [[b1 d1]|] eqn:E1; [|discriminate].
  destruct (copy_rows _ _ _ _ _ b1 d1) as [[b2 d2]|] eqn:E2; [|discriminate].
  destruct (copy_rows _ _ _ _ _ b2 d2) as [[b3 d3]|] eqn:E3; [|discriminate].
  intros _.
  apply (copy_rows_success _ 0%nat) in E1; [|lia..].
  apply (copy_rows_success _ 0%nat) in E2; [|lia..].
  apply (copy_rows_success _ 0%nat) in E3; [|lia..].
  destruct E1 as (-> & L1 & B1). destruct E2 as (-> & L2 & B2).
  destruct E3 as (_ & _ & B3).
  destruct (B1 ltac:(lia)) as (O1 & P1 & _ & D1).
  destruct (B2 ltac:(lia)) as (O2 & P2 & _ & D2).
  destruct (B3 ltac:(lia)) as (O3 & P3 & _ & D3).
  cbn [plus] in O1, P1, O2, P2, O3, P3.
  rewrite Z2Nat.id in * by lia.
  assert (Hoff : row_offsets_ok f) by (repeat split; assumption).
  split; [|split; [exact Hoff|]].
  - constructor; [assumption | split; assumption .. | now right].
  - exists b0. split; [reflexivity|]. lia.
Qed.

Lemma write_direct_success fps w f ok fps' w' :
  frame_ok f -> unpadded f ->
  write_direct fps w f = Some (ok, fps', w') ->
  wf_frame f.
Proof.
  intros [Hd Sy Su Sv] (L0 & L1 & L2).
  pose proof (halves_wf f Hd) as [Ew Eh].
  unfold write_direct.
  rewrite (y_size_wf f Hd), (uv_size_wf f Hd).
  destruct (Mem.read _ 0 (_ * _)) as [i0|] eqn:E0; [|discriminate].
  destruct (Mem.read (AV.data_at f 1) 0 _) as [i1|] eqn:E1; [|discriminate].
  destruct (Mem.read (AV.data_at f 2) 0 _) as [i2|] eqn:E2; [|discriminate].
  intros _.
  apply mem_read_inv in E0 as (_ & _ & B0 & _).
  apply mem_read_inv in E1 as (_ & _ & B1 & _).
  apply mem_read_inv in E2 as (_ & _ & B2 & _).
  constructor; try assumption; unfold plane_ok.
  - rewrite L0. split; nia.
  - rewrite L1. split; nia.
  - rewrite L2. split; nia.
  - left. repeat split; assumption.
Qed.

(** A successful write_frame_data on an input frame read the planes inside
    their blocks and wrote the packed payload in full. *)
Lemma write_frame_data_success fps w f fps' w' :
  frame_ok f ->
  write_frame_data fps w f = Some (true, fps', w') ->
  wf_frame f /\
  exists e,
    trace w' = trace w ++ [e] /\ is_write e = true /\
    requested e = packed_yuv420p f /\
    returned e = Mem.len (requested e).
Proof.
  intros Hfo. pose proof Hfo as [Hd _ _ _]. unfold write_frame_data.
  destruct (can_write_direct f) eqn:Ed.
  - assert (Hun : unpadded f) by now apply (can_write_direct_unpadded f Hd).
    intros E.
    pose proof (write_direct_success _ _ _ _ _ _ Hfo Hun E) as Hwf.
    rewrite (write_direct_spec f Hwf fps w Hun) in E.
    injection E as Hk _ <-. apply Z.eqb_eq in Hk.
    split; [exact Hwf|]. eexists. repeat split.
    + cbn [requested concat]. unfold packed_yuv420p. now rewrite app_nil_r.
    + cbn [returned requested concat]. rewrite app_nil_r.
      fold (packed_yuv420p f). now rewrite (packed_length f Hwf).
  - unfold write_copy.
    assert (Hspec :
      forall s w0,
        copy_and_write s w0 f = Some (true, fps', w') ->
        wf_frame f /\
        exists e,
          trace w' = trace w0 ++ [e] /\ is_write e = true /\
          requested e = packed_yuv420p f /\
          returned e = Mem.len (requested e)).
    { intros s w0 E.
      destruct (copy_and_write_success _ _ _ _ _ _ Hfo E)
        as (Hwf & Hoff & b & Hb & Hl).
      rewrite (copy_and_write_spec f Hwf s w0 b Hoff Hb Hl) in E.
      injection E as Hk _ <-. apply Z.eqb_eq in Hk.
      split; [exact Hwf|]. eexists. repeat split.
      cbn [returned requested]. now rewrite (packed_length f Hwf). }
    destruct (match frame_buf fps with
              | Some _ => frame_buf_size fps <? frame_size_of f
              | None => true
              end).
    + rewrite sys_malloc_eq. destruct (hd true (mscript w)); [|discriminate].
      intros E. apply Hspec in E. exact E.
    + apply Hspec.
Qed.

End Success.

Section PayloadClaims.

Lemma plane_rows_shape b ls wd rows :
  0 <= wd -> 1 <= rows -> plane_ok b ls wd rows ->
  Z.of_nat (length (plane_rows b ls wd (Z.to_nat rows))) = rows /\
  Forall (fun r => Mem.len r = wd) (plane_rows b ls wd (Z.to_nat rows)).
Proof.
  intros Hw Hr (Hs & Hb). unfold plane_rows. split.
  - rewrite length_map, length_seq. lia.
  - apply Forall_forall. intros r Hin.
    apply in_map_iff in Hin as (y & <- & Hy). apply in_seq in Hy.
    unfold Mem.len. rewrite plane_row_length; nia.
Qed.

Lemma write_copy_wf fps w f :
  wf_frame f -> row_offsets_ok f ->
  buf_ok fps -> hd true (mscript w) = true ->
  exists fps' w0,
    write_copy fps w f =
    Some (write_ret (hd WAll (wscript w)) (frame_size_of f)
            =? frame_size_of f,
          fps',
          after_write w0
            (EWrite (fd fps) (packed_yuv420p f)
               (write_ret (hd WAll (wscript w)) (frame_size_of f)))) /\
    trace w0 = trace w /\ wscript w0 = wscript w.
Proof.
  intros Hwf Hoff Hok Hm. unfold write_copy.
  assert (Hfs : 0 <= frame_size_of f)
    by (unfold frame_size_of, to_size_t; apply Z.mod_pos_bound; lia).
  unfold buf_ok in Hok.
  destruct (match frame_buf fps with
            | Some _ => frame_buf_size fps <? frame_size_of f
            | None => true
            end) eqn:Er.
  - rewrite sys_malloc_eq, Hm.
    erewrite (copy_and_write_spec f Hwf);
      [| exact Hoff | reflexivity
       | unfold Mem.len; rewrite repeat_length; lia].
    eexists _, _. split; [reflexivity|]. split; reflexivity.
  - destruct (frame_buf fps) as [b|] eqn:Eb; [|discriminate].
    erewrite (copy_and_write_spec f Hwf); [| exact Hoff | eassumption | lia].
    eexists _, w. split; [reflexivity|]. split; reflexivity.
Qed.

Lemma same_pixels_packed f g :
  same_pixels f g ->
  packed_yuv420p f = packed_yuv420p g /\ frame_size_of f = frame_size_of g.
Proof.
  intros (Hw & Hh & Hy & Hu & Hv). split.
  - unfold packed_yuv420p. now rewrite Hy, Hu, Hv.
  - unfold frame_size_of, y_size_of, uv_size_of, uv_width_of, uv_height_of.
    now rewrite Hw, Hh.
Qed.

(** C1: for an input frame (even width and height, both at least 2, every
    stride at least the row width), a successful write_frame_data puts
    exactly width*height*3/2 bytes on the pipe: the height rows of Y (width
    bytes each), then the height/2 rows of U and the height/2 rows of V
    (width/2 bytes each), without the stride padding, whatever the strides
    of the input.  And the call does return when the planes lie inside their
    blocks, with success when the operating system takes the bytes. *)
Theorem payload_is_packed_planes fps w f :
  frame_ok f ->
  (forall fps' w',
     write_frame_data fps w f = Some (true, fps', w') ->
     exists e,
       trace w' = trace w ++ [e] /\
       delivered e
       = concat (y_rows f) ++ concat (u_rows f) ++ concat (v_rows f) /\
       pipe_bytes (trace w')
       = pipe_bytes (trace w) ++ packed_yuv420p f /\
       2 * Mem.len (delivered e) = 3 * (AV.width f * AV.height f) /\
       (Z.of_nat (length (y_rows f)) = AV.height f /\
        Forall (fun r => Mem.len r = AV.width f) (y_rows f)) /\
       (Z.of_nat (length (u_rows f)) = AV.height f / 2 /\
        Forall (fun r => Mem.len r = AV.width f / 2) (u_rows f)) /\
       (Z.of_nat (length (v_rows f)) = AV.height f / 2 /\
        Forall (fun r => Mem.len r = AV.width f / 2) (v_rows f))) /\
  (wf_frame f -> buf_ok fps ->
   (exists ok fps' w', write_frame_data fps w f = Some (ok, fps', w')) /\
   (hd WAll (wscript w) = WAll -> hd true (mscript w) = true ->
    exists fps' w', write_frame_data fps w f = Some (true, fps', w'))).
Proof.
  intros Hfo. split.
  - intros fps' w' E.
    destruct (write_frame_data_success _ _ _ _ _ Hfo E)
      as (Hwf & e & Ht & _ & Hq & Hr).
    pose proof (halves_wf f (wf_dims f Hwf)) as [Ew Eh].
    pose proof (packed_length f Hwf) as Hlen.
    assert (Hd : delivered e = packed_yuv420p f)
      by (rewrite delivered_full; assumption).
    exists e. split; [exact Ht|]. split; [exact Hd|]. split; [|split].
    + rewrite Ht, pipe_bytes_app. cbn. now rewrite app_nil_r, Hd.
    + rewrite Hd, Hlen.
      apply (frame_size_three_halves f (wf_dims f Hwf)).
    + destruct Hwf as [[Hw Hh Hwe Hhe] Py Pu Pv _].
      split; [|split]; apply plane_rows_shape; try assumption; lia.
  - intros Hwf Hok.
    destruct (write_frame_data_wf fps w f Hwf Hok)
      as (ok & fps1 & w1 & E & Hcase).
    split; [eauto|].
    intros Hall Hm.
    destruct Hcase as [(_ & _ & _ & Hf)|(e & _ & _ & _ & Hr & Hk & _)].
    + congruence.
    + rewrite Hall in Hr. cbn in Hr. rewrite Hr, Z.eqb_refl in Hk.
      subst ok. eauto.
Qed.

(** C2: for a frame without stride padding, the bytes the direct path
    hands to writev are the bytes the copy path (once it has its buffer)
    hands to write, for that frame and for every frame showing the same
    picture; with the same answer of the operating system the same bytes
    reach the pipe and the two calls return the same result. *)
Theorem direct_and_copy_agree fps w f fps2 w2 g :
  wf_frame f -> unpadded f ->
  wf_frame g -> row_offsets_ok g -> same_pixels f g ->
  buf_ok fps2 -> hd true (mscript w2) = true ->
  exists okd wd ed okc sc wc ec,
    write_direct fps w f = Some (okd, fps, wd) /\
    trace wd = trace w ++ [ed] /\
    write_copy fps2 w2 g = Some (okc, sc, wc) /\
    trace wc = trace w2 ++ [ec] /\
    requested ed = requested ec /\
    (hd WAll (wscript w) = hd WAll (wscript w2) ->
     delivered ed = delivered ec /\ okd = okc).
Proof.
  intros Hf Hun Hg Hoff Hsame Hok Hm.
  destruct (same_pixels_packed f g Hsame) as [Hp Hs].
  destruct (write_copy_wf fps2 w2 g Hg Hoff Hok Hm)
    as (sc & w0 & Ec & Ht & _).
  rewrite (write_direct_spec f Hf fps w Hun).
  rewrite Ec.
  eexists _, _, _, _, _, _, _.
  split; [reflexivity|]. split; [reflexivity|].
  split; [reflexivity|]. split; [cbn; now rewrite Ht|].
  assert (Hreq : concat [concat (y_rows f); concat (u_rows f);
                         concat (v_rows f)] = packed_yuv420p g).
  { rewrite <- Hp. unfold packed_yuv420p. cbn. now rewrite app_nil_r. }
  split; [exact Hreq|].
  intros Hr. cbn [delivered]. rewrite Hreq, Hr, Hs. now split.
Qed.

End PayloadClaims.

(** ** push *)

Section PushLemmas.

Variable AV_NOPTS_VALUE : Z.
Variable av_rescale_q : Z -> AV.AVRational -> AV.AVRational -> Z.

Local Abbreviation push :=
  (sc_frame_pipe_sink_push AV_NOPTS_VALUE av_rescale_q).
Local Abbreviation pts_us := (pts_us_of AV_NOPTS_VALUE av_rescale_q).

Lemma push_rejected fps w frame :
  fd fps < 0 \/ stopped fps = true ->
  push fps w frame = Some (false, fps, w).
Proof.
  intros Hr. unfold sc_frame_pipe_sink_push.
  destruct Hr as [Hfd|Hst].
  - destruct (Z.ltb_spec (fd fps) 0); [reflexivity|lia].
  - rewrite Hst. now rewrite orb_true_r.
Qed.

Lemma header_test fps frame :
  negb (AV.width frame =? width fps) || negb (AV.height frame =? height fps)
  = false <->
  AV.width frame = width fps /\ AV.height frame = height fps.
Proof.
  destruct (Z.eqb_spec (AV.width frame) (width fps)),
           (Z.eqb_spec (AV.height frame) (height fps));
    cbn; intuition congruence.
Qed.

Lemma push_streaming_step fps w frame ok fps' w' :
  streaming fps ->
  push fps w frame = Some (ok, fps', w') ->
  push_step AV_NOPTS_VALUE av_rescale_q fps w frame ok fps' w'.
Proof.
  intros [Hfd Hst]. unfold sc_frame_pipe_sink_push.
  destruct (Z.ltb_spec (fd fps) 0); [lia|]. rewrite Hst. cbn [orb].
  assert (Hstage :
    forall fps1 w1,
      header_stage fps w frame fps1 w1 ->
      (let '(ok0, w2) := write_pts fps1 w1 (pts_us fps1 frame) in
       if negb ok0 then Some (false, set_stopped fps1 true, w2)
       else
         match write_frame_data fps1 w2 frame with
         | Some (ok1, fps2, w3) =>
             if negb ok1 then Some (false, set_stopped fps2 true, w3)
             else Some (true, fps2, w3)
         | None => None
         end) = Some (ok, fps', w') ->
      push_step AV_NOPTS_VALUE av_rescale_q fps w frame ok fps' w').
  { intros fps1 w1 Hs.
    assert (Hfd1 : fd fps1 = fd fps) by (destruct Hs; reflexivity).
    assert (Hpts : pts_us fps1 frame = pts_us fps frame)
      by (destruct Hs; reflexivity).
    unfold write_pts. rewrite sys_write_eq, Hfd1, Hpts.
    change (Mem.len (pts_bytes (pts_us fps frame))) with 8.
    rewrite size_t_test by lia.
    destruct (Z.eqb_spec (write_ret (hd WAll (wscript w1)) 8) 8) as [E8|N8];
      cbn [negb].
    - rewrite E8.
      destruct (write_frame_data fps1 _ frame) as [[[ok1 fps2] w3]|] eqn:Ed;
        [|discriminate].
      destruct ok1; cbn [negb]; intros [= <- <- <-].
      + eapply ps_pushed; eassumption.
      + eapply ps_data_failed; eassumption.
    - intros [= <- <- <-]. now apply ps_pts_failed. }
  destruct (negb (AV.width frame =? width fps)
            || negb (AV.height frame =? height fps)) eqn:Eh.
  - assert (Hne : AV.width frame <> width fps
                  \/ AV.height frame <> height fps).
    { destruct (Z.eqb_spec (AV.width frame) (width fps)); [|now left].
      destruct (Z.eqb_spec (AV.height frame) (height fps)); [|now right].
      discriminate. }
    unfold write_header. rewrite sys_write_eq.
    change (Mem.len (header_bytes (AV.width frame) (AV.height frame)))
      with 12.
    rewrite size_t_test by lia.
    destruct (Z.eqb_spec (write_ret (hd WAll (wscript w)) 12) 12)
      as [E12|N12]; cbn [negb].
    + rewrite E12. apply Hstage. now apply hs_written.
    + intros [= <- <- <-]. now apply ps_header_failed.
  - apply header_test in Eh as [Ew Eh]. cbn [negb].
    apply Hstage. now apply hs_same.
Qed.

End PushLemmas.

Section PushTrace.

Variable AV_NOPTS_VALUE : Z.
Variable av_rescale_q : Z -> AV.AVRational -> AV.AVRational -> Z.

Local Abbreviation push :=
  (sc_frame_pipe_sink_push AV_NOPTS_VALUE av_rescale_q).
Local Abbreviation pts_us := (pts_us_of AV_NOPTS_VALUE av_rescale_q).
Local Abbreviation step := (push_step AV_NOPTS_VALUE av_rescale_q).

(** write_frame_data only adds to the trace, at most one write, and leaves
    the control fields of the sink alone. *)
Lemma write_frame_data_extends fps w f ok fps' w' :
  write_frame_data fps w f = Some (ok, fps', w') ->
  same_control fps fps' /\
  ((trace w' = trace w /\ wscript w' = wscript w /\ ok = false) \/
   (exists e, trace w' = trace w ++ [e] /\ is_write e = true /\
              wscript w' = tl (wscript w))).
Proof.
  unfold write_frame_data. destruct (can_write_direct f).
  - unfold write_direct.
    destruct (Mem.read _ 0 (y_size_of f)) as [i0|]; [|discriminate].
    destruct (Mem.read _ 0 (uv_size_of f)) as [i1|]; [|discriminate].
    destruct (Mem.read _ 0 (uv_size_of f)) as [i2|]; [|discriminate].
    rewrite sys_writev_eq.
    match goal with
    | |- context [if ?c then _ else _] => destruct c
    end; intros [= <- <- <-]; (split; [repeat split|]);
      right; eexists; repeat split.
  - unfold write_copy.
    destruct (match frame_buf fps with
              | Some _ => frame_buf_size fps <? frame_size_of f
              | None => true
              end).
    + rewrite sys_malloc_eq. destruct (hd true (mscript w)).
      * intros E. apply copy_and_write_inv in E.
        destruct E as (Hc & _ & _ & e & -> & He & _).
        split; [exact Hc|]. right. exists e. repeat split. assumption.
      * intros [= <- <- <-]. split; [repeat split|]. left. repeat split.
    + intros E. apply copy_and_write_inv in E.
      destruct E as (Hc & _ & _ & e & -> & He & _).
      split; [exact Hc|]. right. exists e. repeat split. assumption.
Qed.

Lemma header_stage_control fps w frame fps1 w1 :
  header_stage fps w frame fps1 w1 ->
  fd fps1 = fd fps /\ stopped fps1 = stopped fps /\
  frame_buf fps1 = frame_buf fps /\
  frame_buf_size fps1 = frame_buf_size fps /\
  time_base fps1 = time_base fps.
Proof. intros []; repeat split. Qed.

Lemma streaming_cases fps :
  streaming fps \/ fd fps < 0 \/ stopped fps = true.
Proof.
  unfold streaming. destruct (stopped fps); [auto|].
  destruct (Z.lt_ge_cases (fd fps) 0); [auto|]. left. split; [lia|reflexivity].
Qed.

(** push keeps the invariant and never shrinks the recorded capacity. *)
Lemma push_inv fps w frame ok fps' w' :
  sink_inv fps ->
  push fps w frame = Some (ok, fps', w') ->
  sink_inv fps' /\ frame_buf_size fps <= frame_buf_size fps' /\
  fd fps' = fd fps /\
  (ok = true -> can_write_direct frame = false ->
   exists b, frame_buf fps' = Some b /\
             frame_size_of frame <= Mem.len b /\
             frame_buf_size fps' = Mem.len b).
Proof.
  intros Hinv E.
  destruct (streaming_cases fps) as [Hs|Hr].
  - pose proof Hs as [_ Hst].
    apply push_streaming_step in E; [|assumption].
    assert (Hstopped : forall s, sink_inv (set_stopped s true))
      by (intros s; unfold sink_inv; discriminate).
    assert (Hdata :
      forall fps1 w1 w2 ok1 fps2 w3,
        header_stage fps w frame fps1 w1 ->
        write_frame_data fps1 w2 frame = Some (ok1, fps2, w3) ->
        frame_buf_size fps <= frame_buf_size fps2 /\ fd fps2 = fd fps /\
        stopped fps2 = false /\
        (ok1 = true -> buf_ok fps2 /\
           (can_write_direct frame = false ->
            exists b, frame_buf fps2 = Some b /\
                      frame_size_of frame <= Mem.len b /\
                      frame_buf_size fps2 = Mem.len b))).
    { intros fps1 w1 w2 ok1 fps2 w3 Hh Ed.
      destruct (header_stage_control _ _ _ _ _ Hh) as (Hf & Hs1 & Hb & Hz & _).
      assert (Hok1 : buf_ok fps1)
        by (unfold buf_ok; rewrite Hb, Hz; now apply Hinv).
      apply write_frame_data_inv in Ed; [|assumption].
      destruct Ed as ((_ & Hfd & Hst2 & _) & Hmono & Hcase).
      repeat split; try congruence; try lia;
        destruct Hcase as [(Hd & -> & _)|[(Hd & -> & _)|(Hd & (b & Hb' & Hz' & Hl) & _)]];
        try congruence.
      - unfold buf_ok. now rewrite Hb', Hz'.
      - intros _. exists b. repeat split; assumption. }
    inversion E as [ret Hne Heq Hret | fps1 w1 ret Hh Heq Hret
                    | fps1 w1 fps2 w2 Hh H8 Ed | fps1 w1 fps2 w2 Hh H8 Ed];
      subst.
    + repeat split; [apply Hstopped | cbn; lia | discriminate].
    + destruct (header_stage_control _ _ _ _ _ Hh) as (Hf & _ & _ & Hz & _).
      repeat split; [apply Hstopped | cbn; lia | assumption | discriminate].
    + destruct (Hdata _ _ _ _ _ _ Hh Ed) as (Hm & Hf & _ & _).
      repeat split; [apply Hstopped | cbn; lia | assumption | discriminate].
    + destruct (Hdata _ _ _ _ _ _ Hh Ed) as (Hm & Hf & Hst2 & Hb).
      destruct (Hb eq_refl) as [Hok2 Hcopy].
      repeat split; [intros _; exact Hok2 | lia | assumption | intros _; exact Hcopy].
  - rewrite (push_rejected AV_NOPTS_VALUE av_rescale_q fps w frame) in E
      by (destruct Hr; auto).
    injection E as <- <- <-.
    repeat split; [assumption | lia | discriminate].
Qed.

(** On a well-formed frame push returns. *)
Lemma push_returns fps w frame :
  wf_frame frame -> sink_inv fps ->
  exists ok fps' w', push fps w frame = Some (ok, fps', w').
Proof.
  intros Hwf Hinv.
  destruct (streaming_cases fps) as [[Hfd Hst]|Hr].
  - unfold sc_frame_pipe_sink_push.
    destruct (Z.ltb_spec (fd fps) 0); [lia|]. rewrite Hst. cbn [orb].
    destruct (if negb (AV.width frame =? width fps)
                 || negb (AV.height frame =? height fps)
              then write_header fps w (AV.width frame) (AV.height frame)
              else (true, fps, w)) as [[ok1 fps1] w1] eqn:E1.
    assert (Hok1 : buf_ok fps1).
    { specialize (Hinv Hst). unfold buf_ok in *.
      destruct (negb (AV.width frame =? width fps)
                || negb (AV.height frame =? height fps)).
      - unfold write_header in E1.
        destruct (sys_write w (fd fps) _) as [r w0].
        destruct (negb (to_size_t r =? 12)); injection E1 as <- <- <-;
          exact Hinv.
      - injection E1 as <- <- <-. exact Hinv. }
    destruct ok1; cbn [negb]; [|eauto].
    destruct (write_pts fps1 w1 (pts_us fps1 frame)) as [ok2 w2].
    destruct ok2; cbn [negb]; [|eauto].
    destruct (write_frame_data_wf fps1 w2 frame Hwf Hok1)
      as (ok3 & fps3 & w3 & -> & _).
    destruct ok3; cbn [negb]; eauto.
  - rewrite (push_rejected AV_NOPTS_VALUE av_rescale_q fps w frame)
      by (destruct Hr; auto).
    eauto.
Qed.

End PushTrace.

(** ** The open/push/close state machine *)

Section StateMachine.

Variable AV_NOPTS_VALUE : Z.
Variable av_rescale_q : Z -> AV.AVRational -> AV.AVRational -> Z.

Local Abbreviation push :=
  (sc_frame_pipe_sink_push AV_NOPTS_VALUE av_rescale_q).
Local Abbreviation pts_us := (pts_us_of AV_NOPTS_VALUE av_rescale_q).
Local Abbreviation run :=
  (run_ops AV_NOPTS_VALUE av_rescale_q).

Lemma init_unopened fps0 path :
  let fps := snd (sc_frame_pipe_sink_init fps0 path true) in
  fd fps = -1 /\ stopped fps = false /\ width fps = 0 /\ height fps = 0 /\
  frame_buf fps = None /\ frame_buf_size fps = 0 /\ sink_inv fps.
Proof. cbn. repeat split. Qed.

Lemma open_ok fps w tb mk op fps1 w1 :
  sc_frame_pipe_sink_open fps w tb mk op = (true, fps1, w1) ->
  streaming fps1 /\ width fps1 = 0 /\ height fps1 = 0 /\
  frame_buf fps1 = frame_buf fps /\ frame_buf_size fps1 = frame_buf_size fps.
Proof.
  unfold sc_frame_pipe_sink_open.
  destruct (mk <? 0); [discriminate|]. cbn [fd set_fd].
  destruct (Z.ltb_spec op 0); [discriminate|].
  intros [= <- <-]. unfold streaming. cbn. repeat split. assumption.
Qed.

Lemma open_failed fps w tb mk op fps1 w1 :
  fd fps < 0 ->
  sc_frame_pipe_sink_open fps w tb mk op = (false, fps1, w1) ->
  fd fps1 < 0.
Proof.
  unfold sc_frame_pipe_sink_open. intros Hfd.
  destruct (mk <? 0); [now intros [= <- <-]|]. cbn [fd set_fd].
  destruct (Z.ltb_spec op 0); [|discriminate].
  now intros [= <- <-].
Qed.

(** A sink that init has set up and open has opened is streaming, with its
    scratch buffer and the recorded size in agreement. *)
Lemma open_after_init fps0 path w tb mk op fps1 w1 :
  sc_frame_pipe_sink_open
    (snd (sc_frame_pipe_sink_init fps0 path true)) w tb mk op
  = (true, fps1, w1) ->
  streaming fps1 /\ sink_inv fps1 /\ buf_ok fps1.
Proof.
  intros E. apply open_ok in E as (Hs & _ & _ & Hb & Hz).
  assert (Hok : buf_ok fps1) by (unfold buf_ok; now rewrite Hb, Hz).
  split; [assumption|]. split; [intros _|]; exact Hok.
Qed.

Lemma close_closed fps w :
  fd (fst (sc_frame_pipe_sink_close fps w)) = -1 \/
  (fd fps < 0 /\ fst (sc_frame_pipe_sink_close fps w) = fps).
Proof.
  unfold sc_frame_pipe_sink_close.
  destruct (Z.leb_spec 0 (fd fps)); cbn; auto.
Qed.

(** C8: push on a sink that is unopened (its descriptor is negative, as
    init leaves it) or stopped returns failure at once: no system call is
    made and the sink, scratch buffer included, is as it was. *)
Theorem push_unopened_or_stopped fps w frame :
  fd fps < 0 \/ stopped fps = true ->
  sc_frame_pipe_sink_push AV_NOPTS_VALUE av_rescale_q fps w frame
  = Some (false, fps, w).
Proof. apply push_rejected. Qed.

(** C10: after close the descriptor field is negative (-1 when close had a
    descriptor to close), an open that fails on a sink that is not open
    leaves it negative, and push on a sink with a negative descriptor returns
    failure without a system call; so push after close, and push after a
    failed open that followed init or close, fail without writing. *)
Theorem push_after_close_or_failed_open fps w frame :
  (let '(fps1, w1) := sc_frame_pipe_sink_close fps w in
   fd fps1 < 0 /\ (0 <= fd fps -> fd fps1 = -1) /\
   push fps1 w1 frame = Some (false, fps1, w1)) /\
  (forall tb mk op fps1 w1,
     fd fps < 0 ->
     sc_frame_pipe_sink_open fps w tb mk op = (false, fps1, w1) ->
     fd fps1 < 0 /\ push fps1 w1 frame = Some (false, fps1, w1)) /\
  (forall path tb mk op fps1 w1,
     sc_frame_pipe_sink_open
       (snd (sc_frame_pipe_sink_init fps path true)) w tb mk op
     = (false, fps1, w1) ->
     push fps1 w1 frame = Some (false, fps1, w1)) /\
  (forall tb mk op fps1 w1,
     sc_frame_pipe_sink_open
       (fst (sc_frame_pipe_sink_close fps w))
       (snd (sc_frame_pipe_sink_close fps w)) tb mk op
     = (false, fps1, w1) ->
     push fps1 w1 frame = Some (false, fps1, w1)).
Proof.
  assert (Hclose : fd (fst (sc_frame_pipe_sink_close fps w)) < 0)
    by (destruct (close_closed fps w) as [E|[H E]]; [rewrite E|rewrite E]; lia).
  split; [|split; [|split]].
  - destruct (sc_frame_pipe_sink_close fps w) as [fps1 w1] eqn:E.
    cbn [fst] in Hclose. split; [assumption|]. split.
    + intros Hopen. unfold sc_frame_pipe_sink_close in E.
      destruct (Z.leb_spec 0 (fd fps)); [|lia].
      now injection E as <- <-.
    + apply push_rejected. now left.
  - intros tb mk op fps1 w1 Hfd E.
    pose proof (open_failed _ _ _ _ _ _ _ Hfd E) as H1.
    split; [assumption|]. apply push_rejected. now left.
  - intros path tb mk op fps1 w1 E.
    apply push_rejected. left.
    eapply open_failed; [|exact E]. cbn. lia.
  - intros tb mk op fps1 w1 E.
    apply push_rejected. left.
    eapply open_failed; [|exact E]. exact Hclose.
Qed.

(** The events of a push on a streaming sink: a failed header write alone,
    or the header stage, the timestamp, and what write_frame_data added. *)
Lemma push_step_events fps w frame ok fps' w' :
  push_step AV_NOPTS_VALUE av_rescale_q fps w frame ok fps' w' ->
  (exists ret,
     (AV.width frame <> width fps \/ AV.height frame <> height fps) /\
     ret <> 12 /\ ok = false /\ fps' = set_stopped fps true /\
     trace w' = trace w ++
       [EWrite (fd fps) (header_bytes (AV.width frame) (AV.height frame)) ret])
  \/
  (exists fps1 w1 r rest,
     header_stage fps w frame fps1 w1 /\
     trace w' = trace w1 ++
       EWrite (fd fps) (pts_bytes (pts_us fps frame)) r :: rest /\
     width fps' = width fps1 /\ height fps' = height fps1 /\
     (r <> 8 -> rest = [] /\ ok = false) /\
     (rest = [] \/ exists e, rest = [e] /\ is_write e = true) /\
     (ok = true -> r = 8 /\ stopped fps' = stopped fps /\
                   exists e, rest = [e]) /\
     (ok = false -> stopped fps' = true)).
Proof.
  intros Hstep.
  assert (Hdata :
    forall fps1 w1 ok1 fps2 w2,
      write_frame_data fps1
        (after_write w1 (EWrite (fd fps) (pts_bytes (pts_us fps frame)) 8))
        frame = Some (ok1, fps2, w2) ->
      width fps2 = width fps1 /\ height fps2 = height fps1 /\
      stopped fps2 = stopped fps1 /\
      exists rest,
        trace w2 = trace w1 ++
          EWrite (fd fps) (pts_bytes (pts_us fps frame)) 8 :: rest /\
        (rest = [] \/ exists e, rest = [e] /\ is_write e = true) /\
        (ok1 = true -> exists e, rest = [e])).
  { intros fps1 w1 ok1 fps2 w2 Ed.
    apply write_frame_data_extends in Ed.
    destruct Ed as ((_ & _ & Hst & Hw & Hh & _) & Hcase).
    repeat split; try assumption.
    destruct Hcase as [(Ht & _ & ->)|(e & Ht & He & _)].
    - exists []. rewrite Ht. repeat split; [now left | discriminate].
    - exists [e]. rewrite Ht, after_write_trace, <- app_assoc.
      repeat split; [right|]; eauto. }
  inversion Hstep as [ret Hne Heq Hret | fps1 w1 ret Hh Heq Hret
                      | fps1 w1 fps2 w2 Hh H8 Ed | fps1 w1 fps2 w2 Hh H8 Ed];
    subst.
  - left. eexists. repeat split; assumption.
  - right. eexists fps1, w1, _, []. repeat split; eauto; discriminate.
  - right. destruct (Hdata _ _ _ _ _ Ed) as (Hw & Hhh & Hst & rest & Ht & Hr & _).
    exists fps1, w1, 8, rest.
    repeat split; auto; try discriminate; try congruence.
  - right. destruct (Hdata _ _ _ _ _ Ed) as (Hw & Hhh & Hst & rest & Ht & Hr & He).
    exists fps1, w1, 8, rest.
    destruct (header_stage_control _ _ _ _ _ Hh) as (_ & Hs1 & _).
    repeat split; auto; try discriminate; try congruence.
Qed.

(** C3: on a streaming sink, push first writes the 12-byte dimension packet
    exactly when the frame's (width, height) is not the stored pair, and
    the timestamp of the frame packet comes right after it; when the sizes
    are the stored ones the first write is the timestamp.  After a complete
    header write the stored pair is the frame's; after a failed one the push
    has failed and the sink is stopped.  Right after open the stored pair is
    (0, 0), so the first frame (sizes at least 2) gets its header. *)
Theorem header_iff_size_changed fps w frame ok fps' w' :
  streaming fps ->
  push fps w frame = Some (ok, fps', w') ->
  (AV.width frame <> width fps \/ AV.height frame <> height fps ->
   exists ret rest,
     trace w' = trace w ++
       EWrite (fd fps) (header_bytes (AV.width frame) (AV.height frame)) ret
       :: rest /\
     length (header_bytes (AV.width frame) (AV.height frame)) = 12%nat /\
     (ret = 12 ->
      width fps' = AV.width frame /\ height fps' = AV.height frame /\
      exists r rest',
        rest = EWrite (fd fps) (pts_bytes (pts_us fps frame)) r :: rest') /\
     (ret <> 12 ->
      rest = [] /\ ok = false /\ stopped fps' = true /\
      width fps' = width fps /\ height fps' = height fps)) /\
  (AV.width frame = width fps /\ AV.height frame = height fps ->
   exists r rest,
     trace w' = trace w ++
       EWrite (fd fps) (pts_bytes (pts_us fps frame)) r :: rest /\
     length (pts_bytes (pts_us fps frame)) = 8%nat /\
     width fps' = width fps /\ height fps' = height fps) /\
  (forall fps0 w0 tb mk op,
     sc_frame_pipe_sink_open fps0 w0 tb mk op = (true, fps, w) ->
     2 <= AV.width frame -> 2 <= AV.height frame ->
     exists ret rest,
       trace w' = trace w ++
         EWrite (fd fps) (header_bytes (AV.width frame) (AV.height frame)) ret
         :: rest).
Proof.
  intros Hs E.
  apply push_streaming_step in E; [|assumption].
  apply push_step_events in E.
  assert (Hfirst :
    AV.width frame <> width fps \/ AV.height frame <> height fps ->
    exists ret rest,
      trace w' = trace w ++
        EWrite (fd fps) (header_bytes (AV.width frame) (AV.height frame)) ret
        :: rest /\
      length (header_bytes (AV.width frame) (AV.height frame)) = 12%nat /\
      (ret = 12 ->
       width fps' = AV.width frame /\ height fps' = AV.height frame /\
       exists r rest',
         rest = EWrite (fd fps) (pts_bytes (pts_us fps frame)) r :: rest') /\
      (ret <> 12 ->
       rest = [] /\ ok = false /\ stopped fps' = true /\
       width fps' = width fps /\ height fps' = height fps)).
  { intros Hne.
    destruct E as [(ret & _ & Hret & -> & -> & Ht)
                  |(fps1 & w1 & r & rest & Hh & Ht & Hw & Hhh & _)].
    - exists ret, []. repeat split; try assumption; try contradiction.
    - destruct Hh as [Ew Eh|_ _]; [destruct Hne; contradiction|].
      exists 12, (EWrite (fd fps) (pts_bytes (pts_us fps frame)) r :: rest).
      rewrite Ht, after_write_trace, <- app_assoc.
      repeat split; try assumption; try congruence; eauto. }
  split; [exact Hfirst|]. split.
  - intros [Ew Eh].
    destruct E as [(ret & [N|N] & _)
                  |(fps1 & w1 & r & rest & Hh & Ht & Hw & Hhh & _)];
      try contradiction.
    destruct Hh as [_ _|[N|N] _]; try contradiction.
    exists r, rest. repeat split; assumption.
  - intros fps0 w0 tb mk op Eo Hw Hh.
    apply open_ok in Eo as (_ & Ew & _).
    destruct Hfirst as (ret & rest & Ht & _); [left; lia|].
    eauto.
Qed.

Lemma pts_us_range fps frame :
  INT64_MIN <= pts_us fps frame <= INT64_MAX.
Proof.
  unfold pts_us_of, to_int64, INT64_MIN, INT64_MAX.
  destruct (negb (AV.pts frame =? AV_NOPTS_VALUE)); [|lia].
  match goal with
  | |- context [?a mod 2 ^ 64] =>
      pose proof (Z.mod_pos_bound a (2 ^ 64) ltac:(lia))
  end.
  lia.
Qed.

(** C5: the timestamp field written by write_pts is 8 bytes, the
    little-endian two's complement form of the 64-bit value, and decoding it
    gives the value back; the value push hands to write_pts is a 64-bit
    value, and it is 0, eight zero bytes on the pipe, for a frame whose pts
    is AV_NOPTS_VALUE. *)
Theorem pts_field_encoding fps w frame v :
  INT64_MIN <= v <= INT64_MAX ->
  (exists ret,
     snd (write_pts fps w v)
     = after_write w (EWrite (fd fps) (pts_bytes v) ret)) /\
  length (pts_bytes v) = 8%nat /\
  Forall is_byte (pts_bytes v) /\
  decode_i64_le (pts_bytes v) = v /\
  decode_i64_le (pts_bytes (pts_us fps frame)) = pts_us fps frame /\
  (AV.pts frame = AV_NOPTS_VALUE ->
   pts_us fps frame = 0 /\
   pts_bytes (pts_us fps frame) = [0; 0; 0; 0; 0; 0; 0; 0] /\
   decode_i64_le (pts_bytes (pts_us fps frame)) = 0 /\
   forall fps' w',
     streaming fps -> push fps w frame = Some (true, fps', w') ->
     exists hdr e,
       trace w' = trace w ++ hdr
                  ++ [EWrite (fd fps) [0; 0; 0; 0; 0; 0; 0; 0] 8; e] /\
       (hdr = [] \/
        hdr = [EWrite (fd fps)
                 (header_bytes (AV.width frame) (AV.height frame)) 12])).
Proof.
  intros Hv.
  assert (Hdec : forall x, INT64_MIN <= x <= INT64_MAX ->
                           decode_i64_le (pts_bytes x) = x).
  { intros x Hx. unfold decode_i64_le.
    now rewrite decode_pts_bytes, to_int64_mod, to_int64_id. }
  split; [|split; [reflexivity|split; [apply pts_bytes_range|]]].
  - unfold write_pts. rewrite sys_write_eq.
    match goal with
    | |- context [if ?c then _ else _] => destruct c
    end; cbn [snd]; eauto.
  - split; [now apply Hdec|]. split; [apply Hdec, pts_us_range|].
    intros Hno.
    assert (H0 : pts_us fps frame = 0).
    { unfold pts_us_of. rewrite Hno, Z.eqb_refl. reflexivity. }
    rewrite H0. repeat split.
    intros fps' w' Hs E.
    apply push_streaming_step in E; [|assumption].
    apply push_step_events in E.
    destruct E as [(ret & _ & _ & N & _)
                  |(fps1 & w1 & r & rest & Hh & Ht & _ & _ & _ & _ & Hok & _)];
      [discriminate|].
    destruct (Hok eq_refl) as (-> & _ & e & ->).
    rewrite H0 in Ht. change (pts_bytes 0) with [0; 0; 0; 0; 0; 0; 0; 0] in Ht.
    destruct Hh as [_ _|_ _].
    + exists [], e. split; [exact Ht|now left].
    + eexists [_], e. rewrite Ht, after_write_trace, <- app_assoc.
      split; [reflexivity|now right].
Qed.

Lemma close_keeps fps w :
  let '(fps1, w1) := sc_frame_pipe_sink_close fps w in
  stopped fps1 = stopped fps /\
  frame_buf fps1 = frame_buf fps /\
  frame_buf_size fps1 = frame_buf_size fps /\
  wscript w1 = wscript w /\
  filter is_write (trace w1) = filter is_write (trace w) /\
  pipe_bytes (trace w1) = pipe_bytes (trace w).
Proof.
  unfold sc_frame_pipe_sink_close, pipe_bytes.
  destruct (0 <=? fd fps); cbn;
    rewrite ?filter_app, ?flat_map_app; cbn; rewrite ?app_nil_r;
    repeat split.
Qed.

(** Once stopped, push and close write nothing and every push fails. *)
Lemma stopped_run ops :
  forall fps w,
    stopped fps = true ->
    exists oks fps' w',
      run fps w ops = Some (oks, fps', w') /\
      stopped fps' = true /\
      Forall (fun ok => ok = false) oks /\
      filter is_write (trace w') = filter is_write (trace w) /\
      pipe_bytes (trace w') = pipe_bytes (trace w) /\
      wscript w' = wscript w.
Proof.
  induction ops as [|[frame|] ops IH]; intros fps w Hst.
  - exists [], fps, w. repeat split; [assumption|constructor].
  - cbn [run_ops]. rewrite push_rejected by now right.
    destruct (IH fps w Hst) as (oks & fps' & w' & -> & H1 & H2 & H3).
    exists (false :: oks), fps', w'.
    repeat split; try assumption; try apply H3. now constructor.
  - cbn [run_ops]. pose proof (close_keeps fps w) as Hc.
    destruct (sc_frame_pipe_sink_close fps w) as [fps1 w1].
    destruct Hc as (Hs1 & _ & _ & Hw1 & Hf1 & Hp1).
    destruct (IH fps1 w1) as (oks & fps' & w' & -> & H1 & H2 & H3 & H4 & H5);
      [congruence|].
    exists oks, fps', w'. repeat split; try assumption; congruence.
Qed.

(** C7: a push on a streaming sink that returns failure leaves the sink
    stopped, and a push in which a write of the header, the timestamp or the
    payload failed returns failure; from a stopped sink on, whatever pushes
    and closes follow, stopped stays true, every push returns failure, no
    write is attempted and nothing more reaches the pipe. *)
Theorem stopped_is_permanent fps w :
  (forall frame ok fps' w',
     streaming fps -> push fps w frame = Some (ok, fps', w') ->
     (ok = false <-> stopped fps' = true)) /\
  (forall frame ok fps' w' es,
     streaming fps -> frame_ok frame ->
     push fps w frame = Some (ok, fps', w') ->
     trace w' = trace w ++ es ->
     Exists failed_write es -> ok = false /\ stopped fps' = true) /\
  (stopped fps = true ->
   forall ops,
     exists oks fps' w',
       run fps w ops = Some (oks, fps', w') /\
       stopped fps' = true /\
       Forall (fun ok => ok = false) oks /\
       filter is_write (trace w') = filter is_write (trace w) /\
       pipe_bytes (trace w') = pipe_bytes (trace w) /\
       wscript w' = wscript w).
Proof.
  assert (P1 : forall frame ok fps' w',
     streaming fps -> push fps w frame = Some (ok, fps', w') ->
     (ok = false <-> stopped fps' = true)).
  { intros frame ok fps' w' Hs E. pose proof Hs as [_ Hst].
    apply push_streaming_step in E; [|assumption].
    apply push_step_events in E.
    destruct E as [(ret & _ & _ & -> & -> & _)
                  |(fps1 & w1 & r & rest & _ & _ & _ & _ & _ & _ & Hok & Hko)].
    - split; reflexivity.
    - destruct ok.
      + destruct (Hok eq_refl) as (_ & E & _). split; congruence.
      + split; auto. }
  split; [exact P1|]. split.
  - intros frame ok fps' w' es Hs Hfo E Ht Hex.
    destruct ok; [exfalso|split; [reflexivity|now apply (P1 frame false fps' w')]].
    pose proof Hs as [_ Hst].
    apply push_streaming_step in E; [|assumption].
    inversion E as [| | | fps1 w1 fps2 w2 Hh H8 Ed]; subst.
    destruct (write_frame_data_success _ _ _ _ _ Hfo Ed)
      as (_ & e & Hte & _ & _ & Hr).
    assert (Hcomplete : ~ failed_write e) by (intros [_ N]; now apply N).
    rewrite Hte, after_write_trace in Ht.
    assert (Hpts : ~ failed_write
                     (EWrite (fd fps) (pts_bytes (pts_us fps frame)) 8))
      by (intros [_ N]; now apply N).
    destruct Hh as [_ _|_ _].
    + rewrite <- app_assoc in Ht. apply app_inv_head in Ht. subst es.
      inversion Hex as [? ? H1|? ? H1]; subst; [contradiction|].
      inversion H1 as [? ? H2|? ? H2]; subst; [contradiction|].
      inversion H2.
    + rewrite after_write_trace, <- !app_assoc in Ht.
      apply app_inv_head in Ht. subst es.
      inversion Hex as [? ? H1|? ? H1]; subst;
        [destruct H1 as [_ N]; now apply N|].
      inversion H1 as [? ? H2|? ? H2]; subst; [contradiction|].
      inversion H2 as [? ? H3|? ? H3]; subst; [contradiction|].
      inversion H3.
  - intros Hst ops. now apply stopped_run.
Qed.

Lemma push_all_inv frames :
  forall fps w oks fps' w',
    sink_inv fps ->
    push_all AV_NOPTS_VALUE av_rescale_q fps w frames = Some (oks, fps', w') ->
    sink_inv fps' /\ frame_buf_size fps <= frame_buf_size fps'.
Proof.
  induction frames as [|frame frames IH]; intros fps w oks fps' w' Hinv; cbn.
  - intros [= _ <- _]. split; [assumption|lia].
  - destruct (push fps w frame) as [[[ok fps1] w1]|] eqn:E; [|discriminate].
    destruct (push_all _ _ fps1 w1 frames) as [[[oks1 fps2] w2]|] eqn:E2;
      [|discriminate].
    intros [= _ <- _].
    destruct (push_inv _ _ _ _ _ _ _ _ Hinv E) as (Hinv1 & Hm1 & _).
    destruct (IH _ _ _ _ _ Hinv1 E2) as (Hinv2 & Hm2).
    split; [assumption|lia].
Qed.

(** C9: over any sequence of pushes on an instance (scratch buffer and
    recorded size in agreement unless the sink has stopped, as init leaves
    them and push keeps them) the recorded capacity of the scratch buffer
    never goes down: after every push it is at least its value before the
    call; and when the copy path has run, the buffer holds at least the
    payload of the frame. *)
Theorem scratch_buffer_only_grows fps w pre oks fps1 w1 frame ok fps2 w2 :
  sink_inv fps ->
  push_all AV_NOPTS_VALUE av_rescale_q fps w pre = Some (oks, fps1, w1) ->
  push fps1 w1 frame = Some (ok, fps2, w2) ->
  frame_buf_size fps <= frame_buf_size fps1 /\
  frame_buf_size fps1 <= frame_buf_size fps2 /\
  sink_inv fps2 /\
  (ok = true -> can_write_direct frame = false ->
   exists b, frame_buf fps2 = Some b /\
             frame_size_of frame <= Mem.len b /\
             frame_buf_size fps2 = Mem.len b) /\
  (forall s wa oka sb wb,
     buf_ok s ->
     write_frame_data s wa frame = Some (oka, sb, wb) ->
     can_write_direct frame = false ->
     trace wb <> trace wa ->
     exists b, frame_buf sb = Some b /\
               frame_size_of frame <= Mem.len b /\
               frame_buf_size sb = Mem.len b /\
               frame_buf_size s <= frame_buf_size sb).
Proof.
  intros Hinv Epre E.
  destruct (push_all_inv _ _ _ _ _ _ Hinv Epre) as (Hinv1 & Hm1).
  destruct (push_inv _ _ _ _ _ _ _ _ Hinv1 E) as (Hinv2 & Hm2 & _ & Hcopy).
  repeat split; try assumption.
  intros s wa oka sb wb Hok Ed Hnd Htr.
  apply write_frame_data_inv in Ed; [|assumption].
  destruct Ed as (_ & Hm & [(Hd & _)|[(_ & _ & Ht & _)|(_ & (b & Hb & Hz & Hl) & _)]]).
  - congruence.
  - contradiction.
  - exists b. repeat split; assumption.
Qed.

End StateMachine.

(** ** The stream of a run without failures *)

Section Stream.

Variable AV_NOPTS_VALUE : Z.
Variable av_rescale_q : Z -> AV.AVRational -> AV.AVRational -> Z.

Local Abbreviation push :=
  (sc_frame_pipe_sink_push AV_NOPTS_VALUE av_rescale_q).
Local Abbreviation pts_us := (pts_us_of AV_NOPTS_VALUE av_rescale_q).

Lemma write_frame_data_mscript fps w f ok fps' w' :
  write_frame_data fps w f = Some (ok, fps', w') ->
  mscript w' = mscript w \/ mscript w' = tl (mscript w).
Proof.
  unfold write_frame_data. destruct (can_write_direct f).
  - unfold write_direct.
    destruct (Mem.read _ 0 (y_size_of f)) as [i0|]; [|discriminate].
    destruct (Mem.read _ 0 (uv_size_of f)) as [i1|]; [|discriminate].
    destruct (Mem.read _ 0 (uv_size_of f)) as [i2|]; [|discriminate].
    rewrite sys_writev_eq.
    match goal with
    | |- context [if ?c then _ else _] => destruct c
    end; intros [= <- <- <-]; now left.
  - unfold write_copy.
    destruct (match frame_buf fps with
              | Some _ => frame_buf_size fps <? frame_size_of f
              | None => true
              end).
    + rewrite sys_malloc_eq. destruct (hd true (mscript w)).
      * intros E. apply copy_and_write_inv in E.
        destruct E as (_ & _ & _ & e & -> & _). now right.
      * intros [= <- <- <-]. now right.
    + intros E. apply copy_and_write_inv in E.
      destruct E as (_ & _ & _ & e & -> & _). now left.
Qed.

Lemma header_stage_world fps w frame fps1 w1 :
  header_stage fps w frame fps1 w1 ->
  mscript w1 = mscript w /\
  (wscript w = [] -> wscript w1 = []) /\
  width fps1 = AV.width frame /\ height fps1 = AV.height frame /\
  pipe_bytes (trace w1) =
  pipe_bytes (trace w) ++
    (if (AV.width frame =? width fps) && (AV.height frame =? height fps)
     then [] else header_bytes (AV.width frame) (AV.height frame)).
Proof.
  intros [Ew Eh|Hne _].
  - rewrite Ew, Eh, !Z.eqb_refl, app_nil_r. repeat split; auto.
  - assert (Hif : (AV.width frame =? width fps)
                  && (AV.height frame =? height fps) = false).
    { destruct (Z.eqb_spec (AV.width frame) (width fps)),
               (Z.eqb_spec (AV.height frame) (height fps));
        try reflexivity.
      destruct Hne; contradiction. }
    rewrite Hif, after_write_trace, pipe_bytes_app.
    repeat split. cbn [wscript after_write]. now intros ->.
Qed.

(** One push when the operating system takes every byte and malloc returns
    a block. *)
Lemma push_ok_stream fps w frame :
  streaming fps -> sink_inv fps -> wf_frame frame ->
  wscript w = [] -> mscript w = [] ->
  exists fps' w',
    push fps w frame = Some (true, fps', w') /\
    pipe_bytes (trace w') =
    pipe_bytes (trace w)
    ++ (if (AV.width frame =? width fps) && (AV.height frame =? height fps)
        then [] else header_bytes (AV.width frame) (AV.height frame))
    ++ pts_bytes (pts_us fps frame)
    ++ packed_yuv420p frame /\
    width fps' = AV.width frame /\ height fps' = AV.height frame /\
    streaming fps' /\ sink_inv fps' /\ time_base fps' = time_base fps /\
    wscript w' = [] /\ mscript w' = [].
Proof.
  intros Hs Hinv Hwf Hws Hms. pose proof Hs as [Hfd Hst].
  destruct (push_returns AV_NOPTS_VALUE av_rescale_q fps w frame Hwf Hinv)
    as (ok & fps' & w' & E).
  destruct (push_inv _ _ _ _ _ _ _ _ Hinv E) as (Hinv' & _ & Hfd' & _).
  pose proof E as Hstep. apply push_streaming_step in Hstep; [|assumption].
  assert (Hdata :
    forall fps1 w1 ok1 fps2 w2,
      header_stage fps w frame fps1 w1 ->
      write_frame_data fps1
        (after_write w1 (EWrite (fd fps) (pts_bytes (pts_us fps frame)) 8))
        frame = Some (ok1, fps2, w2) ->
      ok1 = true /\
      pipe_bytes (trace w2) =
      pipe_bytes (trace w1) ++ pts_bytes (pts_us fps frame)
      ++ packed_yuv420p frame /\
      same_control fps1 fps2 /\ wscript w2 = [] /\ mscript w2 = []).
  { intros fps1 w1 ok1 fps2 w2 Hh Ed.
    destruct (header_stage_control _ _ _ _ _ Hh) as (_ & _ & Hb & Hz & _).
    destruct (header_stage_world _ _ _ _ _ Hh) as (Hm1 & Hw1 & _).
    specialize (Hw1 Hws).
    assert (Hok1 : buf_ok fps1)
      by (unfold buf_ok; rewrite Hb, Hz; now apply Hinv).
    pose proof (write_frame_data_mscript _ _ _ _ _ _ Ed) as Hm2.
    pose proof (write_frame_data_extends _ _ _ _ _ _ Ed) as [Hc _].
    destruct (write_frame_data_wf fps1
                (after_write w1
                   (EWrite (fd fps) (pts_bytes (pts_us fps frame)) 8))
                frame Hwf Hok1) as (ok3 & fps3 & w3 & E3 & Hcase).
    rewrite Ed in E3. injection E3 as <- <- <-.
    cbn [mscript wscript after_write] in Hm2, Hcase.
    rewrite Hm1, Hms in Hm2, Hcase. rewrite Hw1 in Hcase.
    destruct Hcase as [(_ & _ & _ & N)|(e & Ht & _ & Hq & Hr & Hk & Hw2)];
      [discriminate|].
    cbn [tl hd write_ret] in Hr, Hw2. rewrite Hr, Z.eqb_refl in Hk.
    split; [exact Hk|]. split; [|split; [exact Hc|]].
    - rewrite Ht, after_write_trace, <- app_assoc, pipe_bytes_app.
      f_equal. cbn [pipe_bytes flat_map delivered app].
      rewrite app_nil_r. f_equal.
      assert (Hd : delivered e = packed_yuv420p frame).
      { rewrite delivered_full; [assumption|].
        now rewrite Hq, (packed_length frame Hwf). }
      exact Hd.
    - split; [exact Hw2|]. destruct Hm2 as [->| ->]; reflexivity. }
  inversion Hstep as [ret Hne Heq Hret | fps1 w1 ret Hh Heq Hret
                      | fps1 w1 fps2 w2 Hh H8 Ed | fps1 w1 fps2 w2 Hh H8 Ed];
    subst.
  - rewrite Hws in Hret. now elim Hret.
  - destruct (header_stage_world _ _ _ _ _ Hh) as (_ & Hw1 & _).
    rewrite (Hw1 Hws) in Hret. now elim Hret.
  - destruct (Hdata _ _ _ _ _ Hh Ed) as (N & _). discriminate.
  - destruct (Hdata _ _ _ _ _ Hh Ed)
      as (_ & Hp & (_ & _ & Hst2 & Hw2 & Hh2 & Htb) & Hws2 & Hms2).
    destruct (header_stage_world _ _ _ _ _ Hh) as (_ & _ & Hw1 & Hh1 & Hp1).
    destruct (header_stage_control _ _ _ _ _ Hh) as (_ & Hs1 & _ & _ & Htb1).
    exists fps', w'. split; [exact E|].
    split; [rewrite Hp, Hp1, <- app_assoc; reflexivity|].
    repeat split; try congruence; try assumption.
Qed.

(** A run of pushes without failures puts on the pipe, frame after frame, a
    dimension packet when the sizes changed, the timestamp, and the packed
    planes. *)
Theorem push_all_stream frames :
  forall fps w,
    streaming fps -> sink_inv fps -> Forall wf_frame frames ->
    wscript w = [] -> mscript w = [] ->
    exists fps' w',
      push_all AV_NOPTS_VALUE av_rescale_q fps w frames
      = Some (map (fun _ => true) frames, fps', w') /\
      pipe_bytes (trace w') =
      pipe_bytes (trace w)
      ++ expected_stream AV_NOPTS_VALUE av_rescale_q fps
           (width fps) (height fps) frames.
Proof.
  induction frames as [|frame frames IH]; intros fps w Hs Hinv Hwf Hws Hms.
  - exists fps, w. cbn. now rewrite app_nil_r.
  - inversion Hwf as [|? ? Hf Hfs]; subst.
    destruct (push_ok_stream fps w frame Hs Hinv Hf Hws Hms)
      as (fps1 & w1 & E & Hp & Hw1 & Hh1 & Hs1 & Hinv1 & Htb & Hws1 & Hms1).
    destruct (IH fps1 w1 Hs1 Hinv1 Hfs Hws1 Hms1) as (fps2 & w2 & E2 & Hp2).
    exists fps2, w2. cbn [push_all map]. rewrite E, E2.
    split; [reflexivity|].
    rewrite Hp2, Hp, Hw1, Hh1. cbn [expected_stream].
    rewrite <- !app_assoc. do 4 f_equal.
    assert (Hpts : forall g, pts_us fps1 g = pts_us fps g)
      by (intros g; unfold pts_us_of; now rewrite Htb).
    clear - Hpts. generalize (AV.width frame), (AV.height frame).
    induction frames as [|g gs IHg]; intros lw lh; cbn [expected_stream];
      [reflexivity|].
    now rewrite Hpts, IHg.
Qed.

End Stream.

(** The end-to-end stream of one 2x2 frame with timestamp 0: the 12-byte
    header, the 8-byte timestamp and the 6-byte payload, 26 bytes. *)
Example stream_one_frame :
  let '(fps, w) := Sample.opened in
  option_map (fun r => pipe_bytes (trace (snd r)))
    (push_all Sample.NOPTS Sample.rescale fps w [Sample.tight])
  = Some ([89; 85; 86; 52; 2; 0; 0; 0; 2; 0; 0; 0]
          ++ [0; 0; 0; 0; 0; 0; 0; 0]
          ++ [1; 2; 3; 4; 5; 6]).
Proof. reflexivity. Qed.

(** Four frames of sizes 2x2, 2x2, 4x2, 2x2: three dimension packets and
    four frame packets, eleven writes in all. *)
Example stream_size_changes :
  let '(fps, w) := Sample.opened in
  option_map
    (fun r =>
       (fst (fst r),
        map (fun e => Mem.len (requested e))
            (filter is_write (trace (snd r)))))
    (push_all Sample.NOPTS Sample.rescale fps w
       [Sample.tight; Sample.padded; Sample.wide; Sample.tight])
  = Some ([true; true; true; true],
          [12; 8; 6; 8; 6; 12; 8; 12; 12; 8; 6]).
Proof. reflexivity. Qed.

(** ** The theorems on sample frames *)

Ltac by_computation :=
  vm_compute; first [reflexivity | discriminate | intuition discriminate].

Ltac sample_frame :=
  constructor;
  [ constructor; by_computation
  | unfold plane_ok; by_computation ..
  | first [left; by_computation | right; by_computation] ].

Lemma wf_tight : wf_frame Sample.tight.
Proof. sample_frame. Qed.

Lemma wf_padded : wf_frame Sample.padded.
Proof. sample_frame. Qed.

Lemma wf_wide : wf_frame Sample.wide.
Proof. sample_frame. Qed.

Lemma offsets_padded : row_offsets_ok Sample.padded.
Proof. by_computation. Qed.

Lemma streaming_opened : streaming (fst Sample.opened).
Proof. split; by_computation. Qed.

Lemma sink_inv_opened : sink_inv (fst Sample.opened).
Proof. intros _. reflexivity. Qed.

Lemma frame_ok_tight : frame_ok Sample.tight.
Proof. constructor; [constructor; by_computation | by_computation ..]. Qed.

Lemma frame_ok_padded : frame_ok Sample.padded.
Proof. constructor; [constructor; by_computation | by_computation ..]. Qed.

Lemma payload_is_packed_planes_witness :
  frame_ok Sample.padded /\
  exists fps' w' e,
    write_frame_data (fst Sample.opened) (snd Sample.opened) Sample.padded
    = Some (true, fps', w') /\
    trace w' = trace (snd Sample.opened) ++ [e] /\
    delivered e = [1; 2; 3; 4; 5; 6].
Proof.
  split; [exact frame_ok_padded|].
  destruct (payload_is_packed_planes (fst Sample.opened) (snd Sample.opened)
              Sample.padded frame_ok_padded) as (Hbytes & Hret).
  destruct (Hret wf_padded eq_refl) as (_ & Hsucc).
  destruct (Hsucc eq_refl eq_refl) as (fps' & w' & E).
  destruct (Hbytes fps' w' E) as (e & Ht & Hd & _).
  exists fps', w', e. split; [exact E|]. split; [exact Ht|]. exact Hd.
Defined.

Lemma direct_and_copy_agree_witness :
  wf_frame Sample.tight /\ unpadded Sample.tight /\
  wf_frame Sample.padded /\ row_offsets_ok Sample.padded /\
  same_pixels Sample.tight Sample.padded /\
  buf_ok (fst Sample.opened) /\
  exists okd wd ed okc sc wc ec,
    write_direct (fst Sample.opened) (snd Sample.opened) Sample.tight
    = Some (okd, fst Sample.opened, wd) /\
    trace wd = trace (snd Sample.opened) ++ [ed] /\
    write_copy (fst Sample.opened) (snd Sample.opened) Sample.padded
    = Some (okc, sc, wc) /\
    trace wc = trace (snd Sample.opened) ++ [ec] /\
    requested ed = requested ec /\
    (hd WAll (wscript (snd Sample.opened))
     = hd WAll (wscript (snd Sample.opened)) ->
     delivered ed = delivered ec /\ okd = okc).
Proof.
  assert (Hun : unpadded Sample.tight) by (repeat split).
  assert (Hsame : same_pixels Sample.tight Sample.padded) by (repeat split).
  assert (Hok : buf_ok (fst Sample.opened)) by reflexivity.
  split; [exact wf_tight|]. split; [exact Hun|]. split; [exact wf_padded|].
  split; [exact offsets_padded|].
  split; [exact Hsame|]. split; [exact Hok|].
  exact (direct_and_copy_agree (fst Sample.opened) (snd Sample.opened)
           Sample.tight (fst Sample.opened) (snd Sample.opened) Sample.padded
           wf_tight Hun wf_padded offsets_padded Hsame Hok eq_refl).
Defined.

Lemma header_iff_size_changed_witness :
  streaming (fst Sample.opened) /\
  exists ok fps' w',
    sc_frame_pipe_sink_push Sample.NOPTS Sample.rescale
      (fst Sample.opened) (snd Sample.opened) Sample.wide
    = Some (ok, fps', w') /\
    exists ret rest,
      trace w' = trace (snd Sample.opened) ++
        EWrite (fd (fst Sample.opened))
          (header_bytes (AV.width Sample.wide) (AV.height Sample.wide)) ret
        :: rest.
Proof.
  split; [exact streaming_opened|].
  destruct (sc_frame_pipe_sink_push Sample.NOPTS Sample.rescale
              (fst Sample.opened) (snd Sample.opened) Sample.wide)
    as [[[ok fps'] w']|] eqn:E; [|vm_compute in E; discriminate].
  exists ok, fps', w'. split; [reflexivity|].
  destruct (header_iff_size_changed Sample.NOPTS Sample.rescale
              _ _ _ _ _ _ streaming_opened E) as (H & _).
  destruct H as (ret & rest & Ht & _); [left; by_computation|].
  exists ret, rest. exact Ht.
Defined.

Lemma pts_field_encoding_witness :
  INT64_MIN <= -5 <= INT64_MAX /\
  pts_bytes (-5) = [251; 255; 255; 255; 255; 255; 255; 255] /\
  decode_i64_le (pts_bytes (-5)) = -5 /\
  AV.pts Sample.no_pts = Sample.NOPTS /\
  pts_bytes (pts_us_of Sample.NOPTS Sample.rescale
               (fst Sample.opened) Sample.no_pts)
  = [0; 0; 0; 0; 0; 0; 0; 0].
Proof.
  assert (Hv : INT64_MIN <= -5 <= INT64_MAX) by (split; by_computation).
  destruct (pts_field_encoding Sample.NOPTS Sample.rescale
              (fst Sample.opened) (snd Sample.opened) Sample.no_pts (-5) Hv)
    as (_ & _ & _ & Hd & _ & Hno).
  split; [exact Hv|]. split; [reflexivity|]. split; [exact Hd|].
  split; [reflexivity|].
  exact (proj1 (proj2 (Hno eq_refl))).
Defined.

Lemma stopped_is_permanent_witness :
  streaming (fst Sample.opened) /\
  (exists fps' w',
     sc_frame_pipe_sink_push Sample.NOPTS Sample.rescale
       (fst Sample.opened) Sample.broken_pipe Sample.tight
     = Some (false, fps', w') /\ stopped fps' = true) /\
  stopped Sample.stopped_sink = true /\
  exists oks fps' w',
    run_ops Sample.NOPTS Sample.rescale Sample.stopped_sink Sample.world0
      [OpPush Sample.tight; OpClose; OpPush Sample.wide]
    = Some (oks, fps', w') /\
    stopped fps' = true /\
    Forall (fun ok => ok = false) oks /\
    filter is_write (trace w') = filter is_write (trace Sample.world0) /\
    pipe_bytes (trace w') = pipe_bytes (trace Sample.world0) /\
    wscript w' = wscript Sample.world0.
Proof.
  split; [exact streaming_opened|]. split.
  - destruct (sc_frame_pipe_sink_push Sample.NOPTS Sample.rescale
                (fst Sample.opened) Sample.broken_pipe Sample.tight)
      as [[[ok fps'] w']|] eqn:E; [|vm_compute in E; discriminate].
    assert (Hok : ok = false) by (vm_compute in E; congruence).
    subst ok. exists fps', w'. split; [reflexivity|].
    apply (proj1 (stopped_is_permanent Sample.NOPTS Sample.rescale
                    (fst Sample.opened) Sample.broken_pipe)
             Sample.tight false fps' w' streaming_opened E).
    reflexivity.
  - split; [reflexivity|].
    exact (proj2 (proj2 (stopped_is_permanent Sample.NOPTS Sample.rescale
                           Sample.stopped_sink Sample.world0))
             eq_refl [OpPush Sample.tight; OpClose; OpPush Sample.wide]).
Defined.

Lemma scratch_buffer_only_grows_witness :
  sink_inv (fst Sample.opened) /\
  exists oks fps1 w1 ok fps2 w2,
    push_all Sample.NOPTS Sample.rescale
      (fst Sample.opened) (snd Sample.opened) [Sample.padded]
    = Some (oks, fps1, w1) /\
    sc_frame_pipe_sink_push Sample.NOPTS Sample.rescale fps1 w1 Sample.wide
    = Some (ok, fps2, w2) /\
    frame_buf_size (fst Sample.opened) <= frame_buf_size fps1 /\
    frame_buf_size fps1 <= frame_buf_size fps2.
Proof.
  split; [exact sink_inv_opened|].
  destruct (push_all Sample.NOPTS Sample.rescale
              (fst Sample.opened) (snd Sample.opened) [Sample.padded])
    as [[[oks fps1] w1]|] eqn:E1; [|vm_compute in E1; discriminate].
  destruct (sc_frame_pipe_sink_push Sample.NOPTS Sample.rescale
              fps1 w1 Sample.wide)
    as [[[ok fps2] w2]|] eqn:E2;
    [|vm_compute in E1; injection E1 as <- <- <-;
      vm_compute in E2; discriminate].
  exists oks, fps1, w1, ok, fps2, w2.
  split; [reflexivity|]. split; [exact E2|].
  destruct (scratch_buffer_only_grows Sample.NOPTS Sample.rescale
              _ _ _ _ _ _ _ _ _ _ sink_inv_opened E1 E2) as (H1 & H2 & _).
  split; assumption.
Defined.

Lemma push_unopened_or_stopped_witness :
  (fd Sample.fresh < 0 \/ stopped Sample.fresh = true) /\
  sc_frame_pipe_sink_push Sample.NOPTS Sample.rescale
    Sample.fresh Sample.world0 Sample.tight
  = Some (false, Sample.fresh, Sample.world0).
Proof.
  assert (H : fd Sample.fresh < 0 \/ stopped Sample.fresh = true)
    by (left; reflexivity).
  split; [exact H|].
  exact (push_unopened_or_stopped Sample.NOPTS Sample.rescale
           Sample.fresh Sample.world0 Sample.tight H).
Defined.

Lemma push_after_close_or_failed_open_witness :
  fd (fst Sample.opened) = 5 /\
  fd (fst (sc_frame_pipe_sink_close (fst Sample.opened) (snd Sample.opened)))
  = -1 /\
  (let '(fps1, w1) :=
     sc_frame_pipe_sink_close (fst Sample.opened) (snd Sample.opened) in
   sc_frame_pipe_sink_push Sample.NOPTS Sample.rescale fps1 w1 Sample.tight
   = Some (false, fps1, w1)) /\
  (fd Sample.fresh < 0 /\
   sc_frame_pipe_sink_open Sample.fresh Sample.world0 Sample.tb (-1) 5
   = (false, set_time_base Sample.fresh Sample.tb,
      log (EMkfifo "/tmp/frames" (-1))
          (log (EUnlink "/tmp/frames") Sample.world0)) /\
   sc_frame_pipe_sink_push Sample.NOPTS Sample.rescale
     (set_time_base Sample.fresh Sample.tb)
     (log (EMkfifo "/tmp/frames" (-1))
          (log (EUnlink "/tmp/frames") Sample.world0))
     Sample.tight
   = Some (false, set_time_base Sample.fresh Sample.tb,
           log (EMkfifo "/tmp/frames" (-1))
               (log (EUnlink "/tmp/frames") Sample.world0))).
Proof.
  split; [reflexivity|]. split; [reflexivity|]. split.
  - exact (proj2 (proj2 (proj1
      (push_after_close_or_failed_open Sample.NOPTS Sample.rescale
         (fst Sample.opened) (snd Sample.opened)
         Sample.tight)))).
  - split; [reflexivity|]. split; [reflexivity|].
    exact (proj2 (proj1 (proj2
      (push_after_close_or_failed_open Sample.NOPTS Sample.rescale
         Sample.fresh Sample.world0
         Sample.tight))
      Sample.tb (-1) 5 _ _ eq_refl eq_refl)).
Defined.

(** ** More on the encoders *)

Section Encoders.

Lemma decode_header_bytes wd ht :
  decode_le (firstn 4 (skipn 4 (header_bytes wd ht))) = wd mod 2 ^ 32 /\
  decode_le (skipn 8 (header_bytes wd ht)) = ht mod 2 ^ 32.
Proof.
  cbn [header_bytes magic app skipn firstn].
  now rewrite !decode_u32_bytes.
Qed.

(** The dimension packet tells the sizes apart: two pairs of [int]s with the
    same 12 bytes are the same pair, negative and zero sizes included (a
    negative size is written as its 32-bit two's complement). *)
Theorem header_bytes_injective (wd ht wd' ht' : Z) :
  INT_MIN <= wd <= INT_MAX -> INT_MIN <= ht <= INT_MAX ->
  INT_MIN <= wd' <= INT_MAX -> INT_MIN <= ht' <= INT_MAX ->
  header_bytes wd ht = header_bytes wd' ht' ->
  wd = wd' /\ ht = ht'.
Proof.
  unfold INT_MIN, INT_MAX. intros Hw Hh Hw' Hh' E.
  destruct (decode_header_bytes wd ht) as [E1 E2].
  destruct (decode_header_bytes wd' ht') as [E1' E2'].
  rewrite E in E1, E2. rewrite E1' in E1. rewrite E2' in E2.
  split; Z.div_mod_to_equations; lia.
Qed.

(** The timestamps whose first four bytes on the pipe are the magic "YUV4"
    are exactly those congruent to 878073177 modulo 2^32. *)
Theorem pts_magic_collisions (v : Z) :
  firstn 4 (pts_bytes v) = magic <-> v mod 2 ^ 32 = 878073177.
Proof.
  cbn [pts_bytes firstn]. split.
  - intros E.
    assert (D : decode_le [ Z.land v 255; Z.land (Z.shiftr v 8) 255;
                            Z.land (Z.shiftr v 16) 255;
                            Z.land (Z.shiftr v 24) 255 ]
                = decode_le magic) by now rewrite E.
    rewrite decode_u32_bytes in D. exact D.
  - intros E. rewrite !land_255_mod, !Z.shiftr_div_pow2 by lia.
    unfold magic. change (char "Y") with 89. change (char "U") with 85.
    change (char "V") with 86. change (char "4") with 52.
    repeat f_equal; Z.div_mod_to_equations; lia.
Qed.

(** The sizes write_frame_data computes never wrap: for all non-negative
    [int] sizes the frame size is w*h + 2*(w/2)*(h/2), below 2^63, so the
    cast to ssize_t keeps it; it is at most w*h*3/2, and less as soon as a
    size is odd. *)
Theorem frame_size_no_wrap (f : AV.AVFrame) :
  0 <= AV.width f <= INT_MAX -> 0 <= AV.height f <= INT_MAX ->
  y_size_of f = AV.width f * AV.height f /\
  uv_size_of f = (AV.width f / 2) * (AV.height f / 2) /\
  frame_size_of f
  = AV.width f * AV.height f + 2 * ((AV.width f / 2) * (AV.height f / 2)) /\
  frame_size_of f < 2 ^ 63 /\
  to_ssize_t (frame_size_of f) = frame_size_of f /\
  2 * frame_size_of f <= 3 * (AV.width f * AV.height f) /\
  (0 < AV.width f -> 0 < AV.height f ->
   AV.width f mod 2 = 1 \/ AV.height f mod 2 = 1 ->
   2 * frame_size_of f < 3 * (AV.width f * AV.height f)).
Proof.
  unfold INT_MAX. intros Hw Hh.
  set (W := AV.width f) in *. set (H := AV.height f) in *.
  assert (Ea : 0 <= W / 2 /\ 2 * (W / 2) <= W /\ W <= 2 * (W / 2) + 1)
    by (Z.div_mod_to_equations; lia).
  assert (Eb : 0 <= H / 2 /\ 2 * (H / 2) <= H /\ H <= 2 * (H / 2) + 1)
    by (Z.div_mod_to_equations; lia).
  assert (Ey : y_size_of f = W * H).
  { unfold y_size_of, to_size_t. fold W H.
    rewrite (Z.mod_small W), (Z.mod_small H) by lia.
    apply Z.mod_small. nia. }
  assert (Eu : uv_size_of f = (W / 2) * (H / 2)).
  { unfold uv_size_of, uv_width_of, uv_height_of, to_size_t. fold W H.
    rewrite !Z.quot_div_nonneg by lia.
    rewrite (Z.mod_small (W / 2)), (Z.mod_small (H / 2)) by lia.
    apply Z.mod_small. nia. }
  assert (Ef : frame_size_of f = W * H + 2 * ((W / 2) * (H / 2))).
  { unfold frame_size_of. rewrite Ey, Eu. unfold to_size_t.
    rewrite (Z.mod_small (_ * 2)) by nia.
    rewrite Z.mod_small by nia. lia. }
  assert (Eab : (W / 2) * (H / 2) * 4 <= W * H) by nia.
  split; [exact Ey|]. split; [exact Eu|]. split; [exact Ef|].
  split; [rewrite Ef; nia|]. split; [|split].
  - unfold to_ssize_t. rewrite Z.mod_small; [lia|]. rewrite Ef. nia.
  - rewrite Ef. lia.
  - intros Pw Ph Hodd. rewrite Ef.
    assert (Hcase : W = 2 * (W / 2) + 1 \/ H = 2 * (H / 2) + 1)
      by (destruct Hodd; [left|right]; Z.div_mod_to_equations; lia).
    destruct Hcase; nia.
Qed.

End Encoders.

(** ** open and close *)

Section OpenClose.

Lemma log_trace e w : trace (log e w) = trace w ++ [e].
Proof. reflexivity. Qed.

(** open succeeds exactly when both mkfifo and open do.  It never writes to
    the pipe and never touches the scratch buffer.  When mkfifo fails, no
    open is attempted and the descriptor field is left alone; when open
    fails, the FIFO just created is unlinked again; a failed open also leaves
    the stored sizes and the stopped flag alone.  On success the descriptor
    is the new one, the sizes are forgotten and stopped is cleared. *)
Theorem open_outcomes fps w tb mk op ok fps' w' :
  sc_frame_pipe_sink_open fps w tb mk op = (ok, fps', w') ->
  (ok = true <-> 0 <= mk /\ 0 <= op) /\
  time_base fps' = tb /\ pipe_path fps' = pipe_path fps /\
  frame_buf fps' = frame_buf fps /\
  frame_buf_size fps' = frame_buf_size fps /\
  wscript w' = wscript w /\ mscript w' = mscript w /\
  pipe_bytes (trace w') = pipe_bytes (trace w) /\
  (mk < 0 ->
   trace w' = trace w ++ [EUnlink (pipe_path fps);
                          EMkfifo (pipe_path fps) mk] /\
   fd fps' = fd fps) /\
  (0 <= mk -> op < 0 ->
   trace w' = trace w ++ [EUnlink (pipe_path fps);
                          EMkfifo (pipe_path fps) mk;
                          EOpen (pipe_path fps) op;
                          EUnlink (pipe_path fps)] /\
   fd fps' = op) /\
  (ok = false ->
   stopped fps' = stopped fps /\ width fps' = width fps /\
   height fps' = height fps) /\
  (ok = true ->
   trace w' = trace w ++ [EUnlink (pipe_path fps);
                          EMkfifo (pipe_path fps) mk;
                          EOpen (pipe_path fps) op] /\
   fd fps' = op /\ stopped fps' = false /\
   width fps' = 0 /\ height fps' = 0).
Proof.
  unfold sc_frame_pipe_sink_open.
  destruct (Z.ltb_spec mk 0) as [Hm|Hm].
  - intros [= <- <- <-]. cbn.
    rewrite <- !app_assoc, !pipe_bytes_app. cbn. rewrite app_nil_r.
    repeat split; try reflexivity; try lia; try discriminate.
  - cbn [fd set_fd]. destruct (Z.ltb_spec op 0) as [Ho|Ho].
    + intros [= <- <- <-]. cbn.
      rewrite <- !app_assoc, !pipe_bytes_app. cbn. rewrite app_nil_r.
      repeat split; try reflexivity; try lia; try discriminate.
    + intros [= <- <- <-]. cbn.
      rewrite <- !app_assoc, !pipe_bytes_app. cbn. rewrite app_nil_r.
      repeat split; try reflexivity; try lia; try discriminate.
Qed.

(** close closes the descriptor when there is one and only then, unlinks the
    FIFO, and leaves the sink with a negative descriptor; it keeps the
    scratch buffer, the stored sizes and the stopped flag, and writes
    nothing.  A second close changes nothing in the sink and only unlinks
    again. *)
Theorem close_twice fps w fps1 w1 fps2 w2 :
  sc_frame_pipe_sink_close fps w = (fps1, w1) ->
  sc_frame_pipe_sink_close fps1 w1 = (fps2, w2) ->
  fd fps1 < 0 /\ fps2 = fps1 /\
  trace w1 = trace w
             ++ (if 0 <=? fd fps then [EClose (fd fps)] else [])
             ++ [EUnlink (pipe_path fps)] /\
  trace w2 = trace w1 ++ [EUnlink (pipe_path fps)] /\
  (frame_buf fps1 = frame_buf fps /\
   frame_buf_size fps1 = frame_buf_size fps /\
   stopped fps1 = stopped fps /\ width fps1 = width fps /\
   height fps1 = height fps) /\
  wscript w2 = wscript w /\ mscript w2 = mscript w /\
  pipe_bytes (trace w2) = pipe_bytes (trace w).
Proof.
  unfold sc_frame_pipe_sink_close.
  destruct (Z.leb_spec 0 (fd fps)) as [Hf|Hf].
  - intros [= <- <-]. cbn [fd set_fd].
    destruct (Z.leb_spec 0 (-1)); [lia|].
    intros [= <- <-]. cbn.
    rewrite <- !app_assoc, !pipe_bytes_app. cbn. rewrite app_nil_r.
    repeat split; lia.
  - intros [= <- <-].
    destruct (Z.leb_spec 0 (fd fps)); [lia|].
    intros [= <- <-]. cbn.
    rewrite <- !app_assoc, !pipe_bytes_app. cbn. rewrite app_nil_r.
    repeat split; lia.
Qed.

End OpenClose.

(** ** The paths of write_frame_data, one by one *)

Section Paths.

Lemma frame_size_nonneg f : 0 <= frame_size_of f.
Proof. unfold frame_size_of, to_size_t. apply Z.mod_pos_bound. lia. Qed.

Lemma wf_padded_offsets f :
  wf_frame f -> can_write_direct f = false -> row_offsets_ok f.
Proof.
  intros Hwf Hd. destruct (wf_offsets f Hwf) as [Hun|Hoff]; [|exact Hoff].
  apply (can_write_direct_unpadded f (wf_dims f Hwf)) in Hun. congruence.
Qed.

(** The buffer is there and large enough: no malloc. *)
Lemma write_copy_reuse fps w f b :
  wf_frame f -> row_offsets_ok f ->
  frame_buf fps = Some b -> frame_size_of f <= frame_buf_size fps ->
  frame_buf_size fps = Mem.len b ->
  write_copy fps w f =
  Some (write_ret (hd WAll (wscript w)) (frame_size_of f) =? frame_size_of f,
        set_frame_buf fps
          (Some (packed_yuv420p f ++ skipn (Z.to_nat (frame_size_of f)) b)),
        after_write w
          (EWrite (fd fps) (packed_yuv420p f)
             (write_ret (hd WAll (wscript w)) (frame_size_of f)))).
Proof.
  intros Hwf Hoff Hb Hsz Hl. unfold write_copy. rewrite Hb.
  destruct (Z.ltb_spec (frame_buf_size fps) (frame_size_of f)); [lia|].
  apply (copy_and_write_spec f Hwf fps w b Hoff Hb). lia.
Qed.

(** No buffer, or one that is too small, and malloc returns a block. *)
Lemma write_copy_alloc fps w f :
  wf_frame f -> row_offsets_ok f ->
  frame_buf fps = None \/ frame_buf_size fps < frame_size_of f ->
  hd true (mscript w) = true ->
  write_copy fps w f =
  Some (write_ret (hd WAll (wscript w)) (frame_size_of f) =? frame_size_of f,
        set_frame_buf
          (set_frame_buf_size fps (frame_size_of f))
          (Some (packed_yuv420p f)),
        after_write (mkWorld (trace w) (wscript w) (tl (mscript w)))
          (EWrite (fd fps) (packed_yuv420p f)
             (write_ret (hd WAll (wscript w)) (frame_size_of f)))).
Proof.
  intros Hwf Hoff Hneed Hm. unfold write_copy.
  pose proof (frame_size_nonneg f) as Hfs.
  assert (Er : match frame_buf fps with
               | Some _ => frame_buf_size fps <? frame_size_of f
               | None => true
               end = true).
  { destruct Hneed as [-> |Hlt]; [reflexivity|].
    destruct (frame_buf fps); [|reflexivity]. now apply Z.ltb_lt. }
  rewrite Er, sys_malloc_eq, Hm.
  erewrite (copy_and_write_spec f Hwf);
    [| exact Hoff | reflexivity | unfold Mem.len; rewrite repeat_length; lia].
  rewrite skipn_all2 by (rewrite repeat_length; lia).
  now rewrite app_nil_r.
Qed.

(** No buffer, or one that is too small, and malloc returns NULL: nothing is
    read from the frame. *)
Lemma write_copy_nomem fps w f :
  frame_buf fps = None \/ frame_buf_size fps < frame_size_of f ->
  hd true (mscript w) = false ->
  write_copy fps w f =
  Some (false, set_frame_buf fps None,
        mkWorld (trace w) (wscript w) (tl (mscript w))).
Proof.
  intros Hneed Hm. unfold write_copy.
  assert (Er : match frame_buf fps with
               | Some _ => frame_buf_size fps <? frame_size_of f
               | None => true
               end = true).
  { destruct Hneed as [-> |Hlt]; [reflexivity|].
    destruct (frame_buf fps); [|reflexivity]. now apply Z.ltb_lt. }
  now rewrite Er, sys_malloc_eq, Hm.
Qed.

(** The fast path is zero-copy: an unpadded frame goes out in one writev
    whose three buffers are the first bytes of the three planes; the sink is
    not changed, the scratch buffer is neither used nor allocated. *)
Theorem direct_path_zero_copy fps w f :
  wf_frame f -> unpadded f ->
  write_frame_data fps w f =
  Some (write_ret (hd WAll (wscript w)) (frame_size_of f) =? frame_size_of f,
        fps,
        after_write w
          (EWritev (fd fps)
             [ firstn (Z.to_nat (AV.width f * AV.height f)) (AV.data_at f 0);
               firstn (Z.to_nat ((AV.width f / 2) * (AV.height f / 2)))
                      (AV.data_at f 1);
               firstn (Z.to_nat ((AV.width f / 2) * (AV.height f / 2)))
                      (AV.data_at f 2) ]
             (write_ret (hd WAll (wscript w)) (frame_size_of f)))).
Proof.
  intros Hwf Hun. pose proof Hun as (L0 & L1 & L2).
  pose proof (halves_wf f (wf_dims f Hwf)) as [Ew Eh].
  unfold write_frame_data.
  rewrite (proj2 (can_write_direct_unpadded f (wf_dims f Hwf)) Hun).
  rewrite (write_direct_spec f Hwf fps w Hun).
  destruct Hwf as [[Hw Hh Hwe Hhe] (_ & By) (_ & Bu) (_ & Bv) _].
  rewrite L0 in By. rewrite L1 in Bu. rewrite L2 in Bv.
  unfold y_rows, u_rows, v_rows. rewrite L0, L1, L2.
  rewrite !plane_rows_unpadded by nia.
  rewrite !Z2Nat.id by lia.
  now rewrite (Z.mul_comm (AV.height f)), (Z.mul_comm (AV.height f / 2)).
Qed.

(** The scratch buffer is reused when it is large enough: a padded frame
    that fits is copied and written without a malloc, the recorded size
    stays, and the bytes of the buffer past the frame are kept. *)
Theorem copy_path_reuses_buffer fps w f b :
  wf_frame f -> can_write_direct f = false ->
  frame_buf fps = Some b -> frame_buf_size fps = Mem.len b ->
  frame_size_of f <= frame_buf_size fps ->
  exists fps' w',
    write_frame_data fps w f =
    Some (write_ret (hd WAll (wscript w)) (frame_size_of f)
            =? frame_size_of f, fps', w') /\
    trace w' = trace w ++
      [EWrite (fd fps) (packed_yuv420p f)
         (write_ret (hd WAll (wscript w)) (frame_size_of f))] /\
    mscript w' = mscript w /\
    frame_buf_size fps' = frame_buf_size fps /\
    frame_buf fps'
    = Some (packed_yuv420p f ++ skipn (Z.to_nat (frame_size_of f)) b) /\
    same_control fps fps'.
Proof.
  intros Hwf Hd Hb Hl Hsz. unfold write_frame_data. rewrite Hd.
  rewrite (write_copy_reuse fps w f b Hwf (wf_padded_offsets f Hwf Hd)
             Hb Hsz Hl).
  eexists _, _. split; [reflexivity|]. repeat split.
Qed.

(** The scratch buffer is allocated at the size of the frame: with no
    buffer, or one that is too small, a padded frame gets a new buffer of
    exactly frame_size bytes, whatever size was recorded before, and after
    the copy the buffer holds the packed payload. *)
Theorem copy_path_allocates_exact fps w f :
  wf_frame f -> can_write_direct f = false ->
  frame_buf fps = None \/ frame_buf_size fps < frame_size_of f ->
  hd true (mscript w) = true ->
  exists fps' w',
    write_frame_data fps w f =
    Some (write_ret (hd WAll (wscript w)) (frame_size_of f)
            =? frame_size_of f, fps', w') /\
    trace w' = trace w ++
      [EWrite (fd fps) (packed_yuv420p f)
         (write_ret (hd WAll (wscript w)) (frame_size_of f))] /\
    mscript w' = tl (mscript w) /\
    frame_buf_size fps' = frame_size_of f /\
    frame_buf fps' = Some (packed_yuv420p f) /\
    Mem.len (packed_yuv420p f) = frame_size_of f /\
    same_control fps fps'.
Proof.
  intros Hwf Hd Hneed Hm. unfold write_frame_data. rewrite Hd.
  rewrite (write_copy_alloc fps w f Hwf (wf_padded_offsets f Hwf Hd)
             Hneed Hm).
  eexists _, _. split; [reflexivity|].
  repeat split. apply (packed_length f Hwf).
Qed.

End Paths.

(** ** push, forwards *)

Section PushForward.

Variable AV_NOPTS_VALUE : Z.
Variable av_rescale_q : Z -> AV.AVRational -> AV.AVRational -> Z.

Local Abbreviation push :=
  (sc_frame_pipe_sink_push AV_NOPTS_VALUE av_rescale_q).
Local Abbreviation pts_us := (pts_us_of AV_NOPTS_VALUE av_rescale_q).
Local Abbreviation packet := (push_packet AV_NOPTS_VALUE av_rescale_q).

Lemma buf_ok_fits fps : buf_ok fps -> buf_fits fps.
Proof. unfold buf_ok, buf_fits. intros Hok b Hb. now rewrite Hb in Hok. Qed.

Lemma buf_fits_cases fps :
  buf_fits fps -> buf_ok fps \/ frame_buf fps = None.
Proof.
  unfold buf_ok, buf_fits. intros Hf.
  destruct (frame_buf fps) as [b|]; [left; now apply Hf | now right].
Qed.

(** write_frame_data on a readable frame, whatever size a NULL buffer is
    recorded with. *)
Lemma write_frame_data_fits fps w f :
  wf_frame f -> buf_fits fps ->
  exists ok fps' w',
    write_frame_data fps w f = Some (ok, fps', w') /\
    ((ok = false /\ trace w' = trace w /\ can_write_direct f = false /\
      hd true (mscript w) = false)
     \/
     (exists e,
        trace w' = trace w ++ [e] /\ is_write e = true /\
        requested e = packed_yuv420p f /\
        returned e = write_ret (hd WAll (wscript w)) (frame_size_of f) /\
        ok = (returned e =? frame_size_of f) /\
        wscript w' = tl (wscript w))).
Proof.
  intros Hwf Hfits.
  destruct (buf_fits_cases fps Hfits) as [Hok|Hnone];
    [now apply write_frame_data_wf|].
  unfold write_frame_data. destruct (can_write_direct f) eqn:Ed.
  - assert (Hun : unpadded f)
      by now apply (can_write_direct_unpadded f (wf_dims f Hwf)).
    rewrite (write_direct_spec f Hwf fps w Hun).
    eexists _, _, _. split; [reflexivity|]. right.
    eexists. repeat split.
    cbn [requested concat]. unfold packed_yuv420p. now rewrite app_nil_r.
  - destruct (hd true (mscript w)) eqn:Em.
    + rewrite (write_copy_alloc fps w f Hwf (wf_padded_offsets f Hwf Ed)
                 (or_introl Hnone) Em).
      eexists _, _, _. split; [reflexivity|]. right.
      eexists. repeat split.
    + rewrite (write_copy_nomem fps w f (or_introl Hnone) Em).
      eexists _, _, _. split; [reflexivity|]. left. repeat split.
Qed.

(** write_frame_data keeps buffer and recorded size in agreement. *)
Lemma write_frame_data_keeps_fits fps w f ok fps' w' :
  buf_fits fps ->
  write_frame_data fps w f = Some (ok, fps', w') ->
  buf_fits fps'.
Proof.
  intros Hfits. unfold write_frame_data. destruct (can_write_direct f).
  - unfold write_direct.
    destruct (Mem.read _ 0 (y_size_of f)) as [i0|]; [|discriminate].
    destruct (Mem.read _ 0 (uv_size_of f)) as [i1|]; [|discriminate].
    destruct (Mem.read _ 0 (uv_size_of f)) as [i2|]; [|discriminate].
    rewrite sys_writev_eq.
    match goal with
    | |- context [if ?c then _ else _] => destruct c
    end; intros [= _ <- _]; exact Hfits.
  - unfold write_copy. pose proof (frame_size_nonneg f) as Hfs.
    destruct (match frame_buf fps with
              | Some _ => frame_buf_size fps <? frame_size_of f
              | None => true
              end).
    + rewrite sys_malloc_eq. destruct (hd true (mscript w)).
      * intros E. apply copy_and_write_inv in E.
        destruct E as (_ & Hsz & (b & b' & Hb & Hb' & Hl) & _).
        cbn in Hsz, Hb. injection Hb as <-.
        intros b0 Hb0. rewrite Hb' in Hb0. injection Hb0 as <-.
        rewrite Hsz, Hl. unfold Mem.len. rewrite repeat_length. lia.
      * intros [= _ <- _]. intros b Hb. discriminate.
    + intros E. apply copy_and_write_inv in E.
      destruct E as (_ & Hsz & (b & b' & Hb & Hb' & Hl) & _).
      intros b0 Hb0. rewrite Hb' in Hb0. injection Hb0 as <-.
      rewrite Hsz, Hl. now apply Hfits.
Qed.

(** The event of write_frame_data, when there is one, is a write on the
    descriptor of the sink. *)
Lemma write_frame_data_event fps w f ok fps' w' :
  write_frame_data fps w f = Some (ok, fps', w') ->
  trace w' = trace w \/
  exists e, trace w' = trace w ++ [e] /\ event_fd e = Some (fd fps).
Proof.
  unfold write_frame_data. destruct (can_write_direct f).
  - unfold write_direct.
    destruct (Mem.read _ 0 (y_size_of f)) as [i0|]; [|discriminate].
    destruct (Mem.read _ 0 (uv_size_of f)) as [i1|]; [|discriminate].
    destruct (Mem.read _ 0 (uv_size_of f)) as [i2|]; [|discriminate].
    rewrite sys_writev_eq.
    match goal with
    | |- context [if ?c then _ else _] => destruct c
    end; intros [= _ _ <-]; right; eexists; split; reflexivity.
  - assert (Hcw : forall s w0,
              copy_and_write s w0 f = Some (ok, fps', w') ->
              exists e, trace w' = trace w0 ++ [e]
                        /\ event_fd e = Some (fd s)).
    { intros s w0. unfold copy_and_write.
      destruct (frame_buf s) as [b0|]; [|discriminate].
      destruct (copy_rows _ _ _ _ _ b0 0) as [[b1 d1]|]; [|discriminate].
      destruct (copy_rows _ _ _ _ _ b1 d1) as [[b2 d2]|]; [|discriminate].
      destruct (copy_rows _ _ _ _ _ b2 d2) as [[b3 d3]|]; [|discriminate].
      destruct (Mem.read b3 0 _) as [out|]; [|discriminate].
      rewrite sys_write_eq.
      match goal with
      | |- context [if ?c then _ else _] => destruct c
      end; intros [= _ _ <-]; eexists; split; reflexivity. }
    unfold write_copy.
    destruct (match frame_buf fps with
              | Some _ => frame_buf_size fps <? frame_size_of f
              | None => true
              end).
    + rewrite sys_malloc_eq. destruct (hd true (mscript w)).
      * intros E. apply Hcw in E. right. exact E.
      * intros [= _ _ <-]. now left.
    + intros E. apply Hcw in E. right. exact E.
Qed.

(** push on a streaming sink when the writes of the header and of the
    timestamp are taken in full. *)
Lemma push_forward fps w frame :
  streaming fps -> wscript w = [] ->
  push fps w frame =
  let same :=
    (AV.width frame =? width fps) && (AV.height frame =? height fps) in
  let fps1 :=
    if same then fps else set_size fps (AV.width frame) (AV.height frame) in
  let w1 :=
    if same then w
    else after_write w
           (EWrite (fd fps)
              (header_bytes (AV.width frame) (AV.height frame)) 12) in
  match
    write_frame_data fps1
      (after_write w1 (EWrite (fd fps) (pts_bytes (pts_us fps frame)) 8))
      frame
  with
  | Some (ok, fps2, w2) =>
      if ok then Some (true, fps2, w2)
      else Some (false, set_stopped fps2 true, w2)
  | None => None
  end.
Proof.
  intros [Hfd Hst] Hws. unfold sc_frame_pipe_sink_push.
  destruct (Z.ltb_spec (fd fps) 0); [lia|]. rewrite Hst. cbn [orb].
  assert (Hpts : forall s w0,
            fd s = fd fps -> time_base s = time_base fps -> wscript w0 = [] ->
            write_pts s w0 (pts_us s frame)
            = (true, after_write w0
                       (EWrite (fd fps) (pts_bytes (pts_us fps frame)) 8))).
  { intros s w0 Hs Ht Hw0. unfold write_pts. rewrite sys_write_eq, Hw0, Hs.
    unfold pts_us_of. rewrite Ht. reflexivity. }
  assert (Htail : forall s w0,
            (let '(ok, w2) := (true, w0) in
             if negb ok then Some (false, set_stopped s true, w2)
             else
               match write_frame_data s w2 frame with
               | Some (ok1, fps2, w3) =>
                   if negb ok1 then Some (false, set_stopped fps2 true, w3)
                   else Some (true, fps2, w3)
               | None => None
               end)
            = match write_frame_data s w0 frame with
              | Some (ok, fps2, w2) =>
                  if ok then Some (true, fps2, w2)
                  else Some (false, set_stopped fps2 true, w2)
              | None => None
              end).
  { intros s w0. cbn [negb].
    destruct (write_frame_data s w0 frame) as [[[[|] ?] ?]|]; reflexivity. }
  destruct ((AV.width frame =? width fps)
            && (AV.height frame =? height fps)) eqn:Esame.
  - apply andb_prop in Esame as [-> ->]. cbn [negb orb].
    rewrite (Hpts fps w eq_refl eq_refl Hws). apply Htail.
  - assert (Eor : negb (AV.width frame =? width fps)
                  || negb (AV.height frame =? height fps) = true).
    { destruct (AV.width frame =? width fps),
               (AV.height frame =? height fps); try reflexivity.
      discriminate. }
    rewrite Eor. unfold write_header. rewrite sys_write_eq, Hws.
    cbn [hd write_ret].
    change (Mem.len (header_bytes (AV.width frame) (AV.height frame)))
      with 12.
    change (to_size_t 12 =? 12) with true. cbn [negb].
    rewrite (Hpts (set_size fps (AV.width frame) (AV.height frame))
               (after_write w
                  (EWrite (fd fps)
                     (header_bytes (AV.width frame) (AV.height frame)) 12))
               eq_refl eq_refl);
      [apply Htail | cbn; now rewrite Hws].
Qed.

End PushForward.

(** ** push as its users see it *)

Section PushBehaviour.

Variable AV_NOPTS_VALUE : Z.
Variable av_rescale_q : Z -> AV.AVRational -> AV.AVRational -> Z.

Local Abbreviation push :=
  (sc_frame_pipe_sink_push AV_NOPTS_VALUE av_rescale_q).
Local Abbreviation pts_us := (pts_us_of AV_NOPTS_VALUE av_rescale_q).
Local Abbreviation packet := (push_packet AV_NOPTS_VALUE av_rescale_q).

(** The bytes on the pipe after the header stage and the timestamp. *)
Lemma header_and_pts_bytes fps w frame :
  let same :=
    (AV.width frame =? width fps) && (AV.height frame =? height fps) in
  let w1 :=
    if same then w
    else after_write w
           (EWrite (fd fps)
              (header_bytes (AV.width frame) (AV.height frame)) 12) in
  pipe_bytes
    (trace (after_write w1
              (EWrite (fd fps) (pts_bytes (pts_us fps frame)) 8)))
  = pipe_bytes (trace w)
    ++ (if same then []
        else header_bytes (AV.width frame) (AV.height frame))
    ++ pts_bytes (pts_us fps frame).
Proof.
  cbn zeta.
  destruct ((AV.width frame =? width fps)
            && (AV.height frame =? height fps));
    rewrite !after_write_trace, !pipe_bytes_app; cbn [app];
    rewrite <- ?app_assoc; reflexivity.
Qed.

(** One push when every write is taken in full and malloc returns a block,
    on a sink whose buffer and recorded size agree when there is a buffer. *)
Lemma push_ok_fits fps w frame :
  streaming fps -> buf_fits fps -> wf_frame frame ->
  wscript w = [] -> mscript w = [] ->
  exists fps' w',
    push fps w frame = Some (true, fps', w') /\
    pipe_bytes (trace w') = pipe_bytes (trace w) ++ packet fps frame /\
    streaming fps' /\ buf_fits fps' /\
    width fps' = AV.width frame /\ height fps' = AV.height frame /\
    time_base fps' = time_base fps /\
    wscript w' = [] /\ mscript w' = [].
Proof.
  intros Hs Hfits Hwf Hws Hms. pose proof Hs as [Hfd Hst].
  rewrite (push_forward AV_NOPTS_VALUE av_rescale_q fps w frame Hs Hws).
  pose proof (header_and_pts_bytes fps w frame) as Hbytes.
  cbn zeta in *.
  set (same := (AV.width frame =? width fps)
               && (AV.height frame =? height fps)) in *.
  set (fps1 := if same then fps
               else set_size fps (AV.width frame) (AV.height frame)).
  set (w1 := if same then w
             else after_write w
                    (EWrite (fd fps)
                       (header_bytes (AV.width frame) (AV.height frame))
                       12)) in *.
  set (w2 := after_write w1
               (EWrite (fd fps) (pts_bytes (pts_us fps frame)) 8)) in *.
  assert (H1 : fd fps1 = fd fps /\ stopped fps1 = stopped fps /\
               frame_buf fps1 = frame_buf fps /\
               frame_buf_size fps1 = frame_buf_size fps /\
               time_base fps1 = time_base fps /\
               width fps1 = AV.width frame /\ height fps1 = AV.height frame).
  { subst fps1. destruct same eqn:Es; [|repeat split].
    apply andb_prop in Es as [Ew Eh].
    apply Z.eqb_eq in Ew, Eh. repeat split; congruence. }
  destruct H1 as (Hf1 & Hs1 & Hb1 & Hz1 & Ht1 & Hw1 & Hh1).
  assert (Hfits1 : buf_fits fps1)
    by (intros b Hb; rewrite Hb1 in Hb; rewrite Hz1; now apply Hfits).
  assert (Hw2 : wscript w2 = [] /\ mscript w2 = []).
  { subst w2 w1. destruct same; cbn; rewrite Hws, Hms; split; reflexivity. }
  destruct Hw2 as [Hws2 Hms2].
  destruct (write_frame_data_fits fps1 w2 frame Hwf Hfits1)
    as (ok & fps2 & w3 & E & Hcase).
  rewrite E.
  pose proof (write_frame_data_keeps_fits _ _ _ _ _ _ Hfits1 E) as Hfits2.
  pose proof (write_frame_data_extends _ _ _ _ _ _ E)
    as [(_ & Hf2 & Hs2 & Hwd2 & Hht2 & Htb2) _].
  pose proof (write_frame_data_mscript _ _ _ _ _ _ E) as Hm3.
  rewrite Hms2, Hws2 in *.
  destruct Hcase as [(_ & _ & _ & N)|(e & Ht & _ & Hq & Hr & Hk & Hws3)];
    [discriminate|].
  cbn [hd tl write_ret] in Hr, Hws3. rewrite Hr, Z.eqb_refl in Hk. subst ok.
  exists fps2, w3. split; [reflexivity|].
  assert (Hd : delivered e = packed_yuv420p frame).
  { rewrite delivered_full; [assumption|].
    now rewrite Hq, (packed_length frame Hwf). }
  split.
  - rewrite Ht, pipe_bytes_app, Hbytes. unfold push_packet. fold same.
    cbn [pipe_bytes flat_map]. rewrite app_nil_r, Hd, <- !app_assoc.
    reflexivity.
  - repeat split; try congruence; try assumption.
    destruct Hm3 as [->| ->]; reflexivity.
Qed.

(** A stopped sink is revived by open: after a successful open, whatever the
    sink went through before (stopped included), a push that meets no
    failure succeeds and sends the dimension packet again, then the frame
    packet. *)
Theorem reopen_streams_again fps w tb mk op fps1 w1 frame :
  buf_fits fps ->
  sc_frame_pipe_sink_open fps w tb mk op = (true, fps1, w1) ->
  wscript w = [] -> mscript w = [] ->
  wf_frame frame ->
  exists fps2 w2,
    push fps1 w1 frame = Some (true, fps2, w2) /\
    pipe_bytes (trace w2) =
    pipe_bytes (trace w)
    ++ header_bytes (AV.width frame) (AV.height frame)
    ++ pts_bytes (pts_us fps1 frame)
    ++ packed_yuv420p frame /\
    time_base fps2 = tb /\ streaming fps2.
Proof.
  intros Hfits Eo Hws Hms Hwf.
  pose proof (open_ok _ _ _ _ _ _ _ Eo) as (Hs1 & Hw0 & Hh0 & Hb & Hz).
  assert (Hworld : wscript w1 = [] /\ mscript w1 = [] /\
                   pipe_bytes (trace w1) = pipe_bytes (trace w) /\
                   time_base fps1 = tb).
  { unfold sc_frame_pipe_sink_open in Eo.
    destruct (mk <? 0); [discriminate|]. cbn [fd set_fd] in Eo.
    destruct (op <? 0); [discriminate|].
    injection Eo as <- <-. cbn. rewrite Hws, Hms.
    rewrite <- !app_assoc, pipe_bytes_app. cbn. rewrite app_nil_r.
    repeat split. }
  destruct Hworld as (Hws1 & Hms1 & Hp1 & Htb1).
  assert (Hfits1 : buf_fits fps1)
    by (intros b Hb1; rewrite Hb in Hb1; rewrite Hz; now apply Hfits).
  destruct (push_ok_fits fps1 w1 frame Hs1 Hfits1 Hwf Hws1 Hms1)
    as (fps2 & w2 & E & Hp & Hs2 & _ & _ & _ & Htb2 & _).
  exists fps2, w2. split; [exact E|]. split; [|split; [congruence|exact Hs2]].
  rewrite Hp, Hp1. unfold push_packet. rewrite Hw0, Hh0.
  destruct (wf_dims frame Hwf) as [Hw _ _ _].
  destruct (Z.eqb_spec (AV.width frame) 0); [lia|]. reflexivity.
Qed.

(** When malloc fails, push has already sent the header (if due) and the
    timestamp: the call returns failure, the sink is stopped, the reader is
    left with a timestamp and no payload, the buffer pointer is NULL and the
    recorded size is still the old one. *)
Theorem malloc_failure_stops fps w frame :
  streaming fps -> wscript w = [] ->
  can_write_direct frame = false ->
  frame_buf fps = None \/ frame_buf_size fps < frame_size_of frame ->
  hd true (mscript w) = false ->
  exists fps' w',
    push fps w frame = Some (false, fps', w') /\
    stopped fps' = true /\
    frame_buf fps' = None /\ frame_buf_size fps' = frame_buf_size fps /\
    mscript w' = tl (mscript w) /\
    pipe_bytes (trace w') =
    pipe_bytes (trace w)
    ++ (if (AV.width frame =? width fps) && (AV.height frame =? height fps)
        then [] else header_bytes (AV.width frame) (AV.height frame))
    ++ pts_bytes (pts_us fps frame).
Proof.
  intros Hs Hws Hd Hneed Hm.
  rewrite (push_forward AV_NOPTS_VALUE av_rescale_q fps w frame Hs Hws).
  pose proof (header_and_pts_bytes fps w frame) as Hbytes.
  cbn zeta in *.
  set (same := (AV.width frame =? width fps)
               && (AV.height frame =? height fps)) in *.
  unfold write_frame_data. rewrite Hd.
  rewrite write_copy_nomem.
  - eexists _, _. split; [reflexivity|]. cbn [trace].
    rewrite Hbytes. destruct same; repeat split.
  - destruct same; exact Hneed.
  - destruct same; exact Hm.
Qed.

End PushBehaviour.

(** ** What a push puts on the pipe, and where *)

Section PushEvents.

Variable AV_NOPTS_VALUE : Z.
Variable av_rescale_q : Z -> AV.AVRational -> AV.AVRational -> Z.

Local Abbreviation push :=
  (sc_frame_pipe_sink_push AV_NOPTS_VALUE av_rescale_q).
Local Abbreviation pts_us := (pts_us_of AV_NOPTS_VALUE av_rescale_q).
Local Abbreviation packet := (push_packet AV_NOPTS_VALUE av_rescale_q).

Lemma prefix_firstn n (l rest : list Z) : prefix_of (firstn n l) (l ++ rest).
Proof.
  exists (skipn n l ++ rest). now rewrite app_assoc, firstn_skipn.
Qed.

Lemma prefix_app (a b c : list Z) :
  prefix_of b c -> prefix_of (a ++ b) (a ++ c).
Proof. intros [rest ->]. exists rest. now rewrite app_assoc. Qed.

Lemma prefix_refl (a : list Z) : prefix_of a a.
Proof. exists []. now rewrite app_nil_r. Qed.

Lemma shorter_neq (a b : list Z) : (length a < length b)%nat -> a <> b.
Proof. intros Hl ->. lia. Qed.

Lemma delivered_eq e :
  is_write e = true ->
  delivered e = firstn (Z.to_nat (returned e)) (requested e).
Proof. destruct e; cbn; intros; try discriminate; reflexivity. Qed.

(** A write that returned something else than the size asked for put a
    proper prefix of its buffer on the pipe. *)
Lemma short_write r (buf : list Z) :
  (0 < length buf)%nat ->
  write_ret r (Mem.len buf) <> Mem.len buf ->
  (length (firstn (Z.to_nat (write_ret r (Mem.len buf))) buf)
   < length buf)%nat.
Proof.
  intros Hpos Hne.
  pose proof (write_ret_range r (Mem.len buf) (len_nonneg buf)) as Hr.
  rewrite length_firstn. revert Hne Hr.
  generalize (write_ret r (Mem.len buf)). unfold Mem.len. intros x Hne Hr.
  apply Nat.min_lt_iff. left. lia.
Qed.

Lemma header_stage_events fps w frame fps1 w1 :
  header_stage fps w frame fps1 w1 ->
  exists hs,
    trace w1 = trace w ++ hs /\ (length hs <= 1)%nat /\
    Forall (fun e => event_fd e = Some (fd fps)) hs /\
    pipe_path fps1 = pipe_path fps.
Proof.
  intros [Ew Eh|Hne H12].
  - exists []. rewrite app_nil_r.
    split; [reflexivity|]. split; [cbn; lia|]. split; [constructor|].
    reflexivity.
  - eexists [_]. rewrite after_write_trace.
    split; [reflexivity|]. split; [cbn; lia|].
    split; [repeat constructor|]. reflexivity.
Qed.

(** The events of one push, on any sink. *)
Lemma push_events fps w frame ok fps' w' :
  push fps w frame = Some (ok, fps', w') ->
  exists es,
    trace w' = trace w ++ es /\ (length es <= 3)%nat /\
    Forall (fun e => event_fd e = Some (fd fps)) es /\
    (es <> [] -> streaming fps) /\
    fd fps' = fd fps /\ pipe_path fps' = pipe_path fps /\
    time_base fps' = time_base fps.
Proof.
  intros E. destruct (streaming_cases fps) as [Hs|Hr].
  - apply push_streaming_step in E; [|assumption].
    assert (Hdata :
      forall fps1 w1 ok1 fps2 w2 pts,
        header_stage fps w frame fps1 w1 ->
        write_frame_data fps1 (after_write w1 (EWrite (fd fps) pts 8)) frame
        = Some (ok1, fps2, w2) ->
        exists es,
          trace w2 = trace w ++ es /\ (length es <= 3)%nat /\
          Forall (fun e => event_fd e = Some (fd fps)) es /\
          fd fps2 = fd fps /\ pipe_path fps2 = pipe_path fps /\
          time_base fps2 = time_base fps).
    { intros fps1 w1 ok1 fps2 w2 pts Hh Ed.
      destruct (header_stage_events _ _ _ _ _ Hh) as (hs & Ht & Hl & Hf & Hp).
      destruct (header_stage_control _ _ _ _ _ Hh) as (Hfd1 & _ & _ & _ & Htb).
      pose proof (write_frame_data_extends _ _ _ _ _ _ Ed)
        as [(Hp2 & Hf2 & _ & _ & _ & Ht2) _].
      apply write_frame_data_event in Ed.
      destruct Ed as [Hte|(e & Hte & He)]; rewrite Hte, after_write_trace, Ht.
      - exists (hs ++ [EWrite (fd fps) pts 8]). rewrite <- app_assoc.
        split; [reflexivity|]. split; [rewrite length_app; cbn; lia|].
        split; [apply Forall_app; split; [assumption|repeat constructor]|].
        repeat split; congruence.
      - exists (hs ++ [EWrite (fd fps) pts 8; e]). rewrite <- !app_assoc.
        split; [reflexivity|]. split; [rewrite length_app; cbn; lia|].
        split; [|repeat split; congruence].
        apply Forall_app. split; [assumption|].
        repeat constructor. congruence. }
    inversion E as [ret Hne Heq Hret | fps1 w1 ret Hh Heq Hret
                    | fps1 w1 fps2 w2 Hh H8 Ed | fps1 w1 fps2 w2 Hh H8 Ed];
      subst.
    + eexists [_]. rewrite after_write_trace.
      split; [reflexivity|]. split; [cbn; lia|].
      split; [repeat constructor|]. split; [intros _; assumption|].
      repeat split.
    + destruct (header_stage_events _ _ _ _ _ Hh) as (hs & Ht & Hl & Hf & Hp).
      destruct (header_stage_control _ _ _ _ _ Hh) as (Hfd1 & _ & _ & _ & Htb).
      eexists (hs ++ [_]). rewrite after_write_trace, Ht, <- app_assoc.
      split; [reflexivity|]. split; [rewrite length_app; cbn; lia|].
      split; [apply Forall_app; split; [assumption|repeat constructor]|].
      split; [intros _; assumption|]. repeat split; assumption.
    + destruct (Hdata _ _ _ _ _ _ Hh Ed) as (es & Ht & Hl & Hf & H1 & H2 & H3).
      exists es. split; [assumption|]. split; [assumption|].
      split; [assumption|]. split; [intros _; assumption|].
      repeat split; assumption.
    + destruct (Hdata _ _ _ _ _ _ Hh Ed) as (es & Ht & Hl & Hf & H1 & H2 & H3).
      exists es. split; [assumption|]. split; [assumption|].
      split; [assumption|]. split; [intros _; assumption|].
      repeat split; assumption.
  - rewrite (push_rejected AV_NOPTS_VALUE av_rescale_q fps w frame) in E
      by (destruct Hr; auto).
    injection E as <- <- <-. exists []. rewrite app_nil_r.
    split; [reflexivity|]. split; [cbn; lia|]. split; [constructor|].
    split; [congruence|]. repeat split.
Qed.

(** push only ever writes, at most three times, on the descriptor of the
    sink, and only when the sink is streaming; it makes no other system
    call, and it changes neither the descriptor, nor the path, nor the time
    base. *)
Theorem push_only_writes_own_fd fps w frame ok fps' w' :
  push fps w frame = Some (ok, fps', w') ->
  exists es,
    trace w' = trace w ++ es /\ (length es <= 3)%nat /\
    Forall (fun e => is_write e = true /\ event_fd e = Some (fd fps)) es /\
    (es <> [] -> streaming fps) /\
    fd fps' = fd fps /\ pipe_path fps' = pipe_path fps /\
    time_base fps' = time_base fps.
Proof.
  intros E.
  destruct (push_events _ _ _ _ _ _ E) as (es & Ht & Hl & Hf & Hrest).
  exists es. split; [exact Ht|]. split; [exact Hl|]. split; [|exact Hrest].
  apply Forall_forall. intros e He. rewrite Forall_forall in Hf.
  specialize (Hf e He). split; [|exact Hf].
  destruct e; try discriminate; reflexivity.
Qed.

(** Whatever happens, a push on a streaming sink puts on the pipe a prefix
    of the packet sequence it was to send (dimension packet if due,
    timestamp, payload), and the whole of it exactly when it returns
    success: a failed push leaves the reader with a truncated packet. *)
Theorem push_delivers_prefix fps w frame ok fps' w' :
  streaming fps -> buf_fits fps -> wf_frame frame ->
  push fps w frame = Some (ok, fps', w') ->
  exists sent,
    pipe_bytes (trace w') = pipe_bytes (trace w) ++ sent /\
    prefix_of sent (packet fps frame) /\
    (ok = true <-> sent = packet fps frame).
Proof.
  intros Hs Hfits Hwf E.
  apply push_streaming_step in E; [|assumption].
  pose proof (packed_length frame Hwf) as Hlen.
  pose proof (frame_size_three_halves frame (wf_dims frame Hwf)) as H32.
  assert (Hpos : (0 < length (packed_yuv420p frame))%nat).
  { destruct (wf_dims frame Hwf) as [Hw Hh _ _].
    unfold Mem.len in Hlen. nia. }
  unfold push_packet.
  set (hdr := header_bytes (AV.width frame) (AV.height frame)).
  set (pts := pts_bytes (pts_us fps frame)).
  assert (Lh : length hdr = 12%nat) by reflexivity.
  assert (Lp : length pts = 8%nat) by reflexivity.
  assert (Hstage :
    forall fps1 w1,
      header_stage fps w frame fps1 w1 ->
      buf_fits fps1 /\
      pipe_bytes (trace w1) =
      pipe_bytes (trace w)
      ++ (if (AV.width frame =? width fps) && (AV.height frame =? height fps)
          then [] else hdr)).
  { intros fps1 w1 Hh.
    destruct (header_stage_control _ _ _ _ _ Hh) as (_ & _ & Hb & Hz & _).
    destruct (header_stage_world _ _ _ _ _ Hh) as (_ & _ & _ & _ & Hp).
    split; [|exact Hp].
    intros b Hb1. rewrite Hb in Hb1. rewrite Hz. now apply Hfits. }
  inversion E as [ret Hne Heq Hret | fps1 w1 ret Hh Heq Hret
                  | fps1 w1 fps2 w2 Hh H8 Ed | fps1 w1 fps2 w2 Hh H8 Ed];
    subst.
  - assert (Hif : (AV.width frame =? width fps)
                  && (AV.height frame =? height fps) = false).
    { destruct (Z.eqb_spec (AV.width frame) (width fps)),
               (Z.eqb_spec (AV.height frame) (height fps));
        try reflexivity.
      destruct Hne; contradiction. }
    rewrite Hif.
    pose proof (short_write (hd WAll (wscript w)) hdr ltac:(lia) Hret)
      as Hshort.
    eexists. rewrite after_write_trace, pipe_bytes_app. cbn [pipe_bytes flat_map delivered].
    rewrite app_nil_r. split; [reflexivity|]. split.
    + apply prefix_firstn.
    + split; [discriminate|]. intros Heq. exfalso.
      revert Heq. apply shorter_neq. rewrite !length_app.
      change (Mem.len hdr) with 12 in Hshort. fold hdr. lia.
  - destruct (Hstage _ _ Hh) as (_ & Hp).
    pose proof (short_write (hd WAll (wscript w1)) pts ltac:(lia) Hret)
      as Hshort.
    eexists. rewrite after_write_trace, pipe_bytes_app, Hp.
    cbn [pipe_bytes flat_map delivered]. rewrite app_nil_r, <- app_assoc.
    split; [reflexivity|]. split.
    + apply prefix_app, prefix_firstn.
    + split; [discriminate|]. intros Heq. exfalso.
      revert Heq. apply shorter_neq. rewrite !length_app.
      change (Mem.len pts) with 8 in Hshort. fold pts. lia.
  - destruct (Hstage _ _ Hh) as (Hfits1 & Hp).
    destruct (write_frame_data_fits fps1
                (after_write w1 (EWrite (fd fps) pts 8)) frame Hwf Hfits1)
      as (ok3 & fps3 & w3 & E3 & Hcase).
    subst pts. rewrite Ed in E3. injection E3 as <- <- <-.
    destruct Hcase as [(_ & Ht & _)|(e & Ht & Hw & Hq & Hr & Hk & _)].
    + exists ((if (AV.width frame =? width fps)
                  && (AV.height frame =? height fps) then [] else hdr)
              ++ pts_bytes (pts_us fps frame)).
      split; [|split].
      * rewrite Ht, after_write_trace, pipe_bytes_app, Hp.
        cbn [pipe_bytes flat_map].
        change (delivered (EWrite (fd fps) (pts_bytes (pts_us fps frame)) 8))
          with (pts_bytes (pts_us fps frame)).
        now rewrite app_nil_r, <- app_assoc.
      * apply prefix_app. exists (packed_yuv420p frame). reflexivity.
      * split; [discriminate|]. intros Heq. exfalso.
        revert Heq. apply shorter_neq. rewrite !length_app. lia.
    + symmetry in Hk. apply Z.eqb_neq in Hk.
      assert (Hshort : (length (delivered e)
                        < length (packed_yuv420p frame))%nat).
      { rewrite delivered_eq, Hq, Hr by assumption.
        rewrite <- Hlen. apply short_write; [exact Hpos|]. rewrite Hlen.
        now rewrite <- Hr. }
      exists ((if (AV.width frame =? width fps)
                  && (AV.height frame =? height fps) then [] else hdr)
              ++ pts_bytes (pts_us fps frame) ++ delivered e).
      split; [|split].
      * rewrite Ht, after_write_trace, !pipe_bytes_app, Hp.
        cbn [pipe_bytes flat_map]. rewrite !app_nil_r, <- !app_assoc.
        reflexivity.
      * do 2 apply prefix_app.
        rewrite delivered_eq, Hq by assumption.
        rewrite <- (app_nil_r (packed_yuv420p frame)) at 2.
        apply prefix_firstn.
      * split; [discriminate|]. intros Heq. exfalso.
        revert Heq. apply shorter_neq. rewrite !length_app. lia.
  - destruct (Hstage _ _ Hh) as (Hfits1 & Hp).
    destruct (write_frame_data_fits fps1
                (after_write w1 (EWrite (fd fps) pts 8)) frame Hwf Hfits1)
      as (ok3 & fps3 & w3 & E3 & Hcase).
    subst pts. rewrite Ed in E3. injection E3 as <- <- <-.
    destruct Hcase as [(N & _)|(e & Ht & Hw & Hq & Hr & Hk & _)];
      [discriminate|].
    symmetry in Hk. apply Z.eqb_eq in Hk.
    assert (Hd : delivered e = packed_yuv420p frame)
      by (rewrite delivered_full; [assumption | now rewrite Hq, Hlen]).
    exists ((if (AV.width frame =? width fps)
                && (AV.height frame =? height fps) then [] else hdr)
            ++ pts_bytes (pts_us fps frame) ++ packed_yuv420p frame).
    split; [|split; [apply prefix_refl | split; reflexivity]].
    rewrite Ht, after_write_trace, !pipe_bytes_app, Hp.
    cbn [pipe_bytes flat_map]. rewrite !app_nil_r, Hd, <- !app_assoc.
    reflexivity.
Qed.

End PushEvents.

(** ** Whole lifetimes: init, then any calls *)

Section Lifetime.

Variable AV_NOPTS_VALUE : Z.
Variable av_rescale_q : Z -> AV.AVRational -> AV.AVRational -> Z.

Local Abbreviation push :=
  (sc_frame_pipe_sink_push AV_NOPTS_VALUE av_rescale_q).
Local Abbreviation run := (run_calls AV_NOPTS_VALUE av_rescale_q).

(** No write on a descriptor that open did not return. *)
Local Abbreviation valid_fd :=
  (fun e : event => forall d, event_fd e = Some d -> 0 <= d).

Lemma open_events fps w tb mk op ok fps1 w1 :
  sc_frame_pipe_sink_open fps w tb mk op = (ok, fps1, w1) ->
  frame_buf fps1 = frame_buf fps /\
  frame_buf_size fps1 = frame_buf_size fps /\
  pipe_path fps1 = pipe_path fps /\
  exists es, trace w1 = trace w ++ es /\ Forall valid_fd es.
Proof.
  unfold sc_frame_pipe_sink_open.
  destruct (mk <? 0).
  - intros [= _ <- <-]. repeat split. eexists. cbn.
    rewrite <- !app_assoc. split; [reflexivity|].
    repeat constructor; discriminate.
  - cbn [fd set_fd]. destruct (op <? 0); intros [= _ <- <-];
      repeat split; eexists; cbn; rewrite <- !app_assoc;
      (split; [reflexivity|]); repeat constructor; discriminate.
Qed.

Lemma close_events fps w fps1 w1 :
  sc_frame_pipe_sink_close fps w = (fps1, w1) ->
  frame_buf fps1 = frame_buf fps /\
  frame_buf_size fps1 = frame_buf_size fps /\
  pipe_path fps1 = pipe_path fps /\
  exists es, trace w1 = trace w ++ es /\ Forall valid_fd es.
Proof.
  unfold sc_frame_pipe_sink_close.
  destruct (0 <=? fd fps); intros [= <- <-];
    repeat split; eexists; cbn; rewrite <- ?app_assoc;
    (split; [reflexivity|]); repeat constructor; discriminate.
Qed.

Lemma push_keeps_fits fps w frame ok fps' w' :
  buf_fits fps ->
  push fps w frame = Some (ok, fps', w') ->
  buf_fits fps'.
Proof.
  intros Hfits E. destruct (streaming_cases fps) as [Hs|Hr].
  - apply push_streaming_step in E; [|assumption].
    assert (Hstage : forall fps1 w1,
              header_stage fps w frame fps1 w1 -> buf_fits fps1).
    { intros fps1 w1 Hh.
      destruct (header_stage_control _ _ _ _ _ Hh) as (_ & _ & Hb & Hz & _).
      intros b Hb1. rewrite Hb in Hb1. rewrite Hz. now apply Hfits. }
    inversion E as [ret Hne Heq Hret | fps1 w1 ret Hh Heq Hret
                    | fps1 w1 fps2 w2 Hh H8 Ed | fps1 w1 fps2 w2 Hh H8 Ed];
      subst.
    + exact Hfits.
    + exact (Hstage _ _ Hh).
    + exact (write_frame_data_keeps_fits _ _ _ _ _ _ (Hstage _ _ Hh) Ed).
    + exact (write_frame_data_keeps_fits _ _ _ _ _ _ (Hstage _ _ Hh) Ed).
  - rewrite (push_rejected AV_NOPTS_VALUE av_rescale_q fps w frame) in E
      by (destruct Hr; auto).
    now injection E as <- <- <-.
Qed.

Lemma push_returns_fits fps w frame :
  wf_frame frame -> buf_fits fps ->
  exists ok fps' w', push fps w frame = Some (ok, fps', w').
Proof.
  intros Hwf Hfits.
  destruct (streaming_cases fps) as [[Hfd Hst]|Hr].
  - unfold sc_frame_pipe_sink_push.
    destruct (Z.ltb_spec (fd fps) 0); [lia|]. rewrite Hst. cbn [orb].
    destruct (if negb (AV.width frame =? width fps)
                 || negb (AV.height frame =? height fps)
              then write_header fps w (AV.width frame) (AV.height frame)
              else (true, fps, w)) as [[ok1 fps1] w1] eqn:E1.
    assert (Hfits1 : buf_fits fps1).
    { destruct (negb (AV.width frame =? width fps)
                || negb (AV.height frame =? height fps)).
      - unfold write_header in E1.
        destruct (sys_write w (fd fps) _) as [r w0].
        destruct (negb (to_size_t r =? 12)); injection E1 as <- <- <-;
          exact Hfits.
      - injection E1 as <- <- <-. exact Hfits. }
    destruct ok1; cbn [negb]; [|eauto].
    destruct (write_pts fps1 w1 _) as [ok2 w2].
    destruct ok2; cbn [negb]; [|eauto].
    destruct (write_frame_data_fits fps1 w2 frame Hwf Hfits1)
      as (ok3 & fps3 & w3 & -> & _).
    destruct ok3; cbn [negb]; eauto.
  - rewrite (push_rejected AV_NOPTS_VALUE av_rescale_q fps w frame)
      by (destruct Hr; auto).
    eauto.
Qed.

Lemma run_calls_safe calls :
  forall fps w,
    buf_fits fps -> Forall readable calls ->
    exists rs fps' w' es,
      run fps w calls = Some (rs, fps', w') /\
      buf_fits fps' /\ pipe_path fps' = pipe_path fps /\
      trace w' = trace w ++ es /\ Forall valid_fd es.
Proof.
  induction calls as [|c calls IH]; intros fps w Hfits Hr.
  - exists [], fps, w, []. rewrite app_nil_r.
    split; [reflexivity|]. split; [exact Hfits|].
    split; [reflexivity|]. split; [reflexivity|constructor].
  - inversion Hr as [|? ? Hc Hcs]; subst.
    assert (Hstep :
      forall fps1 w1 es1,
        buf_fits fps1 -> pipe_path fps1 = pipe_path fps ->
        trace w1 = trace w ++ es1 -> Forall valid_fd es1 ->
        exists rs fps' w' es,
          run fps1 w1 calls = Some (rs, fps', w') /\
          buf_fits fps' /\ pipe_path fps' = pipe_path fps /\
          trace w' = trace w ++ es /\ Forall valid_fd es).
    { intros fps1 w1 es1 Hf1 Hp1 Ht1 Hv1.
      destruct (IH fps1 w1 Hf1 Hcs)
        as (rs & fps' & w' & es & E & Hf & Hp & Ht & Hv).
      exists rs, fps', w', (es1 ++ es).
      split; [exact E|]. split; [exact Hf|]. split; [congruence|].
      split; [rewrite Ht, Ht1; now rewrite app_assoc|].
      apply Forall_app. now split. }
    destruct c as [tb mk op|frame|]; cbn [run_calls].
    + destruct (sc_frame_pipe_sink_open fps w tb mk op)
        as [[ok fps1] w1] eqn:Eo.
      destruct (open_events _ _ _ _ _ _ _ _ Eo)
        as (Hb & Hz & Hp & es1 & Ht1 & Hv1).
      destruct (Hstep fps1 w1 es1) as (rs & fps' & w' & es & E & H);
        try assumption.
      * intros b Hb1. rewrite Hb in Hb1. rewrite Hz. now apply Hfits.
      * rewrite E. exists (ok :: rs), fps', w', es.
        split; [reflexivity|exact H].
    + cbn [readable] in Hc.
      destruct (push_returns_fits fps w frame Hc Hfits)
        as (ok & fps1 & w1 & Ep).
      rewrite Ep.
      pose proof (push_keeps_fits _ _ _ _ _ _ Hfits Ep) as Hf1.
      destruct (push_events AV_NOPTS_VALUE av_rescale_q _ _ _ _ _ _ Ep)
        as (es1 & Ht1 & _ & Hfd & Hstr & _ & Hp & _).
      destruct (Hstep fps1 w1 es1) as (rs & fps' & w' & es & E & H);
        try assumption.
      * apply Forall_forall. intros e He d Hd.
        rewrite Forall_forall in Hfd. rewrite (Hfd e He) in Hd.
        injection Hd as <-.
        destruct Hstr as [Hpos _]; [|exact Hpos].
        intros ->. destruct He.
      * rewrite E. exists (ok :: rs), fps', w', es.
        split; [reflexivity|exact H].
    + destruct (sc_frame_pipe_sink_close fps w) as [fps1 w1] eqn:Ec.
      destruct (close_events _ _ _ _ Ec) as (Hb & Hz & Hp & es1 & Ht1 & Hv1).
      destruct (Hstep fps1 w1 es1) as (rs & fps' & w' & es & E & H);
        try assumption.
      * intros b Hb1. rewrite Hb in Hb1. rewrite Hz. now apply Hfits.
      * exists rs, fps', w', es. split; [exact E|exact H].
Qed.

(** After init, whatever sequence of open, push and close is made, in any
    order and with any failures of mkfifo, open, write and malloc, every
    call returns as long as push is handed frames it can read (the copy
    loops never leave the scratch buffer); the buffer and its recorded size
    agree whenever there is a buffer, the path is the one given to init, and
    no write is ever made on a negative descriptor. *)
Theorem lifetime_is_safe fps0 path w calls :
  Forall readable calls ->
  exists rs fps' w' es,
    run (snd (sc_frame_pipe_sink_init fps0 path true)) w calls
    = Some (rs, fps', w') /\
    buf_fits fps' /\ pipe_path fps' = path /\
    trace w' = trace w ++ es /\
    Forall (fun e => forall d, event_fd e = Some d -> 0 <= d) es.
Proof.
  intros Hr.
  apply (run_calls_safe calls
           (snd (sc_frame_pipe_sink_init fps0 path true)) w);
    [|exact Hr].
  intros b Hb. discriminate.
Qed.

End Lifetime.

(** ** The further theorems on sample data *)

Lemma buf_fits_opened : buf_fits (fst Sample.opened).
Proof. intros b Hb. discriminate. Qed.

Lemma buf_fits_stopped : buf_fits Sample.stopped_sink.
Proof. intros b Hb. discriminate. Qed.

Lemma header_bytes_injective_witness :
  (INT_MIN <= -2 <= INT_MAX /\ INT_MIN <= 480 <= INT_MAX) /\
  header_bytes (-2) 480
  = [89; 85; 86; 52; 254; 255; 255; 255; 224; 1; 0; 0] /\
  (-2 = -2 /\ 480 = 480).
Proof.
  assert (H1 : INT_MIN <= -2 <= INT_MAX) by (split; by_computation).
  assert (H2 : INT_MIN <= 480 <= INT_MAX) by (split; by_computation).
  split; [split; assumption|]. split; [reflexivity|].
  exact (header_bytes_injective (-2) 480 (-2) 480 H1 H2 H1 H2 eq_refl).
Defined.

Lemma frame_size_no_wrap_witness :
  (0 <= 3 <= INT_MAX /\ 0 <= 5 <= INT_MAX) /\
  frame_size_of (AV.mkFrame 3 5 [] [] 0) = 19 /\
  2 * frame_size_of (AV.mkFrame 3 5 [] [] 0) < 3 * (3 * 5).
Proof.
  assert (H1 : 0 <= 3 <= INT_MAX) by (split; by_computation).
  assert (H2 : 0 <= 5 <= INT_MAX) by (split; by_computation).
  split; [split; assumption|]. split; [reflexivity|].
  destruct (frame_size_no_wrap (AV.mkFrame 3 5 [] [] 0) H1 H2)
    as (_ & _ & _ & _ & _ & _ & Hodd).
  apply Hodd; [reflexivity | reflexivity | left; reflexivity].
Defined.

Lemma open_outcomes_witness :
  exists ok fps' w',
    sc_frame_pipe_sink_open Sample.fresh Sample.world0 Sample.tb 0 (-1)
    = (ok, fps', w') /\
    ok = false /\
    trace w' = [EUnlink "/tmp/frames"; EMkfifo "/tmp/frames" 0;
                EOpen "/tmp/frames" (-1); EUnlink "/tmp/frames"] /\
    fd fps' = -1.
Proof.
  destruct (sc_frame_pipe_sink_open Sample.fresh Sample.world0 Sample.tb
              0 (-1)) as [[ok fps'] w'] eqn:E.
  exists ok, fps', w'. split; [reflexivity|].
  destruct (open_outcomes _ _ _ _ _ _ _ _ E)
    as (Hok & _ & _ & _ & _ & _ & _ & _ & _ & Hfail & _).
  destruct (Hfail ltac:(by_computation) ltac:(by_computation)) as [Ht Hf].
  split; [|split; [exact Ht|exact Hf]].
  destruct ok; [|reflexivity].
  destruct (proj1 Hok eq_refl) as [_ N]. exfalso. revert N. by_computation.
Defined.

Lemma close_twice_witness :
  exists fps1 w1 fps2 w2,
    sc_frame_pipe_sink_close (fst Sample.opened) (snd Sample.opened)
    = (fps1, w1) /\
    sc_frame_pipe_sink_close fps1 w1 = (fps2, w2) /\
    fd fps1 < 0 /\ fps2 = fps1 /\
    trace w2 = trace w1 ++ [EUnlink "/tmp/frames"].
Proof.
  destruct (sc_frame_pipe_sink_close (fst Sample.opened) (snd Sample.opened))
    as [fps1 w1] eqn:E1.
  destruct (sc_frame_pipe_sink_close fps1 w1) as [fps2 w2] eqn:E2.
  exists fps1, w1, fps2, w2. split; [reflexivity|]. split; [exact E2|].
  destruct (close_twice _ _ _ _ _ _ E1 E2) as (H1 & H2 & _ & H3 & _).
  split; [exact H1|]. split; [exact H2|exact H3].
Defined.

Lemma direct_path_zero_copy_witness :
  wf_frame Sample.tight /\ unpadded Sample.tight /\
  write_frame_data (fst Sample.opened) (snd Sample.opened) Sample.tight
  = Some (true, fst Sample.opened,
          after_write (snd Sample.opened)
            (EWritev 5 [[1; 2; 3; 4]; [5]; [6]] 6)).
Proof.
  assert (Hun : unpadded Sample.tight) by (repeat split).
  split; [exact wf_tight|]. split; [exact Hun|].
  exact (direct_path_zero_copy (fst Sample.opened) (snd Sample.opened)
           Sample.tight wf_tight Hun).
Defined.

Lemma copy_path_reuses_buffer_witness :
  wf_frame Sample.padded /\ can_write_direct Sample.padded = false /\
  exists fps' w',
    write_frame_data
      (set_frame_buf (set_frame_buf_size (fst Sample.opened) 8)
                     (Some [7; 7; 7; 7; 7; 7; 7; 7]))
      (snd Sample.opened) Sample.padded
    = Some (true, fps', w') /\
    mscript w' = mscript (snd Sample.opened) /\
    frame_buf_size fps' = 8 /\
    frame_buf fps' = Some [1; 2; 3; 4; 5; 6; 7; 7].
Proof.
  split; [exact wf_padded|]. split; [reflexivity|].
  destruct (copy_path_reuses_buffer
              (set_frame_buf (set_frame_buf_size (fst Sample.opened) 8)
                             (Some [7; 7; 7; 7; 7; 7; 7; 7]))
              (snd Sample.opened) Sample.padded [7; 7; 7; 7; 7; 7; 7; 7]
              wf_padded eq_refl eq_refl eq_refl ltac:(by_computation))
    as (fps' & w' & E & _ & Hm & Hz & Hb & _).
  exists fps', w'. split; [exact E|]. split; [exact Hm|].
  split; [exact Hz|exact Hb].
Defined.

Lemma copy_path_allocates_exact_witness :
  wf_frame Sample.wide /\ can_write_direct Sample.wide = false /\
  frame_buf (fst Sample.opened) = None /\
  exists fps' w',
    write_frame_data (fst Sample.opened) (snd Sample.opened) Sample.wide
    = Some (true, fps', w') /\
    frame_buf_size fps' = 12 /\
    frame_buf fps' = Some [1; 2; 3; 4; 5; 6; 7; 8; 9; 10; 11; 12].
Proof.
  split; [exact wf_wide|]. split; [reflexivity|]. split; [reflexivity|].
  destruct (copy_path_allocates_exact (fst Sample.opened) (snd Sample.opened)
              Sample.wide wf_wide eq_refl (or_introl eq_refl) eq_refl)
    as (fps' & w' & E & _ & _ & Hz & Hb & _).
  exists fps', w'. split; [exact E|]. split; [exact Hz|exact Hb].
Defined.

Lemma malloc_failure_stops_witness :
  streaming (fst Sample.opened) /\
  exists fps' w',
    sc_frame_pipe_sink_push Sample.NOPTS Sample.rescale
      (fst Sample.opened)
      (mkWorld (trace (snd Sample.opened)) [] [false]) Sample.padded
    = Some (false, fps', w') /\
    stopped fps' = true /\ frame_buf fps' = None /\
    pipe_bytes (trace w')
    = [89; 85; 86; 52; 2; 0; 0; 0; 2; 0; 0; 0] ++ [0; 0; 0; 0; 0; 0; 0; 0].
Proof.
  split; [exact streaming_opened|].
  destruct (malloc_failure_stops Sample.NOPTS Sample.rescale
              (fst Sample.opened)
              (mkWorld (trace (snd Sample.opened)) [] [false]) Sample.padded
              streaming_opened eq_refl eq_refl (or_introl eq_refl) eq_refl)
    as (fps' & w' & E & Hs & Hb & _ & _ & Hp).
  exists fps', w'. split; [exact E|]. split; [exact Hs|].
  split; [exact Hb|exact Hp].
Defined.

Lemma reopen_streams_again_witness :
  buf_fits Sample.stopped_sink /\ stopped Sample.stopped_sink = true /\
  exists fps1 w1 fps2 w2,
    sc_frame_pipe_sink_open Sample.stopped_sink Sample.world0 Sample.tb 0 7
    = (true, fps1, w1) /\
    sc_frame_pipe_sink_push Sample.NOPTS Sample.rescale fps1 w1 Sample.tight
    = Some (true, fps2, w2) /\
    streaming fps2.
Proof.
  split; [exact buf_fits_stopped|]. split; [reflexivity|].
  destruct (sc_frame_pipe_sink_open Sample.stopped_sink Sample.world0
              Sample.tb 0 7) as [[ok fps1] w1] eqn:Eo.
  assert (Hok : ok = true) by (vm_compute in Eo; congruence). subst ok.
  destruct (reopen_streams_again Sample.NOPTS Sample.rescale
              _ _ _ _ _ _ _ Sample.tight buf_fits_stopped Eo
              eq_refl eq_refl wf_tight)
    as (fps2 & w2 & E & _ & _ & Hs).
  exists fps1, w1, fps2, w2. split; [reflexivity|].
  split; [exact E|exact Hs].
Defined.

Lemma push_only_writes_own_fd_witness :
  exists ok fps' w' es,
    sc_frame_pipe_sink_push Sample.NOPTS Sample.rescale
      (fst Sample.opened) (snd Sample.opened) Sample.padded
    = Some (ok, fps', w') /\
    trace w' = trace (snd Sample.opened) ++ es /\
    Forall (fun e => is_write e = true
                     /\ event_fd e = Some (fd (fst Sample.opened))) es.
Proof.
  destruct (sc_frame_pipe_sink_push Sample.NOPTS Sample.rescale
              (fst Sample.opened) (snd Sample.opened) Sample.padded)
    as [[[ok fps'] w']|] eqn:E; [|vm_compute in E; discriminate].
  destruct (push_only_writes_own_fd Sample.NOPTS Sample.rescale
              _ _ _ _ _ _ E) as (es & Ht & _ & Hf & _).
  exists ok, fps', w', es. split; [reflexivity|]. split; [exact Ht|exact Hf].
Defined.

Lemma push_delivers_prefix_witness :
  streaming (fst Sample.opened) /\ buf_fits (fst Sample.opened) /\
  wf_frame Sample.padded /\
  exists ok fps' w' sent,
    sc_frame_pipe_sink_push Sample.NOPTS Sample.rescale
      (fst Sample.opened)
      (mkWorld (trace (snd Sample.opened)) [WShort 5] []) Sample.padded
    = Some (ok, fps', w') /\
    pipe_bytes (trace w')
    = pipe_bytes (trace (snd Sample.opened)) ++ sent /\
    prefix_of sent
      (push_packet Sample.NOPTS Sample.rescale
         (fst Sample.opened) Sample.padded).
Proof.
  split; [exact streaming_opened|]. split; [exact buf_fits_opened|].
  split; [exact wf_padded|].
  destruct (sc_frame_pipe_sink_push Sample.NOPTS Sample.rescale
              (fst Sample.opened)
              (mkWorld (trace (snd Sample.opened)) [WShort 5] [])
              Sample.padded)
    as [[[ok fps'] w']|] eqn:E; [|vm_compute in E; discriminate].
  destruct (push_delivers_prefix Sample.NOPTS Sample.rescale
              _ _ _ _ _ _ streaming_opened buf_fits_opened wf_padded E)
    as (sent & Hp & Hpre & _).
  exists ok, fps', w', sent. split; [reflexivity|].
  split; [exact Hp|exact Hpre].
Defined.

Lemma lifetime_is_safe_witness :
  Forall readable
    [CallOpen Sample.tb 0 5; CallPush Sample.padded; CallPush Sample.wide;
     CallClose; CallOpen Sample.tb (-1) 5; CallPush Sample.tight;
     CallClose] /\
  exists rs fps' w',
    run_calls Sample.NOPTS Sample.rescale
      (snd (sc_frame_pipe_sink_init Sample.fresh "/tmp/frames" true))
      Sample.world0
      [CallOpen Sample.tb 0 5; CallPush Sample.padded; CallPush Sample.wide;
       CallClose; CallOpen Sample.tb (-1) 5; CallPush Sample.tight;
       CallClose]
    = Some (rs, fps', w') /\
    buf_fits fps'.
Proof.
  assert (Hr : Forall readable
            [CallOpen Sample.tb 0 5; CallPush Sample.padded;
             CallPush Sample.wide; CallClose; CallOpen Sample.tb (-1) 5;
             CallPush Sample.tight; CallClose]).
  { repeat (apply Forall_cons;
              [first [exact I | exact wf_padded | exact wf_wide
                     | exact wf_tight]|]).
    apply Forall_nil. }
  split; [exact Hr|].
  destruct (lifetime_is_safe Sample.NOPTS Sample.rescale
              Sample.fresh "/tmp/frames" Sample.world0 _ Hr)
    as (rs & fps' & w' & es & E & Hf & _).
  exists rs, fps', w'. split; [exact E|exact Hf].
Defined.

Lemma push_all_stream_witness :
  streaming (fst Sample.opened) /\ sink_inv (fst Sample.opened) /\
  Forall wf_frame [Sample.tight; Sample.padded; Sample.wide] /\
  exists fps' w',
    push_all Sample.NOPTS Sample.rescale
      (fst Sample.opened) (snd Sample.opened)
      [Sample.tight; Sample.padded; Sample.wide]
    = Some ([true; true; true], fps', w') /\
    pipe_bytes (trace w') =
    pipe_bytes (trace (snd Sample.opened))
    ++ expected_stream Sample.NOPTS Sample.rescale (fst Sample.opened)
         (width (fst Sample.opened)) (height (fst Sample.opened))
         [Sample.tight; Sample.padded; Sample.wide].
Proof.
  assert (Hf : Forall wf_frame [Sample.tight; Sample.padded; Sample.wide])
    by (repeat (apply Forall_cons;
                  [first [exact wf_tight | exact wf_padded | exact wf_wide]|]);
        apply Forall_nil).
  split; [exact streaming_opened|]. split; [exact sink_inv_opened|].
  split; [exact Hf|].
  exact (push_all_stream Sample.NOPTS Sample.rescale
           [Sample.tight; Sample.padded; Sample.wide]
           (fst Sample.opened) (snd Sample.opened)
           streaming_opened sink_inv_opened Hf eq_refl eq_refl).
Defined.
